(** * Job aggregation pipeline: scoring, tier mixing, deduplication, feed

    A shallow embedding of
      - supabase/functions/scrape-jobs/index.ts   (module [Scraper])
      - supabase/functions/live-jobs-feed/index.ts (module [Feed])
    together with the properties stated about them.

    Conventions of the embedding.
    - A JavaScript string is a [string] of 8-bit code units (the Latin-1
      range of UTF-16 code units).
    - A JavaScript number that the program only ever uses as an integer
      (scores, millisecond timestamps, counts) is a [Z].  The three quota
      products [totalJobs * 0.7], [* 0.2], [* 0.1] are not integers: they are
      computed in IEEE-754 binary64, as the program does (module [Binary64]).
      On integers below 2^53, as millisecond differences are,
      [Math.floor(a / b)] is the integer quotient, written [a / b] here.
    - [new Date(s).getTime()] is a parameter [dateMs : string → option Z] of
      the definitions that read a date; [None] is NaN (an unreadable date).
      [new Date(ms).toISOString()] is the parameter [toISOString].
    - [Date.now()] is an explicit argument [now]. *)

From Stdlib Require Import ZArith NArith Lia Bool Ascii String.
From Stdlib Require Import Decimal DecimalString DecimalZ DecimalPos.
From Stdlib Require Import Floats.SpecFloat.
From stdpp Require Import base tactics option list sorting gmap strings.

Local Open Scope Z_scope.

(* ================================================================== *)
(** * IEEE-754 binary64, as far as the quota computation needs it      *)
(* ================================================================== *)

Module Binary64.

Definition prec : Z := 53.
Definition emax : Z := 1024.

(** The number [n] as a double (exact for |n| < 2^53). *)
Definition of_Z (n : Z) : spec_float := binary_normalize prec emax n 0 false.

(** Correctly rounded product. *)
Definition mul (x y : spec_float) : spec_float := SFmul prec emax x y.

(** Correctly rounded quotient; only used to check the literals below. *)
Definition div (x y : spec_float) : spec_float := SFdiv prec emax x y.

(** [Math.floor] of a double, where the result is an integer; infinities
    and NaN have none. *)
Definition floor (x : spec_float) : option Z :=
  match x with
  | S754_zero _ => Some 0
  | S754_finite s m e =>
      let v := if s then Z.neg m else Z.pos m in
      Some (if 0 <=? e then v * 2 ^ e else v / 2 ^ (- e))
  | _ => None
  end.

(** The literals [0.7], [0.2] and [0.1]: the doubles nearest to 7/10, 2/10
    and 1/10 (0x3FE6666666666666, 0x3FC999999999999A, 0x3FB999999999999A). *)
Definition lit_0_7 : spec_float := S754_finite false 6305039478318694 (-53).
Definition lit_0_2 : spec_float := S754_finite false 7205759403792794 (-55).
Definition lit_0_1 : spec_float := S754_finite false 7205759403792794 (-56).

End Binary64.

(* ================================================================== *)
(** * JavaScript string and array primitives used by the program       *)
(* ================================================================== *)

Module Js.

Local Open Scope string_scope.

(** [String.prototype.toLowerCase] on the Latin-1 range. *)
Definition toLowerChar (c : ascii) : ascii :=
  let n := N_of_ascii c in
  if ((65 <=? n) && (n <=? 90))%N then ascii_of_N (n + 32)
  else if ((192 <=? n) && (n <=? 222) && negb (n =? 215))%N then ascii_of_N (n + 32)
  else c.

Fixpoint toLowerCase (s : string) : string :=
  match s with
  | EmptyString => EmptyString
  | String c s' => String (toLowerChar c) (toLowerCase s')
  end.

(** [s.includes(t)]. *)
Fixpoint includes (s t : string) : bool :=
  String.prefix t s ||
  match s with
  | EmptyString => false
  | String _ s' => includes s' t
  end.

(** Truthiness of a string: non-empty. *)
Definition truthy (s : string) : bool :=
  match s with EmptyString => false | _ => true end.

(** [x || d] for a possibly missing string [x]. *)
Definition orElse (x : option string) (d : string) : string :=
  match x with
  | Some s => if truthy s then s else d
  | None => d
  end.

(** The class [\s] (and the characters [trim] removes), Latin-1 range. *)
Definition isSpace (c : ascii) : bool :=
  let n := N_of_ascii c in
  ((9 <=? n) && (n <=? 13) || (n =? 32) || (n =? 160))%N.

Definition isChar (k : N) (c : ascii) : bool := (N_of_ascii c =? k)%N.

Fixpoint hasChar (k : N) (s : string) : bool :=
  match s with
  | EmptyString => false
  | String c s' => isChar k c || hasChar k s'
  end.

(** [s.replace(/<[^>]*>/g, ' ')]: a match starts at a '<' that has a '>'
    somewhere after it and runs to the first such '>'.  [inTag] is set
    while the scan is inside a match. *)
Fixpoint replaceTags (inTag : bool) (s : string) : string :=
  match s with
  | EmptyString => EmptyString
  | String c s' =>
      if inTag then
        if isChar 62 c then replaceTags false s' else replaceTags true s'
      else if isChar 60 c && hasChar 62 s' then String " " (replaceTags true s')
      else String c (replaceTags false s')
  end.

(** [s.replace(/\s+/g, ' ')]; [inRun] is set after a white-space
    character. *)
Fixpoint collapseSpaces (inRun : bool) (s : string) : string :=
  match s with
  | EmptyString => EmptyString
  | String c s' =>
      if isSpace c then
        if inRun then collapseSpaces true s' else String " " (collapseSpaces true s')
      else String c (collapseSpaces false s')
  end.

Fixpoint trimStart (s : string) : string :=
  match s with
  | EmptyString => EmptyString
  | String c s' => if isSpace c then trimStart s' else s
  end.

Fixpoint trimEnd (s : string) : string :=
  match s with
  | EmptyString => EmptyString
  | String c s' =>
      let r := trimEnd s' in
      if isSpace c && negb (truthy r) then EmptyString else String c r
  end.

Definition trim (s : string) : string := trimEnd (trimStart s).

(** [s.slice(0, n)] for a literal [n >= 0]. *)
Definition sliceTo (n : nat) (s : string) : string := substring 0 n s.

(** [arr.join(sep)]. *)
Definition join (sep : string) (l : list string) : string := String.concat sep l.

(** An integer-valued number rendered in a template literal. *)
Definition numberToString (z : Z) : string :=
  NilZero.string_of_int (Z.to_int z).

(** [arr.slice(0, k)] for an integer [k]: a negative [k] counts from the
    end. *)
Definition sliceZ {A} (k : Z) (l : list A) : list A :=
  if (k <? 0)%Z then take (Z.to_nat (Z.of_nat (length l) + k)) l
  else take (Z.to_nat k) l.

(** [arr.slice(0, Math.floor(x))] for a double [x]: the bound goes through
    ToIntegerOrInfinity, so NaN counts as 0 and +Infinity as the length. *)
Definition sliceFloor {A} (x : spec_float) (l : list A) : list A :=
  match Binary64.floor x with
  | Some k => sliceZ k l
  | None => match x with S754_infinity false => l | _ => [] end
  end.

(** [arr.slice(i, j)] for [0 <= i <= j]. *)
Definition sliceRange {A} (i j : nat) (l : list A) : list A :=
  take (j - i) (drop i l).

(** [arr.sort(cmp)]: the sort is stable and puts [a] before [b] when
    [cmp a b < 0].  For a consistent comparator the stable order is unique,
    and insertion from the right computes it. *)
Fixpoint sortInsert {A} (cmp : A → A → Z) (x : A) (l : list A) : list A :=
  match l with
  | [] => [x]
  | y :: l' => if (cmp x y <=? 0)%Z then x :: l else y :: sortInsert cmp x l'
  end.

Definition sort {A} (cmp : A → A → Z) (l : list A) : list A :=
  foldr (sortInsert cmp) [] l.

(** The one-character string holding a double quote. *)
Definition quote : string := String (ascii_of_N 34) EmptyString.

(** [btoa]: base64 of the code units. *)
Definition b64alphabet : string :=
  "ABCDEFGHIJKLMNOPQRSTUVWXYZabcdefghijklmnopqrstuvwxyz0123456789+/".

Definition b64digit (n : N) : ascii :=
  match String.get (N.to_nat n) b64alphabet with
  | Some c => c
  | None => "="%char
  end.

Fixpoint btoa (s : string) : string :=
  match s with
  | EmptyString => EmptyString
  | String a EmptyString =>
      let x := N_of_ascii a in
      String (b64digit (x / 4))
        (String (b64digit (x mod 4 * 16)) "==")
  | String a (String b EmptyString) =>
      let x := N_of_ascii a in
      let y := N_of_ascii b in
      String (b64digit (x / 4))
        (String (b64digit (x mod 4 * 16 + y / 16))
           (String (b64digit (y mod 16 * 4)) "="))
  | String a (String b (String c rest)) =>
      let x := N_of_ascii a in
      let y := N_of_ascii b in
      let z := N_of_ascii c in
      String (b64digit (x / 4))
        (String (b64digit (x mod 4 * 16 + y / 16))
           (String (b64digit (y mod 16 * 4 + z / 64))
              (String (b64digit (z mod 64)) (btoa rest))))
  end.

End Js.

(* ================================================================== *)
(** * Data model                                                       *)
(* ================================================================== *)

(** [company_tier: 1 | 2 | 3]. *)
Inductive Tier := Tier1 | Tier2 | Tier3.

Global Instance Tier_eq_dec : EqDecision Tier.
Proof. solve_decision. Defined.

Definition tierNumber (t : Tier) : Z :=
  match t with Tier1 => 1 | Tier2 => 2 | Tier3 => 3 end.

(** [interface JobListing]. *)
Record JobListing := mkJob {
  id : string;
  title : string;
  company : string;
  company_tier : Tier;
  location : string;
  salary_range : option string;
  url : string;
  posted_delta : string;
  posted_at : string;
  snippet : string;
  requirements : list string;
  source : string;
  match_score : Z
}.

Definition set_match_score (j : JobListing) (s : Z) : JobListing :=
  mkJob (id j) (title j) (company j) (company_tier j) (location j)
        (salary_range j) (url j) (posted_delta j) (posted_at j) (snippet j)
        (requirements j) (source j) s.

(** Outcome of a promise, as [Promise.allSettled] reports it. *)
Inductive Settled (A : Type) :=
  | Fulfilled (value : A)
  | Rejected.
Arguments Fulfilled {A} value.
Arguments Rejected {A}.

(** Completion of a block of statements: a value, or a thrown exception
    (a rejected [await] included). *)
Inductive Completion (A : Type) :=
  | Normal (value : A)
  | Throw.
Arguments Normal {A} value.
Arguments Throw {A}.

Global Instance Completion_ret : MRet Completion := λ A a, Normal a.

Global Instance Completion_bind : MBind Completion := λ A B k c,
  match c with
  | Normal a => k a
  | Throw => Throw
  end.

(** [async function f() { try { body } catch (error) { handler } }]: the
    promise it returns, once settled. *)
Definition tryCatch {A} (body : Completion A) (handler : Completion A) : Settled A :=
  match body with
  | Normal a => Fulfilled a
  | Throw => match handler with
             | Normal a => Fulfilled a
             | Throw => Rejected
             end
  end.

(** [arr.map(f)] where the callback may throw: the first exception leaves
    the map. *)
Fixpoint mapM {A B} (f : A → Completion B) (l : list A) : Completion (list B) :=
  match l with
  | [] => Normal []
  | x :: l' => y ← f x; ys ← mapM f l'; mret (y :: ys)
  end.

(** What one outbound [fetch] and the reading of its body come to.  A JSON
    array entry that is [null] is [None]: reading a property of it throws. *)
Inductive JsonJobs (Raw : Type) :=
  | BodyUnreadable                    (* [response.json()] rejects, or the value has no properties *)
  | BodyNoList                        (* the list property is missing or falsy *)
  | BodyNotArray                      (* the list property is truthy and has no [slice]/[map] *)
  | BodyList (entries : list (option Raw)).
Arguments BodyUnreadable {Raw}.
Arguments BodyNoList {Raw}.
Arguments BodyNotArray {Raw}.
Arguments BodyList {Raw} entries.

Inductive FetchOutcome (Raw : Type) :=
  | FetchFails                        (* network error, or abort after the 5 s timeout *)
  | FetchResponse (status : Z) (body : JsonJobs Raw).
Arguments FetchFails {Raw}.
Arguments FetchResponse {Raw} status body.

(** [response.ok]. *)
Definition responseOk (status : Z) : bool := (200 <=? status) && (status <=? 299).

(** A Greenhouse posting, [{id, title, location:{name}, absolute_url,
    updated_at, content}]; [gh_id] is the id as a template literal renders
    it. *)
Record GreenhouseJob := mkGreenhouseJob {
  gh_id : string;
  gh_title : option string;
  gh_location_name : option string;
  gh_absolute_url : option string;
  gh_updated_at : option string;
  gh_content : option string
}.

(** A Workable posting, [{shortcode, title, location:{city,country},
    published, description}]. *)
Record WorkableJob := mkWorkableJob {
  wk_shortcode : string;
  wk_title : option string;
  wk_location_city : option string;
  wk_location_country : option string;
  wk_published : option string;
  wk_description : option string
}.

(** Source descriptors. *)
Record GreenhouseCompany := mkGreenhouseCompany {
  ghc_name : string; ghc_token : string; ghc_tier : Tier
}.

Record WorkableCompany := mkWorkableCompany {
  wkc_name : string; wkc_subdomain : string; wkc_tier : Tier
}.

(* ================================================================== *)
(** * supabase/functions/scrape-jobs/index.ts                          *)
(* ================================================================== *)

Module Scraper.

Local Open Scope string_scope.

Definition gh (name token : string) (t : Tier) := mkGreenhouseCompany name token t.
Definition wk (name sub : string) (t : Tier) := mkWorkableCompany name sub t.

Definition TIER_1_greenhouse : list GreenhouseCompany :=
  [ gh "Stripe" "stripe" Tier1; gh "Airbnb" "airbnb" Tier1;
    gh "Coinbase" "coinbase" Tier1; gh "Cloudflare" "cloudflare" Tier1;
    gh "Databricks" "databricks" Tier1; gh "Snowflake" "snowflakecomputing" Tier1;
    gh "OpenAI" "openai" Tier1; gh "Anthropic" "anthropic" Tier1;
    gh "Scale AI" "scaleai" Tier1; gh "Palantir" "palantir" Tier1;
    gh "Figma" "figma" Tier1; gh "Notion" "notion" Tier1;
    gh "Discord" "discord" Tier1; gh "Spotify" "spotify" Tier1;
    gh "Uber" "uber" Tier1; gh "DoorDash" "doordash" Tier1;
    gh "Instacart" "instacart" Tier1; gh "Lyft" "lyft" Tier1;
    gh "Pinterest" "pinterest" Tier1; gh "Snap" "snapchat" Tier1;
    gh "Dropbox" "dropbox" Tier1; gh "Reddit" "reddit" Tier1;
    gh "Robinhood" "robinhood" Tier1 ].

Definition TIER_2_greenhouse : list GreenhouseCompany :=
  [ gh "Accenture" "accenture" Tier2; gh "Oracle" "oracle" Tier2;
    gh "Cisco" "cisco" Tier2; gh "Adobe" "adobecareers" Tier2;
    gh "MongoDB" "mongodb" Tier2; gh "GitLab" "gitlab" Tier2;
    gh "HashiCorp" "hashicorp" Tier2; gh "Elastic" "elastic" Tier2;
    gh "Datadog" "datadog" Tier2; gh "Confluent" "confluent" Tier2;
    gh "Twilio" "twilio" Tier2; gh "Plaid" "plaid" Tier2;
    gh "Rippling" "rippling" Tier2; gh "Brex" "brex" Tier2;
    gh "Ramp" "ramp" Tier2; gh "Mercury" "mercury" Tier2;
    gh "Deel" "deel" Tier2; gh "Retool" "retool" Tier2;
    gh "Vercel" "vercel" Tier2; gh "Linear" "linear" Tier2 ].

Definition TIER_3_workable : list WorkableCompany :=
  [ wk "Revolut" "revolut" Tier3; wk "Wise" "transferwise" Tier3;
    wk "N26" "n26" Tier3; wk "Monzo" "monzo" Tier3; wk "Klarna" "klarna" Tier3 ].

Definition JOB_KEYWORDS : list string :=
  [ "AI"; "ML"; "Machine Learning"; "Deep Learning"; "NLP"; "LLM"; "GenAI";
    "Cloud Engineer"; "Cloud Architect"; "AWS"; "Azure"; "GCP";
    "Python"; "DevOps"; "SRE"; "Site Reliability";
    "Data Scientist"; "Data Engineer"; "Data Analytics";
    "Software Engineer"; "Backend"; "Full Stack"; "Frontend";
    "Kubernetes"; "Docker"; "Terraform"; "Infrastructure" ].

Definition TARGET_LOCATIONS : list string :=
  [ "Dublin"; "Ireland"; "Remote"; "EMEA"; "Europe";
    "United Kingdom"; "London"; "Germany"; "Netherlands";
    "United States"; "New York"; "San Francisco"; "Seattle" ].

Definition techKeywords : list string :=
  [ "Python"; "Java"; "TypeScript"; "JavaScript"; "React"; "Node.js"; "AWS"; "GCP"; "Azure";
    "Kubernetes"; "Docker"; "PostgreSQL"; "MongoDB"; "Redis"; "Kafka"; "GraphQL";
    "Machine Learning"; "Deep Learning"; "TensorFlow"; "PyTorch"; "Go"; "Rust"; "C++";
    "SQL"; "NoSQL"; "REST API"; "Microservices"; "CI/CD"; "Terraform"; "Linux";
    "Spark"; "Airflow"; "dbt"; "Snowflake"; "BigQuery"; "Databricks"; "MLOps" ].

Definition stripHtml (html : string) : string :=
  Js.trim (Js.collapseSpaces false (Js.replaceTags false html)).

Definition extractRequirements (content : string) : list string :=
  let found :=
    filter (λ kw, Js.includes (Js.toLowerCase content) (Js.toLowerCase kw) = true)
           techKeywords in
  take 8 found.

Section WithDate.

(** [new Date(s).getTime()]: milliseconds, or [None] for NaN. *)
Variable dateMs : string → option Z.
(** [new Date(ms).toISOString()]. *)
Variable toISOString : Z → string.

Definition getTimeDelta (now : Z) (dateStr : string) : string :=
  match dateMs dateStr with
  | None => "NaNw ago"
  | Some posted =>
      let diffMs := (now - posted)%Z in
      let minutes := (diffMs / 60000)%Z in
      if (minutes <? 60)%Z then Js.numberToString minutes ++ " min ago" else
      let hours := (minutes / 60)%Z in
      if (hours <? 24)%Z then Js.numberToString hours ++ "h ago" else
      let days := (hours / 24)%Z in
      if (days <? 7)%Z then Js.numberToString days ++ "d ago" else
      Js.numberToString (days / 7) ++ "w ago"
  end.

Definition tierBonus (t : Tier) : Z :=
  if decide (t = Tier1) then 20 else if decide (t = Tier2) then 10 else 5.

Definition jobText (job : JobListing) : string :=
  Js.toLowerCase (title job ++ " " ++ snippet job ++ " " ++ Js.join " " (requirements job)).

Definition keywordHit (text kw : string) : bool :=
  Js.truthy kw && Js.includes text (Js.toLowerCase kw).

(** The [for (const kw of keywords)] loop, from [keywordScore = 0]. *)
Definition keywordScore (text : string) (keywords : list string) : Z :=
  fold_left (λ acc kw, if keywordHit text kw then (acc + 5)%Z else acc) keywords 0%Z.

Definition priorityLocs : list string := ["dublin"; "ireland"; "remote"].

Definition locationBonus (jobLoc : string) (locations : list string) : Z :=
  if existsb (λ loc, Js.includes jobLoc loc) priorityLocs then 15
  else if existsb (λ loc, Js.includes jobLoc (Js.toLowerCase loc)) locations then 5
  else 0.

(** [postedMs] is NaN for an unreadable date, and both comparisons are
    then false. *)
Definition recencyBonus (now : Z) (postedAt : string) : Z :=
  match dateMs postedAt with
  | None => 0
  | Some posted =>
      let postedMs := (now - posted)%Z in
      if (postedMs <? 3600000)%Z then 10
      else if (postedMs <? 86400000)%Z then 5
      else 0
  end.

Definition calculateScore (now : Z) (job : JobListing)
    (keywords locations : list string) : Z :=
  let score := 50%Z in
  let jobLoc := Js.toLowerCase (location job) in
  let score := (score + tierBonus (company_tier job))%Z in
  let score := (score + Z.min 30 (keywordScore (jobText job) keywords))%Z in
  let score := (score + locationBonus jobLoc locations)%Z in
  let score := (score + recencyBonus now (posted_at job))%Z in
  Z.min 100 score.

(* ---------------- tier mixing ---------------- *)

Definition byScoreDesc (a b : JobListing) : Z := (match_score b - match_score a)%Z.

(** [new Date(b.posted_at).getTime() - new Date(a.posted_at).getTime()];
    a NaN result counts as 0 in [sort]. *)
Definition byPostedDesc (a b : JobListing) : Z :=
  match dateMs (posted_at b), dateMs (posted_at a) with
  | Some tb, Some ta => (tb - ta)%Z
  | _, _ => 0%Z
  end.

(** [totalJobs * c] for the literals 0.7, 0.2, 0.1. *)
Definition quotaProduct (totalJobs : nat) (c : spec_float) : spec_float :=
  Binary64.mul (Binary64.of_Z (Z.of_nat totalJobs)) c.

Definition tierJobs (t : Tier) (jobs : list JobListing) : list JobListing :=
  Js.sort byScoreDesc (filter (λ j, company_tier j = t) jobs).

(** The array [mixed] after the three [push] calls. *)
Definition mixedByTier (jobs : list JobListing) : list JobListing :=
  let totalJobs := length jobs in
  Js.sliceFloor (quotaProduct totalJobs Binary64.lit_0_7) (tierJobs Tier1 jobs)
  ++ Js.sliceFloor (quotaProduct totalJobs Binary64.lit_0_2) (tierJobs Tier2 jobs)
  ++ Js.sliceFloor (quotaProduct totalJobs Binary64.lit_0_1) (tierJobs Tier3 jobs).

Definition isRecent (recentCutoff : Z) (j : JobListing) : Prop :=
  match dateMs (posted_at j) with
  | Some t => (recentCutoff < t)%Z
  | None => False
  end.

Definition isOlder (recentCutoff : Z) (j : JobListing) : Prop :=
  match dateMs (posted_at j) with
  | Some t => (t ≤ recentCutoff)%Z
  | None => False
  end.

Global Instance isRecent_dec c j : Decision (isRecent c j).
Proof. unfold isRecent. destruct (dateMs (posted_at j)); apply _. Defined.

Global Instance isOlder_dec c j : Decision (isOlder c j).
Proof. unfold isOlder. destruct (dateMs (posted_at j)); apply _. Defined.

Definition mixJobsByTier (now : Z) (jobs : list JobListing) : list JobListing :=
  let mixed := mixedByTier jobs in
  let recentCutoff := (now - 24 * 60 * 60 * 1000)%Z in
  let recentJobs := filter (isRecent recentCutoff) mixed in
  let olderJobs := filter (isOlder recentCutoff) mixed in
  Js.sort byPostedDesc recentJobs ++ olderJobs.

(* ---------------- source clients ---------------- *)

(** The callback of [.map] in [fetchGreenhouseJobs]. *)
Definition greenhouseListing (company : GreenhouseCompany) (now : Z)
    (job : GreenhouseJob) : JobListing :=
  let locationName := Js.orElse (gh_location_name job) "Remote" in
  let directUrl :=
    Js.orElse (gh_absolute_url job)
      ("https://boards.greenhouse.io/" ++ ghc_token company ++ "/jobs/" ++ gh_id job) in
  let postedAt := Js.orElse (gh_updated_at job) (toISOString now) in
  {| id := "gh_" ++ ghc_token company ++ "_" ++ gh_id job;
     title := Js.orElse (gh_title job) "Unknown Position";
     company := ghc_name company;
     company_tier := ghc_tier company;
     location := locationName;
     salary_range := None;
     url := directUrl;
     posted_at := postedAt;
     posted_delta := getTimeDelta now postedAt;
     snippet := (let content := Js.orElse (gh_content job) EmptyString in
                 if Js.truthy content then Js.sliceTo 300 (stripHtml content) else EmptyString);
     requirements := extractRequirements (Js.orElse (gh_content job) EmptyString);
     source := "greenhouse";
     match_score := 0 |}.

(** The callback of [.map] in [fetchWorkableJobs]. *)
Definition workableListing (company : WorkableCompany) (now : Z)
    (job : WorkableJob) : JobListing :=
  let directUrl :=
    "https://apply.workable.com/" ++ wkc_subdomain company ++ "/j/" ++ wk_shortcode job ++ "/" in
  let postedAt := Js.orElse (wk_published job) (toISOString now) in
  {| id := "wk_" ++ wkc_subdomain company ++ "_" ++ wk_shortcode job;
     title := Js.orElse (wk_title job) "Unknown Position";
     company := wkc_name company;
     company_tier := wkc_tier company;
     location := Js.orElse (wk_location_city job)
                   (Js.orElse (wk_location_country job) "Remote");
     salary_range := None;
     url := directUrl;
     posted_at := postedAt;
     posted_delta := getTimeDelta now postedAt;
     snippet := Js.orElse (wk_description job) EmptyString;
     requirements := extractRequirements (Js.orElse (wk_description job) EmptyString);
     source := "workable";
     match_score := 0 |}.

(** The [try] block shared by the two clients: [cap] is 50 or 30. *)
Definition fetchBody {Raw} (cap : nat) (listing : Raw → JobListing)
    (outcome : FetchOutcome Raw) : Completion (list JobListing) :=
  match outcome with
  | FetchFails => Throw
  | FetchResponse status body =>
      if negb (responseOk status) then mret []
      else
        match body with
        | BodyUnreadable => Throw
        | BodyNoList => mret []
        | BodyNotArray => Throw
        | BodyList entries =>
            mapM (λ entry, match entry with
                           | Some job => mret (listing job)
                           | None => Throw
                           end)
                 (take cap entries)
        end
  end.

Definition fetchGreenhouseJobs (company : GreenhouseCompany) (now : Z)
    (outcome : FetchOutcome GreenhouseJob) : Settled (list JobListing) :=
  tryCatch (fetchBody 50 (greenhouseListing company now) outcome) (mret []).

Definition fetchWorkableJobs (company : WorkableCompany) (now : Z)
    (outcome : FetchOutcome WorkableJob) : Settled (list JobListing) :=
  tryCatch (fetchBody 30 (workableListing company now) outcome) (mret []).

(* ---------------- aggregation ---------------- *)

Definition batchSize : nat := 10.

(** [for (const result of results) if (result.status === 'fulfilled')
    allJobs.push(...result.value)]. *)
Definition pushFulfilled (results : list (Settled (list JobListing)))
    (allJobs : list JobListing) : list JobListing :=
  fold_left (λ acc result, match result with
                           | Fulfilled value => (acc ++ value)%list
                           | Rejected => acc
                           end)
            results allJobs.

(** [for (let i = 0; i < allPromises.length; i += batchSize)], run for at
    most [fuel] iterations. *)
Fixpoint collectFrom (fuel : nat) (allPromises : list (Settled (list JobListing)))
    (i : nat) (allJobs : list JobListing) : list JobListing :=
  match fuel with
  | O => allJobs
  | S fuel' =>
      if decide (i < length allPromises)%nat then
        let batch := Js.sliceRange i (i + batchSize) allPromises in
        collectFrom fuel' allPromises (i + batchSize) (pushFulfilled batch allJobs)
      else allJobs
  end.

Definition collectAll (allPromises : list (Settled (list JobListing))) : list JobListing :=
  collectFrom (length allPromises) allPromises 0 [].

(** [allJobs.filter(job => { if (seenUrls.has(job.url)) return false;
    seenUrls.add(job.url); return true; })]. *)
Fixpoint dedupFrom (seenUrls : gset string) (allJobs : list JobListing) : list JobListing :=
  match allJobs with
  | [] => []
  | job :: rest =>
      if decide (url job ∈ seenUrls) then dedupFrom seenUrls rest
      else job :: dedupFrom ({[url job]} ∪ seenUrls) rest
  end.

Definition uniqueJobs (allJobs : list JobListing) : list JobListing :=
  dedupFrom ∅ allJobs.

(** The promises of one pass, in submission order; the two functions
    give what each company's endpoint answers. *)
Definition allPromises (now : Z)
    (greenhouseApi : GreenhouseCompany → FetchOutcome GreenhouseJob)
    (workableApi : WorkableCompany → FetchOutcome WorkableJob)
    : list (Settled (list JobListing)) :=
  map (λ c, fetchGreenhouseJobs c now (greenhouseApi c)) TIER_1_greenhouse
  ++ map (λ c, fetchGreenhouseJobs c now (greenhouseApi c)) TIER_2_greenhouse
  ++ map (λ c, fetchWorkableJobs c now (workableApi c)) TIER_3_workable.

(** One aggregation pass up to [mixedJobs]: collect, deduplicate, score,
    mix.  The clock is read once for the pass. *)
Definition scoreAll (now : Z) (keywords locations : list string)
    (jobs : list JobListing) : list JobListing :=
  map (λ job, set_match_score job (calculateScore now job keywords locations)) jobs.

Definition mixedJobs (now : Z) (keywords locations : list string)
    (promises : list (Settled (list JobListing))) : list JobListing :=
  mixJobsByTier now (scoreAll now keywords locations (uniqueJobs (collectAll promises))).

End WithDate.

End Scraper.

(* ================================================================== *)
(** * supabase/functions/live-jobs-feed/index.ts                       *)
(* ================================================================== *)

(** The file holds the handler twice, with and without the authorization
    step; the token logic is the same in both.  This is the handler with
    the authorization step. *)

Module Feed.

Local Open Scope string_scope.

Definition TIER_1_COMPANIES : gset string :=
  list_to_set
    [ "google"; "meta"; "amazon"; "microsoft"; "apple"; "nvidia"; "netflix"; "salesforce";
      "stripe"; "airbnb"; "coinbase"; "cloudflare"; "databricks"; "snowflake"; "openai";
      "anthropic"; "scale ai"; "palantir"; "figma"; "notion"; "discord"; "spotify"; "uber";
      "doordash"; "instacart"; "lyft"; "pinterest"; "snap"; "dropbox"; "reddit"; "robinhood" ].

Definition TIER_2_COMPANIES : gset string :=
  list_to_set
    [ "accenture"; "oracle"; "cisco"; "adobe"; "mongodb"; "gitlab"; "hashicorp"; "elastic";
      "datadog"; "confluent"; "twilio"; "plaid"; "rippling"; "brex"; "ramp"; "mercury";
      "deel"; "retool"; "vercel"; "linear"; "ibm"; "sap"; "vmware"; "servicenow"; "workday";
      "deloitte"; "pwc"; "kpmg"; "ey"; "mckinsey"; "cognizant"; "infosys"; "wipro"; "tcs";
      "capgemini"; "hcltech" ].

Definition getCompanyTier (companyName : string) : Tier :=
  let normalized := Js.trim (Js.toLowerCase companyName) in
  if decide (normalized ∈ TIER_1_COMPANIES) then Tier1
  else if decide (normalized ∈ TIER_2_COMPANIES) then Tier2
  else Tier3.

(** A row of the [jobs] table, as far as the handler reads it. *)
Record Row := mkRow {
  row_company : string;
  row_created_at : option string;
  row_posted_date : option string
}.

(** A row after formatting: the row with [company_tier] and
    [posted_delta] added. *)
Record FormattedJob := mkFormatted {
  fj_row : Row;
  fj_company_tier : Tier;
  fj_posted_delta : string
}.

Record Stats := mkStats { tier1 : nat; tier2 : nat; tier3 : nat }.

Record JobFeedResponse := mkFeed {
  jobs : list FormattedJob;
  total : Z;
  hasMore : bool;
  lastUpdated : string;
  stats : Stats
}.

Inductive Body :=
  | ErrorBody (message : string)
  | FeedBody (payload : JobFeedResponse).

(** [new Response(body, { status, headers })]; a [null] body is [None]. *)
Record Response := mkResponse {
  status : Z;
  body : option Body;
  header_ETag : option string;
  header_LastModified : option string
}.

(** What the store answers to the query. *)
Inductive QueryResult :=
  | QueryError (message : string)
  | QueryData (jobs : option (list Row)) (count : option Z).

Record Request := mkRequest {
  isOptions : bool;                      (* [req.method === 'OPTIONS'] *)
  authorized : bool;                     (* [getUser] gave a user and no error *)
  limit : Z;
  offset : Z;
  since : option string;
  tierFilter : option (option Z);        (* [parseInt(tier)], [Some None] for NaN *)
  ifNoneMatch : option string;
  ifModifiedSince : option string
}.

Section WithDate.

Variable dateMs : string → option Z.
Variable toISOString : Z → string.

Definition getTimeDelta (now : Z) (dateStr : option string) : string :=
  match dateStr with
  | None => "Recently"
  | Some s =>
      if negb (Js.truthy s) then "Recently" else
      match dateMs s with
      | None => "NaNw ago"
      | Some posted =>
          let diffMs := (now - posted)%Z in
          let minutes := (diffMs / 60000)%Z in
          if (minutes <? 60)%Z then Js.numberToString minutes ++ " min ago" else
          let hours := (minutes / 60)%Z in
          if (hours <? 24)%Z then Js.numberToString hours ++ "h ago" else
          let days := (hours / 24)%Z in
          if (days <? 7)%Z then Js.numberToString days ++ "d ago" else
          Js.numberToString (days / 7) ++ "w ago"
      end
  end.

(** [x || y] on possibly missing strings. *)
Definition orOpt (x y : option string) : option string :=
  match x with
  | Some s => if Js.truthy s then x else y
  | None => y
  end.

(** [count || 0]. *)
Definition countOrZero (count : option Z) : Z := default 0%Z count.

Definition lastModifiedOf (now : Z) (rows : option (list Row)) : string :=
  let latestJob := rows ≫= head in
  Js.orElse (latestJob ≫= row_created_at) (toISOString now).

(** The quoted [etag]. *)
Definition etagOf (lastModified : string) (count : option Z) : string :=
  let etagContent := Js.btoa (lastModified ++ "-" ++ Js.numberToString (countOrZero count)) in
  Js.quote ++ etagContent ++ Js.quote.

Definition notModified (etag lastModified : string) : Response :=
  mkResponse 304 None (Some etag) (Some lastModified).

Definition formatJob (now : Z) (job : Row) : FormattedJob :=
  mkFormatted job (getCompanyTier (row_company job))
    (getTimeDelta now (orOpt (row_created_at job) (row_posted_date job))).

(** [new Date(j.created_at).getTime()]; a null [created_at] reads as the
    epoch. *)
Definition createdMs (j : FormattedJob) : option Z :=
  match row_created_at (fj_row j) with
  | Some s => dateMs s
  | None => Some 0%Z
  end.

(** Tier first, newest first within a tier. *)
Definition byTierThenNewest (a b : FormattedJob) : Z :=
  if decide (fj_company_tier a = fj_company_tier b) then
    match createdMs b, createdMs a with
    | Some tb, Some ta => (tb - ta)%Z
    | _, _ => 0%Z
    end
  else (tierNumber (fj_company_tier a) - tierNumber (fj_company_tier b))%Z.

Definition countTier (t : Tier) (l : list FormattedJob) : nat :=
  length (filter (λ j, fj_company_tier j = t) l).

(** [lastModifiedDate <= modifiedSinceDate]; false when either is
    invalid. *)
Definition notAfter (lastModified modifiedSince : string) : bool :=
  match dateMs lastModified, dateMs modifiedSince with
  | Some a, Some b => (a <=? b)%Z
  | _, _ => false
  end.

(** The request handler. *)
Definition handle (now : Z) (req : Request) (store : QueryResult) : Response :=
  if isOptions req then mkResponse 200 None None None
  else if negb (authorized req) then mkResponse 401 (Some (ErrorBody "Unauthorized")) None None
  else
    match store with
    | QueryError _ => mkResponse 500 (Some (ErrorBody "Database error")) None None
    | QueryData rows count =>
        let lastModified := lastModifiedOf now rows in
        let etag := etagOf lastModified count in
        if decide (ifNoneMatch req = Some etag) then notModified etag lastModified
        else if match ifModifiedSince req, since req with
                | Some ims, None => Js.truthy ims && notAfter lastModified ims
                | Some ims, Some s => Js.truthy ims && negb (Js.truthy s) && notAfter lastModified ims
                | None, _ => false
                end
        then notModified etag lastModified
        else
          let formatted := map (formatJob now) (default [] rows) in
          let formatted :=
            match tierFilter req with
            | None => formatted
            | Some tier =>
                filter (λ j, Some (tierNumber (fj_company_tier j)) = tier) formatted
            end in
          let stats := mkStats (countTier Tier1 formatted) (countTier Tier2 formatted)
                               (countTier Tier3 formatted) in
          let sorted := Js.sort byTierThenNewest formatted in
          mkResponse 200
            (Some (FeedBody (mkFeed sorted (countOrZero count)
                               (offset req + limit req <? countOrZero count)%Z
                               lastModified stats)))
            (Some etag) (Some lastModified)
    end.

End WithDate.

End Feed.

(* ================================================================== *)
(** * More JavaScript primitives                                       *)
(* ================================================================== *)

Module JsExtra.

Local Open Scope string_scope.

(** [s.split(sep)] for a one-character separator. *)
Fixpoint split (sep : ascii) (s : string) : list string :=
  match s with
  | EmptyString => [EmptyString]
  | String c s' =>
      if Ascii.eqb c sep then EmptyString :: split sep s'
      else match split sep s' with
           | piece :: pieces => String c piece :: pieces
           | [] => [String c EmptyString]
           end
  end.

(** A relative index of [slice], resolved against the length: a negative
    index counts from the end, and the result is clamped to [0, len]. *)
Definition sliceIndex (len : nat) (k : Z) : nat :=
  if (k <? 0)%Z then Z.to_nat (Z.max (Z.of_nat len + k) 0)
  else Nat.min (Z.to_nat k) len.

(** [arr.slice(start, end)] for integers. *)
Definition slice {A} (start stop : Z) (l : list A) : list A :=
  let from := sliceIndex (length l) start in
  let to := sliceIndex (length l) stop in
  take (to - from) (drop from l).

(** [parseInt(x) || d], from what [parseInt] returned ([None] is NaN). *)
Definition orNumber (parsed : option Z) (d : Z) : Z :=
  match parsed with
  | Some n => if (n =? 0)%Z then d else n
  | None => d
  end.

End JsExtra.

(* ================================================================== *)
(** * scrape-jobs/index.ts: request, page, response, persistence       *)
(* ================================================================== *)

Module Serve.

Local Open Scope string_scope.

(** [raw?.split(',').map(k => k.trim()).filter(Boolean) || defaults] for a
    body field that is a string or missing. *)
Definition parseList (raw : option string) (defaults : list string) : list string :=
  match raw with
  | None => defaults
  | Some s => filter (λ k, Js.truthy k = true) (map Js.trim (JsExtra.split "," s))
  end.

(** [Math.min(parseInt(rawData.limit) || 200, 500)]. *)
Definition limitOf (parsed : option Z) : Z := Z.min (JsExtra.orNumber parsed 200) 500.

(** [parseInt(rawData.offset) || 0]. *)
Definition offsetOf (parsed : option Z) : Z := JsExtra.orNumber parsed 0.

(** [mixedJobs.slice(offset, offset + limit)]. *)
Definition paginate (offset limit : Z) (mixedJobs : list JobListing) : list JobListing :=
  JsExtra.slice offset (offset + limit) mixedJobs.

Record Stats := mkStats { tier1 : nat; tier2 : nat; tier3 : nat }.

(** The body of the 200 response, without the two clock readings. *)
Record ScrapeResponse := mkResponse {
  jobs : list JobListing;
  stats : Stats;
  total : nat;
  hasMore : bool;
  nextOffset : Z
}.

Definition countTier (t : Tier) (l : list JobListing) : nat :=
  length (filter (λ j, company_tier j = t) l).

Definition respond (offset limit : Z) (mixedJobs : list JobListing) : ScrapeResponse :=
  let paginatedJobs := paginate offset limit mixedJobs in
  {| jobs := paginatedJobs;
     stats := mkStats (countTier Tier1 paginatedJobs) (countTier Tier2 paginatedJobs)
                      (countTier Tier3 paginatedJobs);
     total := length mixedJobs;
     hasMore := (offset + limit <? Z.of_nat (length mixedJobs))%Z;
     nextOffset := (offset + limit)%Z |}.

(** A row handed to [supabase.from('jobs').insert]. *)
Record JobRow := mkRow {
  row_user_id : string;
  row_title : string;
  row_company : string;
  row_location : string;
  row_salary : option string;
  row_description : string;
  row_requirements : list string;
  row_platform : string;
  row_url : string;
  row_posted_date : string;
  row_match_score : Z;
  row_status : string
}.

(** [Math.round] of an integer score is the score. *)
Definition toRow (user_id : string) (job : JobListing) : JobRow :=
  {| row_user_id := user_id;
     row_title := title job;
     row_company := company job;
     row_location := location job;
     row_salary := salary_range job;
     row_description := snippet job;
     row_requirements := requirements job;
     row_platform := source job;
     row_url := url job;
     row_posted_date := posted_at job;
     row_match_score := match_score job;
     row_status := "pending" |}.

(** The argument of the [insert] call, or [None] when no insert is made.
    [existingJobs] is what the select of the user's urls returned ([None]
    for null). *)
Definition jobsToInsert (user_id : option string) (paginatedJobs : list JobListing)
    (existingJobs : option (list string)) : option (list JobRow) :=
  match user_id with
  | Some uid =>
      if Js.truthy uid && bool_decide (0 < length paginatedJobs)%nat then
        let existingUrls : gset string := list_to_set (default [] existingJobs) in
        let newJobs := filter (λ j, url j ∉ existingUrls) paginatedJobs in
        if bool_decide (0 < length newJobs)%nat
        then Some (map (toRow uid) (take 100 newJobs))
        else None
      else None
  | None => None
  end.

Section WithDate.

Variable dateMs : string → option Z.

(** One request, from the parsed body and the settled promises to the
    response body. *)
Definition scrape (now : Z) (rawKeywords rawLocations : option string)
    (rawLimit rawOffset : option Z)
    (promises : list (Settled (list JobListing))) : ScrapeResponse :=
  let keywords := parseList rawKeywords Scraper.JOB_KEYWORDS in
  let locations := parseList rawLocations Scraper.TARGET_LOCATIONS in
  let limit := limitOf rawLimit in
  let offset := offsetOf rawOffset in
  respond offset limit (Scraper.mixedJobs dateMs now keywords locations promises).

End WithDate.

End Serve.

(* ================================================================== *)
(** * src/hooks/useLiveJobs.ts and src/components/LiveJobsFeed.tsx     *)
(* ================================================================== *)

Module LiveJobs.

Local Open Scope string_scope.

(** [interface Job], as far as the hook and the feed component read it. *)
Record Job := mkJob {
  id : string;
  title : string;
  company : string;
  company_tier : Tier;
  location : option string;
  created_at : option string
}.

Record TierStats := mkStats { tier1 : Z; tier2 : Z; tier3 : Z; total : Z }.

(** The payload of a [postgres_changes] notification. *)
Inductive Change :=
  | INSERT (newJob : Job)
  | UPDATE (updatedJob : Job)
  | DELETE (deletedId : string)
  | OtherEvent.

Record State := mkState { jobs : list Job; stats : TierStats }.

Section WithDate.

Variable dateMs : string → option Z.

(** [new Date(j.created_at || 0).getTime()]. *)
Definition createdMs (j : Job) : option Z :=
  match created_at j with
  | Some s => if Js.truthy s then dateMs s else Some 0%Z
  | None => Some 0%Z
  end.

Definition byTierThenCreated (a b : Job) : Z :=
  if decide (company_tier a = company_tier b) then
    match createdMs b, createdMs a with
    | Some tb, Some ta => (tb - ta)%Z
    | _, _ => 0%Z
    end
  else (tierNumber (company_tier a) - tierNumber (company_tier b))%Z.

(** [prev => [newJob, ...prev].sort(...).slice(0, 100)]. *)
Definition insertJob (newJob : Job) (prev : list Job) : list Job :=
  take 100 (Js.sort byTierThenCreated (newJob :: prev)).

(** [prev => ({ ...prev, [`tier${t}`]: prev[`tier${t}`] + 1, total: prev.total + 1 })]. *)
Definition countInsert (t : Tier) (prev : TierStats) : TierStats :=
  match t with
  | Tier1 => mkStats (tier1 prev + 1) (tier2 prev) (tier3 prev) (total prev + 1)
  | Tier2 => mkStats (tier1 prev) (tier2 prev + 1) (tier3 prev) (total prev + 1)
  | Tier3 => mkStats (tier1 prev) (tier2 prev) (tier3 prev + 1) (total prev + 1)
  end.

(** [prev.map(j => j.id === updatedJob.id ? updatedJob : j)]. *)
Definition updateJob (updatedJob : Job) (prev : list Job) : list Job :=
  map (λ j, if decide (id j = id updatedJob) then updatedJob else j) prev.

(** [prev.filter(j => j.id !== deletedId)]. *)
Definition deleteJob (deletedId : string) (prev : list Job) : list Job :=
  filter (λ j, id j ≠ deletedId) prev.

(** The realtime callback, as a step on the two pieces of state. *)
Definition onChange (change : Change) (s : State) : State :=
  match change with
  | INSERT newJob =>
      mkState (insertJob newJob (jobs s)) (countInsert (company_tier newJob) (stats s))
  | UPDATE updatedJob => mkState (updateJob updatedJob (jobs s)) (stats s)
  | DELETE deletedId => mkState (deleteJob deletedId (jobs s)) (stats s)
  | OtherEvent => s
  end.

End WithDate.

(** [filteredJobs] of the feed component. *)
Definition matchesSearch (searchQuery : string) (job : Job) : bool :=
  negb (Js.truthy searchQuery)
  || Js.includes (Js.toLowerCase (title job)) (Js.toLowerCase searchQuery)
  || Js.includes (Js.toLowerCase (company job)) (Js.toLowerCase searchQuery)
  || match location job with
     | Some loc => Js.includes (Js.toLowerCase loc) (Js.toLowerCase searchQuery)
     | None => false
     end.

Definition matchesTier (tierFilter : option Tier) (job : Job) : bool :=
  match tierFilter with
  | None => true
  | Some t => bool_decide (company_tier job = t)
  end.

Definition filteredJobs (searchQuery : string) (tierFilter : option Tier)
    (jobs : list Job) : list Job :=
  filter (λ job, matchesSearch searchQuery job && matchesTier tierFilter job = true) jobs.

(** [formatLastUpdate]; [lastUpdate] is the time of the last refresh in
    milliseconds, [None] before the first one. *)
Definition formatLastUpdate (now : Z) (lastUpdate : option Z) : string :=
  match lastUpdate with
  | None => "Never"
  | Some t =>
      let diff := ((now - t) / 1000)%Z in
      if (diff <? 60)%Z then Js.numberToString diff ++ "s ago"
      else Js.numberToString (diff / 60) ++ "m ago"
  end.

End LiveJobs.

(* ================================================================== *)
(** * Vocabulary of the statements                                     *)
(* ================================================================== *)

(** Descending order of a key. *)
Definition descending {A} (key : A → Z) : A → A → Prop := λ a b, key b ≤ key a.

(** [Math.floor(totalJobs * 0.7)] and its two siblings, as the program
    computes them. *)
Definition tier1Count (totalJobs : nat) : option Z :=
  Binary64.floor (Scraper.quotaProduct totalJobs Binary64.lit_0_7).

Definition tier2Count (totalJobs : nat) : option Z :=
  Binary64.floor (Scraper.quotaProduct totalJobs Binary64.lit_0_2).

Definition tier3Count (totalJobs : nat) : option Z :=
  Binary64.floor (Scraper.quotaProduct totalJobs Binary64.lit_0_1).

(** The quotas over the rationals: floor(0.7 N), floor(0.2 N), floor(0.1 N). *)
Definition exactQuota (percent : Z) (totalJobs : nat) : Z :=
  percent * Z.of_nat totalJobs / 100.

(** One aggregation pass yields at most 43 * 50 + 5 * 30 listings. *)
Definition maxListings : nat :=
  (length Scraper.TIER_1_greenhouse + length Scraper.TIER_2_greenhouse) * 50
  + length Scraper.TIER_3_workable * 30.

Definition countIs (c : option Z) (k : Z) : bool :=
  match c with Some k' => k' =? k | None => false end.

(** How many listings of a tier the input holds. *)
Definition available (t : Tier) (jobs : list JobListing) : nat :=
  length (filter (λ j, company_tier j = t) jobs).

(** Tier 1 before tier 2 before tier 3. *)
Definition tierOrder (a b : JobListing) : Prop :=
  tierNumber (company_tier a) ≤ tierNumber (company_tier b).

(** The posting time of a listing whose date is readable. *)
Definition postedKey (dateMs : string → option Z) (j : JobListing) : Z :=
  default 0 (dateMs (posted_at j)).

Definition hasDate (dateMs : string → option Z) (j : JobListing) : Prop :=
  is_Some (dateMs (posted_at j)).

(** What one keyword adds to [keywordScore]. *)
Definition hitValue (text kw : string) : Z :=
  if Scraper.keywordHit text kw then 5 else 0.

(** The same listing at another tier. *)
Definition withTier (job : JobListing) (t : Tier) : JobListing :=
  mkJob (id job) (title job) (company job) t (location job) (salary_range job)
        (url job) (posted_delta job) (posted_at job) (snippet job)
        (requirements job) (source job) (match_score job).

Definition minuteMs : Z := 60000.

Definition hourMs : Z := 60 * minuteMs.

Definition dayMs : Z := 24 * hourMs.

Definition weekMs : Z := 7 * dayMs.

(** What counts as a failed request: no response, or a status outside
    200..299. *)
Definition requestFailed {Raw} (outcome : FetchOutcome Raw) : Prop :=
  match outcome with
  | FetchFails => True
  | FetchResponse status _ => responseOk status = false
  end.

(** A payload the client cannot map: unreadable, not an array, or with a
    [null] among the first [cap] entries. *)
Definition payloadMalformed {Raw} (cap : nat) (outcome : FetchOutcome Raw) : Prop :=
  match outcome with
  | FetchResponse _ BodyUnreadable | FetchResponse _ BodyNotArray => True
  | FetchResponse _ (BodyList entries) => None ∈ take cap entries
  | _ => False
  end.

Definition fulfilledValue {A} (r : Settled A) : option A :=
  match r with
  | Fulfilled value => Some value
  | Rejected => None
  end.

(** The results of the sources that resolved, in submission order. *)
Definition successfulResults (promises : list (Settled (list JobListing)))
    : list JobListing :=
  concat (omap fulfilledValue promises).

(** A '<' with a '>' somewhere after it: what the tag pattern matches. *)
Fixpoint hasTag (s : string) : bool :=
  match s with
  | EmptyString => false
  | String c s' => (Js.isChar 60 c && Js.hasChar 62 s') || hasTag s'
  end.

(** Every white-space character is a blank, and no two blanks are adjacent;
    [afterBlank] tells whether a blank precedes. *)
Fixpoint blanksSingle (afterBlank : bool) (s : string) : bool :=
  match s with
  | EmptyString => true
  | String c s' =>
      if Js.isSpace c then Js.isChar 32 c && negb afterBlank && blanksSingle true s'
      else blanksSingle false s'
  end.

(* ---------------- concrete inputs ---------------- *)

(** A tier-1 listing of the Stripe board; distinct [n] give distinct urls. *)
Definition stripeListing (n : nat) : JobListing :=
  let native := Js.numberToString (Z.of_nat n) in
  {| id := "gh_stripe_" +:+ native;
     title := "Software Engineer";
     company := "Stripe";
     company_tier := Tier1;
     location := "Dublin";
     salary_range := None;
     url := "https://boards.greenhouse.io/stripe/jobs/" +:+ native;
     posted_delta := "0 min ago";
     posted_at := "2026-01-01T00:00:00.000Z";
     snippet := "Build payments infrastructure";
     requirements := ["Java"; "Go"];
     source := "greenhouse";
     match_score := 85 |}.

(** Ninety tier-1 listings with distinct urls. *)
Definition ninetyTier1 : list JobListing := stripeListing <$> seq 0 90.

Definition berlinListing : JobListing :=
  {| id := "gh_stripe_1"; title := "Python Engineer"; company := "Stripe";
     company_tier := Tier2; location := "Berlin"; salary_range := None;
     url := "https://boards.greenhouse.io/stripe/jobs/1";
     posted_delta := "3d ago"; posted_at := "2026-01-01T00:00:00.000Z";
     snippet := "Services on AWS"; requirements := ["Python"; "AWS"];
     source := "greenhouse"; match_score := 0 |}.

Definition revolut : WorkableCompany := Scraper.wk "Revolut" "revolut" Tier3.

Definition stripe : GreenhouseCompany := Scraper.gh "Stripe" "stripe" Tier1.

Definition markedUpPosting : string := "<p>Build   <b>APIs</b></p>".

Definition revolutPosting : WorkableJob :=
  mkWorkableJob "A1B2C3" (Some "Backend Engineer") (Some "London") (Some "United Kingdom")
                (Some "2026-01-01T00:00:00.000Z") (Some markedUpPosting).

Definition stripePosting : GreenhouseJob :=
  mkGreenhouseJob "4242" (Some "Backend Engineer") (Some "Dublin")
                  (Some "https://boards.greenhouse.io/stripe/jobs/4242")
                  (Some "2026-01-01T00:00:00.000Z") (Some markedUpPosting).

(** A board that answers with [n] postings, all last updated on
    2026-01-01. *)
Definition boardPosting (n : nat) : option GreenhouseJob :=
  Some (mkGreenhouseJob (Js.numberToString (Z.of_nat n)) (Some "Software Engineer")
          (Some "Dublin") None (Some "2026-01-01T00:00:00.000Z")
          (Some "<p>Python and AWS</p>")).

Definition boardWith (n : nat) : FetchOutcome GreenhouseJob :=
  FetchResponse 200 (BodyList (boardPosting <$> seq 0 n)).

(** Stripe answers with 50 postings, Airbnb with 40, every other source is
    down. *)
Definition twoBoardsUp (c : GreenhouseCompany) : FetchOutcome GreenhouseJob :=
  if String.eqb (ghc_token c) "stripe" then boardWith 50
  else if String.eqb (ghc_token c) "airbnb" then boardWith 40
  else FetchFails.

Definition workableDown (c : WorkableCompany) : FetchOutcome WorkableJob := FetchFails.

Definition newYear2026 : string → option Z := λ _, Some 1767225600000.

Definition isoNewYear2026 : Z → string := λ _, "2026-01-01T00:00:00.000Z"%string.

Definition feedRows : option (list Feed.Row) :=
  Some [Feed.mkRow "Stripe" (Some "2026-01-01T00:00:00.000Z"%string) None;
        Feed.mkRow "Acme" (Some "2025-12-30T08:00:00.000Z"%string) None].

Definition feedRequest (token : option string) : Feed.Request :=
  Feed.mkRequest false true 50 0 None None token None.

(** [new Date(ms).toISOString()] for an instant of the years 1970 to 9999:
    the civil date of the day number, then the time of day, each field
    padded with zeros. *)
Fixpoint zeros (k : nat) : string :=
  match k with
  | O => EmptyString
  | S k' => String "0" (zeros k')
  end.

Definition pad (width : nat) (n : Z) : string :=
  let digits := Js.numberToString n in
  (zeros (width - String.length digits) ++ digits)%string.

Definition civilFromDays (days : Z) : Z * Z * Z :=
  let z := days + 719468 in
  let era := z / 146097 in
  let doe := z - era * 146097 in
  let yoe := (doe - doe / 1460 + doe / 36524 - doe / 146096) / 365 in
  let doy := doe - (365 * yoe + yoe / 4 - yoe / 100) in
  let mp := (5 * doy + 2) / 153 in
  let d := doy - (153 * mp + 2) / 5 + 1 in
  let m := if mp <? 10 then mp + 3 else mp - 9 in
  let y := yoe + era * 400 + (if m <=? 2 then 1 else 0) in
  (y, m, d).

Definition isoString (ms : Z) : string :=
  let '(y, m, d) := civilFromDays (ms / dayMs) in
  let t := ms mod dayMs in
  (pad 4 y ++ "-" ++ pad 2 m ++ "-" ++ pad 2 d ++ "T"
   ++ pad 2 (t / hourMs) ++ ":" ++ pad 2 (t / minuteMs mod 60) ++ ":"
   ++ pad 2 (t / 1000 mod 60) ++ "." ++ pad 3 (t mod 1000) ++ "Z")%string.


(* ---------------- further vocabulary ---------------- *)

Global Instance JobListing_eq_dec : EqDecision JobListing.
Proof. solve_decision. Defined.

Global Instance hasDate_dec dateMs j : Decision (hasDate dateMs j).
Proof. unfold hasDate. apply _. Defined.

(** The smallest pass from which a listing of the tier can come back. *)
Definition smallestPass (t : Tier) : nat :=
  match t with Tier1 => 2 | Tier2 => 5 | Tier3 => 10 end.

(** Two listings of tier 1, the first scoring higher. *)
Definition strongListing : JobListing := stripeListing 1.

Definition weakListing : JobListing :=
  mkJob (id (stripeListing 2)) (title (stripeListing 2)) (company (stripeListing 2))
        Tier1 (location (stripeListing 2)) None (url (stripeListing 2))
        (posted_delta (stripeListing 2)) (posted_at (stripeListing 2))
        (snippet (stripeListing 2)) (requirements (stripeListing 2))
        (source (stripeListing 2)) 60.

(** How many entries of a keyword list match a text. *)
Definition hitCount (text : string) (keywords : list string) : nat :=
  length (filter (λ kw, Scraper.keywordHit text kw = true) keywords).

(** Whether a string starts, or ends, with white space. *)
Definition firstIsSpace (s : string) : bool :=
  match s with
  | String c _ => Js.isSpace c
  | EmptyString => false
  end.

Fixpoint lastIsSpace (s : string) : bool :=
  match s with
  | EmptyString => false
  | String c EmptyString => Js.isSpace c
  | String _ s' => lastIsSpace s'
  end.

(** The fields every listing of a source has, whatever the posting held. *)
Definition fromSource (name : string) (t : Tier) (board : string) (j : JobListing) : Prop :=
  company j = name ∧ company_tier j = t ∧ source j = board ∧
  match_score j = 0 ∧ salary_range j = None ∧
  Js.truthy (title j) = true ∧ Js.truthy (location j) = true ∧
  Js.truthy (url j) = true ∧ (length (requirements j) ≤ 8)%nat.

(** A snippet in normal form: capped, without tags, single blanks only. *)
Definition snippetNormal (j : JobListing) : Prop :=
  (String.length (snippet j) ≤ 300)%nat ∧
  hasTag (snippet j) = false ∧ blanksSingle false (snippet j) = true.

(** The listings a settled client delivered; a rejection delivers none. *)
Definition delivered (r : Settled (list JobListing)) : list JobListing :=
  default [] (fulfilledValue r).

(** A page request as the handler resolves it: [None] stands for a field
    that is missing or does not parse. *)
Definition plainLimit (parsed : option Z) : Prop :=
  match parsed with Some n => 0 ≤ n | None => True end.

Definition tenListings : list JobListing := stripeListing <$> seq 0 10.

(** The order of the feed: tier 1 first, within a tier newest first. *)
Definition feedOrder (dateMs : string → option Z) (a b : Feed.FormattedJob) : Prop :=
  tierNumber (Feed.fj_company_tier a) < tierNumber (Feed.fj_company_tier b)
  ∨ (Feed.fj_company_tier a = Feed.fj_company_tier b
     ∧ default 0 (Feed.createdMs dateMs b) ≤ default 0 (Feed.createdMs dateMs a)).

(** What the [tier] parameter lets through. *)
Definition passesTier (tierFilter : option (option Z)) (j : Feed.FormattedJob) : Prop :=
  match tierFilter with
  | None => True
  | Some tier => Some (tierNumber (Feed.fj_company_tier j)) = tier
  end.

Global Instance passesTier_dec tierFilter j : Decision (passesTier tierFilter j).
Proof. unfold passesTier. destruct tierFilter; apply _. Defined.

(** The token of the data a query returned. *)
Definition currentToken (toISOString : Z → string) (now : Z)
    (rows : option (list Feed.Row)) (count : option Z) : string :=
  Feed.etagOf (Feed.lastModifiedOf toISOString now rows) count.

(** A request that also sends [If-Modified-Since]. *)
Definition feedRequestSince (ims : string) (token : option string) : Feed.Request :=
  Feed.mkRequest false true 50 0 None None token (Some ims).

(** A formatted job whose [created_at] is readable. *)
Definition datedJob (dateMs : string → option Z) (j : Feed.FormattedJob) : Prop :=
  is_Some (Feed.createdMs dateMs j).

Global Instance LiveJob_eq_dec : EqDecision LiveJobs.Job.
Proof. solve_decision. Defined.

(** The order of the live list: tier 1 first, within a tier newest first. *)
Definition liveOrder (dateMs : string → option Z) (a b : LiveJobs.Job) : Prop :=
  tierNumber (LiveJobs.company_tier a) < tierNumber (LiveJobs.company_tier b)
  ∨ (LiveJobs.company_tier a = LiveJobs.company_tier b
     ∧ default 0 (LiveJobs.createdMs dateMs b) ≤ default 0 (LiveJobs.createdMs dateMs a)).

Definition datedLive (dateMs : string → option Z) (j : LiveJobs.Job) : Prop :=
  is_Some (LiveJobs.createdMs dateMs j).

(** The callback run over a sequence of notifications. *)
Definition runChanges (dateMs : string → option Z) (changes : list LiveJobs.Change)
    (s : LiveJobs.State) : LiveJobs.State :=
  fold_left (λ s change, LiveJobs.onChange dateMs change s) changes s.

Definition isInsert (change : LiveJobs.Change) : bool :=
  match change with LiveJobs.INSERT _ => true | _ => false end.

Definition insertCount (changes : list LiveJobs.Change) : Z :=
  Z.of_nat (length (filter (λ c, isInsert c = true) changes)).

Definition countsAddUp (stats : LiveJobs.TierStats) : Prop :=
  LiveJobs.total stats
  = LiveJobs.tier1 stats + LiveJobs.tier2 stats + LiveJobs.tier3 stats.

Definition liveJob (n : string) (t : Tier) : LiveJobs.Job :=
  LiveJobs.mkJob n "Engineer" "Stripe" t (Some "Dublin"%string)
                 (Some "2026-01-01T00:00:00.000Z"%string).

Definition liveState : LiveJobs.State :=
  LiveJobs.mkState [liveJob "a" Tier1; liveJob "b" Tier3] (LiveJobs.mkStats 1 0 1 2).

(** No hyphen in the string. *)
Fixpoint dashFree (s : string) : bool :=
  match s with
  | EmptyString => true
  | String c rest => negb (Ascii.eqb c "-") && dashFree rest
  end.

(** Two base64 digits of different value differ, and none is the padding
    character. *)
Definition b64distinct (i j : nat) : bool :=
  implb (Ascii.eqb (Js.b64digit (N.of_nat i)) (Js.b64digit (N.of_nat j))) (Nat.eqb i j)
  && negb (Ascii.eqb (Js.b64digit (N.of_nat i)) "=").

(* ================================================================== *)
(** * The literals of the quota computation                            *)
(* ================================================================== *)

Lemma lit_0_7_nearest : Binary64.lit_0_7 = Binary64.div (Binary64.of_Z 7) (Binary64.of_Z 10).
Proof. vm_compute. reflexivity. Qed.

Lemma lit_0_2_nearest : Binary64.lit_0_2 = Binary64.div (Binary64.of_Z 2) (Binary64.of_Z 10).
Proof. vm_compute. reflexivity. Qed.

Lemma lit_0_1_nearest : Binary64.lit_0_1 = Binary64.div (Binary64.of_Z 1) (Binary64.of_Z 10).
Proof. vm_compute. reflexivity. Qed.

(* ================================================================== *)
(** * Properties of the primitives                                     *)
(* ================================================================== *)

Section SortFacts.

Context {A : Type}.
Variable cmp : A → A → Z.

Lemma sortInsert_perm x l : Js.sortInsert cmp x l ≡ₚ x :: l.
Proof.
  induction l as [|y l IH]; simpl; [done|].
  destruct (cmp x y <=? 0); [done|].
  rewrite IH. apply perm_swap.
Qed.

Lemma sort_perm l : Js.sort cmp l ≡ₚ l.
Proof.
  induction l as [|x l IH]; simpl; [done|].
  unfold Js.sort in *. simpl. rewrite sortInsert_perm. by rewrite IH.
Qed.

Lemma sort_length l : length (Js.sort cmp l) = length l.
Proof. by rewrite sort_perm. Qed.

Lemma sort_elem_of x l : x ∈ Js.sort cmp l ↔ x ∈ l.
Proof. by rewrite sort_perm. Qed.

Lemma sort_Forall (P : A → Prop) l : Forall P l → Forall P (Js.sort cmp l).
Proof. by rewrite sort_perm. Qed.

(** When the comparator is a difference of keys, as in [b.k - a.k], on the
    elements that satisfy [P], the result is in descending key order. *)
Variable key : A → Z.
Variable P : A → Prop.
Hypothesis cmp_key : ∀ a b, P a → P b → cmp a b = key b - key a.

Lemma sortInsert_sorted x l :
  P x → Forall P l →
  StronglySorted (descending key) l → StronglySorted (descending key) (Js.sortInsert cmp x l).
Proof.
  intros Hx HP Hs. induction Hs as [|y l Hs IH Hy]; simpl.
  - repeat constructor.
  - apply Forall_cons in HP as [Py HP].
    destruct (Z.leb_spec (cmp x y) 0) as [Hle|Hgt].
    + rewrite cmp_key in Hle by done.
      constructor; [by constructor|].
      constructor; [unfold descending; lia|].
      eapply Forall_impl; [exact Hy|]. unfold descending. intros z ?. lia.
    + rewrite cmp_key in Hgt by done.
      constructor; [by apply IH|].
      rewrite sortInsert_perm. constructor; [unfold descending; lia|done].
Qed.

Lemma sort_sorted l : Forall P l → StronglySorted (descending key) (Js.sort cmp l).
Proof.
  induction 1 as [|x l Hx HP IH]; [constructor|].
  unfold Js.sort in *. simpl. apply sortInsert_sorted; [done| |done].
  by apply sort_Forall.
Qed.

(** Stability: listings of equal key keep their relative order. *)
Lemma sortInsert_stable k x l :
  P x → Forall P l → StronglySorted (descending key) l →
  filter (λ a, key a = k) (Js.sortInsert cmp x l) = filter (λ a, key a = k) (x :: l).
Proof.
  intros Hx HP Hs. induction Hs as [|y l Hs IH Hy]; simpl; [done|].
  apply Forall_cons in HP as [Py HP].
  destruct (Z.leb_spec (cmp x y) 0) as [Hle|Hgt]; [done|].
  rewrite cmp_key in Hgt by done.
  rewrite (filter_cons _ y), IH by done.
  rewrite !filter_cons.
  destruct (decide (key y = k)), (decide (key x = k)); try done. lia.
Qed.

Lemma sort_stable k l :
  Forall P l →
  filter (λ a, key a = k) (Js.sort cmp l) = filter (λ a, key a = k) l.
Proof.
  induction 1 as [|x l Hx HP IH]; [done|].
  unfold Js.sort in *. simpl.
  rewrite sortInsert_stable; [|done|by apply sort_Forall|by apply sort_sorted].
  rewrite !filter_cons. by rewrite IH.
Qed.

End SortFacts.

(* ================================================================== *)
(** * Deduplication by url                                             *)
(* ================================================================== *)

Section Dedup.

Import Scraper.

Lemma dedupFrom_elem_of seen l j :
  j ∈ dedupFrom seen l → j ∈ l ∧ url j ∉ seen.
Proof.
  revert seen. induction l as [|x l IH]; intros seen; simpl; [by intros ?%elem_of_nil|].
  destruct (decide (url x ∈ seen)) as [Hin|Hnin].
  - intros [? ?]%IH. split; [by right|done].
  - intros [->|[? ?]%IH]%elem_of_cons; [split; [by left|done]|].
    split; [by right|set_solver].
Qed.

Lemma dedupFrom_urls seen l u :
  u ∈ url <$> dedupFrom seen l ↔ u ∈ url <$> l ∧ u ∉ seen.
Proof.
  revert seen. induction l as [|x l IH]; intros seen; simpl; [set_solver|].
  destruct (decide (url x ∈ seen)) as [Hin|Hnin].
  - rewrite IH. set_solver.
  - rewrite fmap_cons, !elem_of_cons, IH.
    destruct (decide (u = url x)); set_solver.
Qed.

Lemma dedupFrom_NoDup seen l : NoDup (url <$> dedupFrom seen l).
Proof.
  revert seen. induction l as [|x l IH]; intros seen; simpl; [constructor|].
  destruct (decide (url x ∈ seen)); [apply IH|].
  rewrite fmap_cons. constructor; [|apply IH].
  rewrite dedupFrom_urls. set_solver.
Qed.

Lemma dedupFrom_sublist seen l : sublist (dedupFrom seen l) l.
Proof.
  revert seen. induction l as [|x l IH]; intros seen; simpl; [done|].
  destruct (decide (url x ∈ seen)); [by apply sublist_cons|by apply sublist_skip].
Qed.

(** A survivor is the first listing of the input with its url. *)
Lemma dedupFrom_first seen l j :
  j ∈ dedupFrom seen l →
  ∃ i, list_find (λ x, url x = url j) l = Some (i, j).
Proof.
  revert seen. induction l as [|x l IH]; intros seen; simpl; [by intros ?%elem_of_nil|].
  destruct (decide (url x ∈ seen)) as [Hin|Hnin]; intros Hj.
  - pose proof (dedupFrom_elem_of _ _ _ Hj) as [_ Hjs].
    destruct (IH _ Hj) as [i Hi].
    exists (S i). cbn [list_find]. rewrite decide_False by congruence.
    by rewrite Hi.
  - apply elem_of_cons in Hj as [->|Hj].
    + exists 0%nat. cbn [list_find]. by rewrite decide_True.
    + pose proof (dedupFrom_elem_of _ _ _ Hj) as [_ Hjs].
      destruct (IH _ Hj) as [i Hi].
      exists (S i). cbn [list_find]. rewrite decide_False by set_solver.
      by rewrite Hi.
Qed.

(** A listing submitted last is kept exactly when its url is new. *)
Lemma dedupFrom_snoc seen l j :
  dedupFrom seen (l ++ [j]) =
  dedupFrom seen l ++
    (if decide (url j ∈ seen ∨ url j ∈ url <$> l) then [] else [j]).
Proof.
  revert seen. induction l as [|x l IH]; intros seen; simpl.
  - destruct (decide (url j ∈ seen)).
    + by rewrite decide_True by tauto.
    + by rewrite decide_False by (rewrite elem_of_nil; tauto).
  - destruct (decide (url x ∈ seen)).
    + rewrite IH. f_equal. apply decide_ext. rewrite elem_of_cons.
      split; [tauto|]. intros [?|[->|?]]; tauto.
    + rewrite IH. simpl. do 2 f_equal. apply decide_ext.
      rewrite elem_of_cons. set_solver.
Qed.

(** The survivors, read from left to right, sit at strictly increasing
    positions of the input, each at the first position of its url. *)
Lemma dedupFrom_positions seen l :
  ∃ positions : list nat,
    StronglySorted lt positions ∧
    Forall2 (λ i j, list_find (λ x, url x = url j) l = Some (i, j) ∧ url j ∉ seen)
            positions (dedupFrom seen l).
Proof.
  revert seen. induction l as [|x l IH]; intros seen; simpl.
  - exists []. split; constructor.
  - destruct (decide (url x ∈ seen)) as [Hin|Hnin].
    + destruct (IH seen) as (positions & Hsorted & Hfound).
      exists (S <$> positions). split.
      * apply (StronglySorted_fmap S lt lt); [|done]. intros a b. unfold lt. lia.
      * apply Forall2_fmap_l. eapply Forall2_impl; [exact Hfound|].
        intros i j [Hi Hj]. split; [|done]. cbn [list_find].
        rewrite decide_False by congruence. by rewrite Hi.
    + destruct (IH ({[url x]} ∪ seen)) as (positions & Hsorted & Hfound).
      exists (0%nat :: (S <$> positions)). split.
      * constructor.
        -- apply (StronglySorted_fmap S lt lt); [|done]. intros a b. unfold lt. lia.
        -- apply Forall_fmap, Forall_forall. intros i _. simpl. unfold lt. lia.
      * constructor.
        -- split; [|done]. cbn [list_find]. by rewrite decide_True.
        -- apply Forall2_fmap_l. eapply Forall2_impl; [exact Hfound|].
           intros i j [Hi Hj]. split; [|set_solver]. cbn [list_find].
           rewrite decide_False by set_solver. by rewrite Hi.
Qed.

End Dedup.

(** C2.  The deduplicated list has pairwise distinct urls, covers exactly
    the urls of the input, every survivor is the first listing of the input
    with its url, the survivors form a sublist of the input, and they stand
    in the order in which their urls were first seen: read from left to
    right, the first positions of their urls in the input strictly
    increase. *)
Theorem uniqueJobs_first_per_url (allJobs : list JobListing) :
  NoDup (url <$> Scraper.uniqueJobs allJobs) ∧
  (∀ u, u ∈ url <$> Scraper.uniqueJobs allJobs ↔ u ∈ url <$> allJobs) ∧
  (∀ j, j ∈ Scraper.uniqueJobs allJobs →
        ∃ i, list_find (λ x, url x = url j) allJobs = Some (i, j)) ∧
  sublist (Scraper.uniqueJobs allJobs) allJobs ∧
  ∃ firstSeen : list nat,
    StronglySorted lt firstSeen ∧
    Forall2 (λ i j, list_find (λ x, url x = url j) allJobs = Some (i, j))
            firstSeen (Scraper.uniqueJobs allJobs).
Proof.
  unfold Scraper.uniqueJobs. split_and!.
  - apply dedupFrom_NoDup.
  - intros u. rewrite dedupFrom_urls. set_solver.
  - intros j. apply dedupFrom_first.
  - apply dedupFrom_sublist.
  - destruct (dedupFrom_positions ∅ allJobs) as (positions & Hsorted & Hfound).
    exists positions. split; [done|].
    eapply Forall2_impl; [exact Hfound|]. by intros i j [Hi _].
Qed.

Lemma uniqueJobs_first_per_url_witness :
  let again := withTier (stripeListing 1) Tier2 in
  let allJobs := [stripeListing 1; stripeListing 2; again; stripeListing 2] in
  Scraper.uniqueJobs allJobs = [stripeListing 1; stripeListing 2] ∧
  ∃ i, list_find (λ x, url x = url (stripeListing 2)) allJobs = Some (i, stripeListing 2).
Proof.
  intros again allJobs. split; [reflexivity|].
  apply (proj1 (proj2 (proj2 (uniqueJobs_first_per_url allJobs)))).
  vm_compute. apply list_elem_of_In. right. left. reflexivity.
Defined.

(** Submission order, one listing at a time: the listing submitted last
    is appended exactly when no earlier listing has its url. *)
Lemma uniqueJobs_snoc (allJobs : list JobListing) (j : JobListing) :
  Scraper.uniqueJobs (allJobs ++ [j]) =
  Scraper.uniqueJobs allJobs ++ (if decide (url j ∈ url <$> allJobs) then [] else [j]).
Proof.
  unfold Scraper.uniqueJobs. rewrite dedupFrom_snoc. f_equal.
  apply decide_ext. set_solver.
Qed.

(* ================================================================== *)
(** * Quotas of the tier mix                                           *)
(* ================================================================== *)

Lemma forallb_below (p : nat → bool) (bound : nat) :
  forallb p (seq 0 bound) = true → ∀ n, (n < bound)%nat → p n = true.
Proof.
  intros H n Hn. rewrite forallb_forall in H. apply H, in_seq. lia.
Qed.

Lemma countIs_true c k : countIs c k = true → c = Some k.
Proof. destruct c; simpl; [intros ->%Z.eqb_eq|]; done. Qed.

(** Up to the size one pass can reach, the 20% and 10% quotas are the exact
    floors. *)
Lemma tier2Count_exact n :
  (n ≤ maxListings)%nat → tier2Count n = Some (exactQuota 20 n).
Proof.
  intros Hn. apply countIs_true.
  apply (forallb_below
           (λ n, countIs (tier2Count n) (exactQuota 20 n)) (S maxListings));
    [vm_compute; reflexivity | lia].
Qed.

Lemma tier3Count_exact n :
  (n ≤ maxListings)%nat → tier3Count n = Some (exactQuota 10 n).
Proof.
  intros Hn. apply countIs_true.
  apply (forallb_below
           (λ n, countIs (tier3Count n) (exactQuota 10 n)) (S maxListings));
    [vm_compute; reflexivity | lia].
Qed.

(** The 70% quota is the exact floor below 90 listings ... *)
Lemma tier1Count_exact_below_90 n :
  (n < 90)%nat → tier1Count n = Some (exactQuota 70 n).
Proof.
  intros Hn. apply countIs_true.
  apply (forallb_below
           (λ n, countIs (tier1Count n) (exactQuota 70 n)) 90);
    [vm_compute; reflexivity | done].
Qed.

(** ... and the product 90 * 0.7 rounds to the double just below 63. *)
Lemma tier1Count_90 : tier1Count 90 = Some 62 ∧ exactQuota 70 90 = 63.
Proof. vm_compute. done. Qed.

(** The product itself: 8866461766385663 * 2^-47, the double next below
    63 = 8866461766385664 * 2^-47.  The exact product of 90 and the literal
    is 567453553048682460 * 2^-53 = 8866461766385663.4375 * 2^-47, nearer
    to the former. *)
Lemma product_90_below_63 :
  Scraper.quotaProduct 90 Binary64.lit_0_7 = S754_finite false 8866461766385663 (-47) ∧
  90 * 6305039478318694 = 567453553048682460 ∧
  8866461766385663 * 2 ^ 6 < 567453553048682460 < 8866461766385664 * 2 ^ 6 ∧
  567453553048682460 - 8866461766385663 * 2 ^ 6
    < 8866461766385664 * 2 ^ 6 - 567453553048682460 ∧
  63 * 2 ^ 47 = 8866461766385664.
Proof. vm_compute. done. Qed.

(** Up to the size one pass can reach, it is the exact floor or one less. *)
Lemma tier1Count_range n :
  (n ≤ maxListings)%nat →
  ∃ k, tier1Count n = Some k ∧ exactQuota 70 n - 1 ≤ k ≤ exactQuota 70 n.
Proof.
  intros Hn.
  pose (p := λ n, match tier1Count n with
                  | Some k => (exactQuota 70 n - 1 <=? k) && (k <=? exactQuota 70 n)
                  | None => false
                  end).
  assert (p n = true) as Hk.
  { apply (forallb_below p (S maxListings)); [vm_compute; reflexivity | lia]. }
  unfold p in Hk. destruct (tier1Count n) as [k|]; [|done]. exists k. split; [done|].
  apply andb_prop in Hk as [?%Z.leb_le ?%Z.leb_le]. lia.
Qed.

(* ================================================================== *)
(** * Tier mixing                                                      *)
(* ================================================================== *)

Section Mixing.

Import Scraper.

Lemma sliceZ_take {A} k (l : list A) : ∃ n, Js.sliceZ k l = take n l.
Proof. unfold Js.sliceZ. destruct (k <? 0); eauto. Qed.

Lemma sliceFloor_take {A} x (l : list A) : ∃ n, Js.sliceFloor x l = take n l.
Proof.
  unfold Js.sliceFloor. destruct (Binary64.floor x) as [k|]; [apply sliceZ_take|].
  destruct x as [| [] | |]; try (by exists 0%nat).
  exists (length l). by rewrite take_ge.
Qed.

Lemma sliceFloor_Some {A} x k (l : list A) :
  Binary64.floor x = Some k → 0 ≤ k → Js.sliceFloor x l = take (Z.to_nat k) l.
Proof.
  intros Hx Hk. unfold Js.sliceFloor, Js.sliceZ. rewrite Hx.
  destruct (Z.ltb_spec k 0); [lia|done].
Qed.

Lemma sliceFloor_sublist {A} x (l : list A) : sublist (Js.sliceFloor x l) l.
Proof. destruct (sliceFloor_take x l) as [n ->]. apply sublist_take. Qed.

(** Each tier group: the listings of that tier, best score first, ties in
    input order. *)
Lemma tierJobs_perm t jobs :
  tierJobs t jobs ≡ₚ filter (λ j, company_tier j = t) jobs.
Proof. apply sort_perm. Qed.

Lemma tierJobs_tier t jobs : Forall (λ j, company_tier j = t) (tierJobs t jobs).
Proof.
  unfold tierJobs. apply sort_Forall, Forall_forall.
  by intros j [? _]%list_elem_of_filter.
Qed.

Lemma tierJobs_sorted t jobs :
  StronglySorted (λ a b, match_score b ≤ match_score a) (tierJobs t jobs).
Proof.
  apply (sort_sorted byScoreDesc match_score (λ _, True)); [done|].
  by apply Forall_true.
Qed.

Lemma tierJobs_length t jobs :
  length (tierJobs t jobs) = length (filter (λ j, company_tier j = t) jobs).
Proof. by rewrite tierJobs_perm. Qed.

(** Cutting a descending list after [n] elements keeps the best [n]. *)
Lemma take_top {A} (key : A → Z) n (l : list A) a b :
  StronglySorted (λ a b, key b ≤ key a) l →
  a ∈ take n l → b ∈ drop n l → key b ≤ key a.
Proof.
  intros Hs. revert n. induction Hs as [|x l Hs IH Hx]; intros n.
  - rewrite take_nil. by intros ?%elem_of_nil.
  - destruct n as [|n]; simpl; [by intros ?%elem_of_nil|].
    intros [->|Ha]%elem_of_cons Hb; [|by eapply IH].
    rewrite Forall_forall in Hx. apply Hx. eapply elem_of_sublist; [exact Hb|].
    apply sublist_drop.
Qed.

(** The mixed array is three prefixes, one per tier group, in tier order;
    the prefix lengths are the computed quotas. *)
Lemma mixedByTier_prefixes jobs :
  ∃ n1 n2 n3,
    mixedByTier jobs =
      take n1 (tierJobs Tier1 jobs) ++ take n2 (tierJobs Tier2 jobs)
      ++ take n3 (tierJobs Tier3 jobs).
Proof.
  unfold mixedByTier.
  destruct (sliceFloor_take (quotaProduct (length jobs) Binary64.lit_0_7)
              (tierJobs Tier1 jobs)) as [n1 ->].
  destruct (sliceFloor_take (quotaProduct (length jobs) Binary64.lit_0_2)
              (tierJobs Tier2 jobs)) as [n2 ->].
  destruct (sliceFloor_take (quotaProduct (length jobs) Binary64.lit_0_1)
              (tierJobs Tier3 jobs)) as [n3 ->].
  eauto.
Qed.

Lemma mixedByTier_counts jobs k1 k2 k3 :
  tier1Count (length jobs) = Some k1 → 0 ≤ k1 →
  tier2Count (length jobs) = Some k2 → 0 ≤ k2 →
  tier3Count (length jobs) = Some k3 → 0 ≤ k3 →
  mixedByTier jobs =
    take (Z.to_nat k1) (tierJobs Tier1 jobs)
    ++ take (Z.to_nat k2) (tierJobs Tier2 jobs)
    ++ take (Z.to_nat k3) (tierJobs Tier3 jobs).
Proof.
  intros H1 ? H2 ? H3 ?. unfold mixedByTier.
  by rewrite (sliceFloor_Some _ k1), (sliceFloor_Some _ k2), (sliceFloor_Some _ k3).
Qed.

Lemma exactQuota_nonneg p n : 0 ≤ p → 0 ≤ exactQuota p n.
Proof. intros. unfold exactQuota. apply Z.div_pos; lia. Qed.

(** Below 90 listings the mix takes exactly floor(0.7 N), floor(0.2 N) and
    floor(0.1 N) listings, or all a tier has. *)
Lemma mixedByTier_below_90 jobs :
  (length jobs < 90)%nat →
  mixedByTier jobs =
    take (Z.to_nat (exactQuota 70 (length jobs))) (tierJobs Tier1 jobs)
    ++ take (Z.to_nat (exactQuota 20 (length jobs))) (tierJobs Tier2 jobs)
    ++ take (Z.to_nat (exactQuota 10 (length jobs))) (tierJobs Tier3 jobs).
Proof.
  intros Hn. apply mixedByTier_counts; try (apply exactQuota_nonneg; lia).
  - by apply tier1Count_exact_below_90.
  - apply tier2Count_exact. unfold maxListings. simpl. lia.
  - apply tier3Count_exact. unfold maxListings. simpl. lia.
Qed.

Lemma tier_blocks_sorted (l1 l2 l3 : list JobListing) :
  Forall (λ j, company_tier j = Tier1) l1 →
  Forall (λ j, company_tier j = Tier2) l2 →
  Forall (λ j, company_tier j = Tier3) l3 →
  StronglySorted tierOrder (l1 ++ l2 ++ l3).
Proof.
  intros H1 H2 H3.
  assert (StronglySorted tierOrder l3) as S3.
  { clear -H3. induction H3 as [|x l Hx H3 IH]; constructor; [done|].
    eapply Forall_impl; [exact H3|]. unfold tierOrder. intros y Hy. rewrite Hx, Hy. done. }
  assert (StronglySorted tierOrder (l2 ++ l3)) as S23.
  { clear -H2 H3 S3. induction H2 as [|x l Hx H2 IH]; simpl; [done|].
    constructor; [done|]. apply Forall_app. split.
    - eapply Forall_impl; [exact H2|]. unfold tierOrder. intros y Hy. by rewrite Hx, Hy.
    - eapply Forall_impl; [exact H3|]. unfold tierOrder. intros y Hy. by rewrite Hx, Hy. }
  clear S3. induction H1 as [|x l Hx H1 IH]; simpl; [done|].
  constructor; [done|]. rewrite !Forall_app. split_and!.
  - eapply Forall_impl; [exact H1|]. unfold tierOrder. intros y Hy. by rewrite Hx, Hy.
  - eapply Forall_impl; [exact H2|]. unfold tierOrder. intros y Hy. by rewrite Hx, Hy.
  - eapply Forall_impl; [exact H3|]. unfold tierOrder. intros y Hy. by rewrite Hx, Hy.
Qed.

Lemma mixedByTier_tier_grouped jobs : StronglySorted tierOrder (mixedByTier jobs).
Proof.
  destruct (mixedByTier_prefixes jobs) as (n1 & n2 & n3 & ->).
  apply tier_blocks_sorted; apply Forall_take, tierJobs_tier.
Qed.

End Mixing.

Lemma StronglySorted_sublist {A} (R : A → A → Prop) (k l : list A) :
  sublist k l → StronglySorted R l → StronglySorted R k.
Proof.
  induction 1 as [|x k l Hkl IH|x k l Hkl IH]; intros Hs; [done| |].
  - apply StronglySorted_inv in Hs as [Hs Hx]. constructor; [by apply IH|].
    rewrite Forall_forall in Hx |- *. intros y Hy. apply Hx. by eapply elem_of_sublist.
  - apply StronglySorted_inv in Hs as [Hs _]. by apply IH.
Qed.

(** C1.  The mix is meant to take floor(0.7 N) tier-1 listings when that
    many are available.  For N = 90 listings, all of tier 1 and with distinct
    urls, floor(0.7 * 90) = 63 are available, but the program computes
    90 * 0.7 in binary64, gets 62.99999999999999, and takes 62. *)
Theorem mixedByTier_ninety_takes_62 :
  length ninetyTier1 = 90%nat ∧
  length (filter (λ j, company_tier j = Tier1) ninetyTier1) = 90%nat ∧
  exactQuota 70 90 = 63 ∧
  tier1Count 90 = Some 62 ∧
  length (filter (λ j, company_tier j = Tier1) (Scraper.mixedByTier ninetyTier1)) = 62%nat.
Proof. vm_compute. done. Qed.

(** Two listings, one of tier 1 and one of tier 3: the quotas are 1, 0 and
    0, and the tier-3 listing is dropped. *)
Example two_listings_keep_tier1 :
  let a := stripeListing 1 in
  let b := withTier (stripeListing 2) Tier3 in
  Scraper.uniqueJobs [a; a; b] = [a; b] ∧
  (tier1Count 2, tier2Count 2, tier3Count 2) = (Some 1, Some 0, Some 0) ∧
  Scraper.mixedByTier [a; b] = [a].
Proof. vm_compute. done. Qed.

Lemma ninetyTier1_urls_distinct : NoDup (url <$> ninetyTier1).
Proof. apply (bool_decide_unpack _). vm_compute. exact I. Qed.

Section TwoPhase.

Import Scraper.

Variable dateMs : string → option Z.

Lemma byPostedDesc_key a b :
  hasDate dateMs a → hasDate dateMs b → byPostedDesc dateMs a b = postedKey dateMs b - postedKey dateMs a.
Proof.
  unfold hasDate, byPostedDesc, postedKey. intros [ta ->] [tb ->]. done.
Qed.

Lemma isRecent_hasDate c j : isRecent dateMs c j → hasDate dateMs j.
Proof. unfold isRecent, hasDate. destruct (dateMs (posted_at j)); [eauto|done]. Qed.

Lemma isOlder_not_recent c j : hasDate dateMs j → isOlder dateMs c j ↔ ¬ isRecent dateMs c j.
Proof. unfold hasDate, isOlder, isRecent. intros [t ->]. lia. Qed.

(** With readable dates the re-split loses nothing. *)
Lemma recent_older_perm c (l : list JobListing) :
  Forall (hasDate dateMs) l →
  filter (isRecent dateMs c) l ++ filter (isOlder dateMs c) l ≡ₚ l.
Proof.
  intros Hl.
  assert (filter (isOlder dateMs c) l = filter (λ x, ¬ isRecent dateMs c x) l) as ->.
  { induction Hl as [|x l Hx Hl IH]; [done|].
    rewrite !filter_cons, IH. pose proof (isOlder_not_recent c x Hx).
    destruct (decide (isOlder dateMs c x)), (decide (¬ isRecent dateMs c x));
      try done; tauto. }
  apply filter_app_complement.
Qed.

Lemma mixJobsByTier_perm now jobs :
  Forall (hasDate dateMs) jobs → mixJobsByTier dateMs now jobs ≡ₚ mixedByTier jobs.
Proof.
  intros Hj. unfold mixJobsByTier. rewrite sort_perm.
  apply recent_older_perm.
  destruct (mixedByTier_prefixes jobs) as (n1 & n2 & n3 & ->).
  rewrite !Forall_app. split_and!; apply Forall_take;
    rewrite tierJobs_perm; apply Forall_forall;
    intros j [_ Hin]%list_elem_of_filter; revert j Hin; by apply Forall_forall.
Qed.

(** Recent and older in plain terms: the date is readable and lies after
    the cutoff, or at or before it. *)
Lemma isRecent_spec c j :
  isRecent dateMs c j ↔ hasDate dateMs j ∧ c < postedKey dateMs j.
Proof.
  unfold isRecent, hasDate, postedKey. destruct (dateMs (posted_at j)) as [t|]; simpl.
  - split; [eauto|tauto].
  - split; [done|]. by intros [[? ?] _].
Qed.

Lemma isOlder_spec c j :
  isOlder dateMs c j ↔ hasDate dateMs j ∧ postedKey dateMs j ≤ c.
Proof.
  unfold isOlder, hasDate, postedKey. destruct (dateMs (posted_at j)) as [t|]; simpl.
  - split; [eauto|tauto].
  - split; [done|]. by intros [[? ?] _].
Qed.

(** The re-split keeps exactly the listings with a readable date. *)
Lemma recent_older_hasDate c (l : list JobListing) :
  filter (isRecent dateMs c) l ++ filter (isOlder dateMs c) l
  ≡ₚ filter (hasDate dateMs) l.
Proof.
  induction l as [|x l IH]; [done|]. rewrite !filter_cons.
  assert ((isRecent dateMs c x → hasDate dateMs x)
          ∧ (isOlder dateMs c x → hasDate dateMs x)
          ∧ (isRecent dateMs c x → isOlder dateMs c x → False)
          ∧ (hasDate dateMs x → isRecent dateMs c x ∨ isOlder dateMs c x))
    as (Hrd & Hod & Hro & Hd).
  { unfold isRecent, isOlder, hasDate. destruct (dateMs (posted_at x)) as [t|].
    - split_and!; eauto; lia.
    - split_and!; try done; by intros [? ?]. }
  destruct (decide (isRecent dateMs c x)), (decide (isOlder dateMs c x)),
           (decide (hasDate dateMs x)); try tauto; simpl;
    [by rewrite IH | rewrite <- IH; by rewrite <- Permutation_middle].
Qed.

End TwoPhase.

(** C5.  The result of the mixer is a recent part followed by an older
    part.  The recent part holds the listings of the mixed array whose date
    is readable and lies after the cutoff, 24 hours before now, and is
    sorted newest first.  The older part is the listings of the mixed array
    whose date is readable and lies at or before the cutoff, in the order
    they have in the mixed array, which is grouped by tier.  Together they
    are the listings of the mixed array with a readable date. *)
Theorem mixJobsByTier_recent_then_older
    (dateMs : string → option Z) (now : Z) (jobs : list JobListing) :
  let mixed := Scraper.mixedByTier jobs in
  let recentCutoff := now - 24 * 60 * 60 * 1000 in
  ∃ recent older : list JobListing,
    Scraper.mixJobsByTier dateMs now jobs = recent ++ older ∧
    recent ≡ₚ filter (λ j, hasDate dateMs j ∧ recentCutoff < postedKey dateMs j) mixed ∧
    StronglySorted (λ a b, postedKey dateMs b ≤ postedKey dateMs a) recent ∧
    older = filter (λ j, hasDate dateMs j ∧ postedKey dateMs j ≤ recentCutoff) mixed ∧
    sublist older mixed ∧
    StronglySorted tierOrder older ∧
    recent ++ older ≡ₚ filter (hasDate dateMs) mixed.
Proof.
  intros mixed recentCutoff.
  exists (Js.sort (Scraper.byPostedDesc dateMs)
                  (filter (Scraper.isRecent dateMs recentCutoff) mixed)),
         (filter (Scraper.isOlder dateMs recentCutoff) mixed).
  split_and!.
  - done.
  - rewrite sort_perm.
    by rewrite (list_filter_iff _ _ mixed (isRecent_spec dateMs recentCutoff)).
  - apply (sort_sorted _ (postedKey dateMs) (hasDate dateMs)).
    + apply byPostedDesc_key.
    + apply Forall_forall. intros j [Hj _]%list_elem_of_filter.
      by eapply isRecent_hasDate.
  - apply list_filter_iff, isOlder_spec.
  - apply sublist_filter.
  - eapply StronglySorted_sublist; [apply sublist_filter|].
    apply mixedByTier_tier_grouped.
  - rewrite sort_perm. apply recent_older_hasDate.
Qed.

Section OutputLength.

Import Scraper.

Variable dateMs : string → option Z.

(** The length of the mixed array, from the quotas the program computes. *)
Lemma mixedByTier_length jobs k1 k2 k3 :
  tier1Count (length jobs) = Some k1 → 0 ≤ k1 →
  tier2Count (length jobs) = Some k2 → 0 ≤ k2 →
  tier3Count (length jobs) = Some k3 → 0 ≤ k3 →
  length (mixedByTier jobs) =
    (Z.to_nat k1 `min` available Tier1 jobs + Z.to_nat k2 `min` available Tier2 jobs
     + Z.to_nat k3 `min` available Tier3 jobs)%nat.
Proof.
  intros. rewrite (mixedByTier_counts jobs k1 k2 k3) by done.
  rewrite !length_app, !length_take, !tierJobs_length. unfold available. lia.
Qed.

(** With readable dates the mixer returns as many listings as the mixed
    array holds. *)
Lemma mixJobsByTier_length now jobs k1 k2 k3 :
  Forall (hasDate dateMs) jobs →
  tier1Count (length jobs) = Some k1 → 0 ≤ k1 →
  tier2Count (length jobs) = Some k2 → 0 ≤ k2 →
  tier3Count (length jobs) = Some k3 → 0 ≤ k3 →
  length (mixJobsByTier dateMs now jobs) =
    (Z.to_nat k1 `min` available Tier1 jobs + Z.to_nat k2 `min` available Tier2 jobs
     + Z.to_nat k3 `min` available Tier3 jobs)%nat.
Proof.
  intros Hd **. rewrite (mixJobsByTier_perm dateMs now jobs Hd).
  by apply mixedByTier_length.
Qed.

Lemma recent_older_length c (l : list JobListing) :
  (length (filter (isRecent dateMs c) l) + length (filter (isOlder dateMs c) l)
   ≤ length l)%nat.
Proof.
  induction l as [|x l IH]; [done|]. rewrite !filter_cons.
  destruct (decide (isRecent dateMs c x)) as [Hr|], (decide (isOlder dateMs c x)) as [Ho|];
    simpl; try lia.
  unfold isRecent, isOlder in *. destruct (dateMs (posted_at x)); [lia|done].
Qed.

Lemma mixJobsByTier_length_le now jobs :
  (length (mixJobsByTier dateMs now jobs) ≤ length (mixedByTier jobs))%nat.
Proof.
  unfold mixJobsByTier. rewrite length_app, sort_length. apply recent_older_length.
Qed.

(** Nine listings give quotas 6, 1 and 0: at most seven come back,
    whatever their tiers. *)
Lemma nine_listings_at_most_seven now jobs :
  length jobs = 9%nat → (length (mixJobsByTier dateMs now jobs) ≤ 7)%nat.
Proof.
  intros H9. etrans; [apply mixJobsByTier_length_le|].
  rewrite (mixedByTier_length jobs 6 1 0);
    rewrite ?H9; try lia; vm_compute; reflexivity.
Qed.

End OutputLength.

(** C10.  The output length is meant to be
    min(floor(0.7 N), tier-1 available) + min(floor(0.2 N), tier-2 available)
    + min(floor(0.1 N), tier-3 available).  For the 90 tier-1 listings above,
    with readable dates, that is min(63, 90) + 0 + 0 = 63; the mixer returns
    62, because 90 * 0.7 is 62.99999999999999 in binary64. *)
Theorem mixJobsByTier_ninety_returns_62 :
  let dateMs := newYear2026 in
  let now := 1767225660000 in
  Forall (hasDate dateMs) ninetyTier1 ∧
  (Z.to_nat (exactQuota 70 90) `min` available Tier1 ninetyTier1
   + Z.to_nat (exactQuota 20 90) `min` available Tier2 ninetyTier1
   + Z.to_nat (exactQuota 10 90) `min` available Tier3 ninetyTier1 = 63)%nat ∧
  length (Scraper.mixJobsByTier dateMs now ninetyTier1) = 62%nat.
Proof.
  intros dateMs now. split_and!.
  - apply Forall_forall. intros j _. by eexists.
  - vm_compute. reflexivity.
  - vm_compute. reflexivity.
Qed.

(** A pass that reaches such an input: two tier-1 boards answer with 50
    and 40 postings, 90 distinct listings are scored, 63 are due, 62 come
    back. *)
Example pass_with_ninety_tier1 :
  let now := 1767225660000 in
  let promises := Scraper.allPromises newYear2026 isoNewYear2026 now twoBoardsUp workableDown in
  let scored := Scraper.scoreAll newYear2026 now Scraper.JOB_KEYWORDS Scraper.TARGET_LOCATIONS
                  (Scraper.uniqueJobs (Scraper.collectAll promises)) in
  length scored = 90%nat ∧
  available Tier1 scored = 90%nat ∧
  length (Scraper.mixedJobs newYear2026 now Scraper.JOB_KEYWORDS Scraper.TARGET_LOCATIONS
            promises) = 62%nat.
Proof. vm_compute. done. Qed.

(* ================================================================== *)
(** * Scoring                                                          *)
(* ================================================================== *)

Section Scoring.

Import Scraper.

Variable dateMs : string → option Z.

Lemma keywordFold_shift text keywords acc :
  fold_left (λ acc kw, if keywordHit text kw then acc + 5 else acc) keywords acc
  = acc + keywordScore text keywords.
Proof.
  unfold keywordScore. revert acc.
  induction keywords as [|kw l IH]; intros acc; simpl; [lia|].
  rewrite IH, (IH (if keywordHit text kw then 0 + 5 else 0)).
  destruct (keywordHit text kw); lia.
Qed.

Lemma keywordScore_cons text kw keywords :
  keywordScore text (kw :: keywords) = hitValue text kw + keywordScore text keywords.
Proof.
  unfold keywordScore at 1, hitValue. simpl. rewrite keywordFold_shift.
  destruct (keywordHit text kw); lia.
Qed.

Lemma keywordScore_app text l1 l2 :
  keywordScore text (l1 ++ l2) = keywordScore text l1 + keywordScore text l2.
Proof.
  induction l1 as [|kw l1 IH]; simpl; [done|].
  rewrite !keywordScore_cons, IH. lia.
Qed.

Lemma keywordScore_nonneg text keywords : 0 ≤ keywordScore text keywords.
Proof.
  induction keywords as [|kw l IH]; [done|].
  rewrite keywordScore_cons. unfold hitValue. destruct (keywordHit text kw); lia.
Qed.

Lemma tierBonus_cases t :
  tierBonus t = match t with Tier1 => 20 | Tier2 => 10 | Tier3 => 5 end.
Proof. by destruct t. Qed.

Lemma locationBonus_range jobLoc locations : 0 ≤ locationBonus jobLoc locations ≤ 15.
Proof. unfold locationBonus. repeat case_match; lia. Qed.

Lemma recencyBonus_range now postedAt : 0 ≤ recencyBonus dateMs now postedAt ≤ 10.
Proof. unfold recencyBonus. repeat case_match; lia. Qed.

End Scoring.

(** C3.  The score is an integer between 0 and 100: it is 50 plus the tier
    bonus plus the keyword bonus capped at 30 plus the location and recency
    bonuses, clamped to [0, 100] (the lower clamp never acts, the sum being
    at least 55), and every bonus is non-negative. *)
Theorem calculateScore_bounds
    (dateMs : string → option Z) (now : Z) (job : JobListing)
    (keywords locations : list string) :
  let tier := Scraper.tierBonus (company_tier job) in
  let kw := Z.min 30 (Scraper.keywordScore (Scraper.jobText job) keywords) in
  let loc := Scraper.locationBonus (Js.toLowerCase (location job)) locations in
  let rec := Scraper.recencyBonus dateMs now (posted_at job) in
  0 ≤ Scraper.calculateScore dateMs now job keywords locations ≤ 100 ∧
  Scraper.calculateScore dateMs now job keywords locations
    = Z.max 0 (Z.min 100 (50 + tier + kw + loc + rec)) ∧
  5 ≤ tier ≤ 20 ∧ 0 ≤ kw ≤ 30 ∧ 0 ≤ loc ≤ 15 ∧ 0 ≤ rec ≤ 10.
Proof.
  intros tier kw loc rec.
  assert (5 ≤ tier ≤ 20) by (unfold tier; rewrite tierBonus_cases; case_match; lia).
  assert (0 ≤ kw ≤ 30)
    by (unfold kw; pose proof (keywordScore_nonneg (Scraper.jobText job) keywords); lia).
  assert (0 ≤ loc ≤ 15) by apply locationBonus_range.
  assert (0 ≤ rec ≤ 10) by apply recencyBonus_range.
  unfold Scraper.calculateScore. fold tier kw loc rec. lia.
Qed.

(** C4.  Raising the tier from 3 to 2 and from 2 to 1, everything else
    fixed, never lowers the score; and inserting into the keyword list, at
    any place, a keyword that matches the listing's text never lowers it: the
    keyword bonus goes from min(30, k) to min(30, k + 5). *)
Theorem calculateScore_monotone
    (dateMs : string → option Z) (now : Z) (job : JobListing)
    (before after locations : list string) (kw : string) :
  (Scraper.calculateScore dateMs now (withTier job Tier3) (before ++ after) locations
     ≤ Scraper.calculateScore dateMs now (withTier job Tier2) (before ++ after) locations
   ∧ Scraper.calculateScore dateMs now (withTier job Tier2) (before ++ after) locations
     ≤ Scraper.calculateScore dateMs now (withTier job Tier1) (before ++ after) locations)
  ∧ (Scraper.keywordHit (Scraper.jobText job) kw = true →
     Scraper.keywordScore (Scraper.jobText job) (before ++ kw :: after)
       = Scraper.keywordScore (Scraper.jobText job) (before ++ after) + 5
     ∧ Scraper.calculateScore dateMs now job (before ++ after) locations
       ≤ Scraper.calculateScore dateMs now job (before ++ kw :: after) locations).
Proof.
  split.
  - unfold Scraper.calculateScore. simpl.
    change (Scraper.jobText (withTier job Tier3)) with (Scraper.jobText job).
    change (Scraper.jobText (withTier job Tier2)) with (Scraper.jobText job).
    change (Scraper.jobText (withTier job Tier1)) with (Scraper.jobText job).
    rewrite !tierBonus_cases. lia.
  - intros Hhit.
    assert (Scraper.keywordScore (Scraper.jobText job) (before ++ kw :: after)
            = Scraper.keywordScore (Scraper.jobText job) (before ++ after) + 5) as Hk.
    { rewrite !keywordScore_app, keywordScore_cons. unfold hitValue. rewrite Hhit. lia. }
    split; [done|]. unfold Scraper.calculateScore. rewrite Hk. lia.
Qed.

Lemma calculateScore_monotone_witness :
  let dateMs := newYear2026 in
  let now := 1767225600000 + 3 * 86400000 in
  Scraper.keywordHit (Scraper.jobText berlinListing) "AWS" = true ∧
  Scraper.calculateScore dateMs now berlinListing (["Python"] ++ ["Rust"]) [] = 65 ∧
  Scraper.calculateScore dateMs now berlinListing (["Python"] ++ "AWS" :: ["Rust"]) [] = 70 ∧
  Scraper.calculateScore dateMs now berlinListing (["Python"] ++ ["Rust"]) []
    ≤ Scraper.calculateScore dateMs now berlinListing (["Python"] ++ "AWS" :: ["Rust"]) [].
Proof.
  intros dateMs now. split_and!; [reflexivity | reflexivity | reflexivity |].
  apply (calculateScore_monotone dateMs now berlinListing ["Python"] ["Rust"] [] "AWS").
  reflexivity.
Defined.

(* ================================================================== *)
(** * Recency buckets                                                  *)
(* ================================================================== *)

(** The chained floors of [getTimeDelta] are the floors of the elapsed time
    in each unit. *)
Lemma chained_floors (diffMs : Z) :
  diffMs / 60000 / 60 = diffMs / hourMs ∧
  diffMs / 60000 / 60 / 24 = diffMs / dayMs ∧
  diffMs / 60000 / 60 / 24 / 7 = diffMs / weekMs.
Proof.
  unfold weekMs, dayMs, hourMs, minuteMs.
  rewrite !Z.div_div by lia. done.
Qed.

Lemma div_lt_iff a b q : 0 < b → a / b < q ↔ a < b * q.
Proof.
  intros Hb. split; [|by apply Z.div_lt_upper_bound].
  intros Hlt. destruct (Z.lt_ge_cases a (b * q)) as [|Hge]; [done|].
  apply Z.div_le_lower_bound in Hge; [lia|done].
Qed.

Lemma div_ge_iff a b q : 0 < b → q ≤ a / b ↔ b * q ≤ a.
Proof. intros Hb. pose proof (div_lt_iff a b q Hb). lia. Qed.

(** C9.  For a timestamp not after now, with N the floor of the elapsed
    time in the unit: "N min ago" under 60 minutes, "Nh ago" from there up
    to 24 hours, "Nd ago" from there up to 7 days, "Nw ago" from 7 days on.
    Five minutes give "5 min ago", 25 hours "1d ago", ten days "1w ago". *)
Theorem getTimeDelta_buckets
    (dateMs : string → option Z) (now : Z) (dateStr : string) (posted : Z) :
  dateMs dateStr = Some posted →
  posted ≤ now →
  let elapsed := now - posted in
  let delta := Scraper.getTimeDelta dateMs now dateStr in
  (elapsed < hourMs → delta = (Js.numberToString (elapsed / minuteMs) +:+ " min ago")%string) ∧
  (hourMs ≤ elapsed < dayMs → delta = (Js.numberToString (elapsed / hourMs) +:+ "h ago")%string) ∧
  (dayMs ≤ elapsed < weekMs → delta = (Js.numberToString (elapsed / dayMs) +:+ "d ago")%string) ∧
  (weekMs ≤ elapsed → delta = (Js.numberToString (elapsed / weekMs) +:+ "w ago")%string) ∧
  (elapsed = 5 * minuteMs → delta = "5 min ago") ∧
  (elapsed = 25 * hourMs → delta = "1d ago") ∧
  (elapsed = 10 * dayMs → delta = "1w ago").
Proof.
  intros Hdate Hpast elapsed delta.
  assert (∀ e, e = elapsed →
    (e < hourMs → delta = (Js.numberToString (e / minuteMs) +:+ " min ago")%string) ∧
    (hourMs ≤ e < dayMs → delta = (Js.numberToString (e / hourMs) +:+ "h ago")%string) ∧
    (dayMs ≤ e < weekMs → delta = (Js.numberToString (e / dayMs) +:+ "d ago")%string) ∧
    (weekMs ≤ e → delta = (Js.numberToString (e / weekMs) +:+ "w ago")%string)) as Hgen.
  { intros e ->. unfold delta, Scraper.getTimeDelta. rewrite Hdate. fold elapsed.
    destruct (chained_floors elapsed) as (Hh & Hd & Hw). rewrite Hw, Hd, Hh.
    assert (0 ≤ elapsed) by (unfold elapsed; lia).
    unfold weekMs, dayMs, hourMs, minuteMs in *.
    destruct (Z.ltb_spec (elapsed / 60000) 60) as [Hm|Hm].
    { apply div_lt_iff in Hm; [|lia]. split_and!; intros; (done || lia). }
    apply div_ge_iff in Hm; [|lia].
    destruct (Z.ltb_spec (elapsed / (60 * 60000)) 24) as [Hhr|Hhr].
    { apply div_lt_iff in Hhr; [|lia]. split_and!; intros; (done || lia). }
    apply div_ge_iff in Hhr; [|lia].
    destruct (Z.ltb_spec (elapsed / (24 * (60 * 60000))) 7) as [Hdy|Hdy].
    { apply div_lt_iff in Hdy; [|lia]. split_and!; intros; (done || lia). }
    apply div_ge_iff in Hdy; [|lia].
    split_and!; intros; (done || lia). }
  destruct (Hgen elapsed eq_refl) as (Hmin & Hhour & Hday & Hweek).
  split_and!; try done.
  - intros He. rewrite Hmin; rewrite He; [reflexivity|reflexivity].
  - intros He. rewrite Hday; rewrite He; [reflexivity|done].
  - intros He. rewrite Hweek; rewrite He; [reflexivity|done].
Qed.

Lemma getTimeDelta_buckets_witness :
  let dateMs := newYear2026 in
  Scraper.getTimeDelta dateMs (1767225600000 + 25 * hourMs) "2026-01-01T00:00:00.000Z"
  = "1d ago".
Proof.
  intros dateMs.
  refine (proj1 (proj2 (proj2 (proj2 (proj2 (proj2
    (getTimeDelta_buckets dateMs (1767225600000 + 25 * hourMs)
       "2026-01-01T00:00:00.000Z" 1767225600000 _ _)))))) _).
  - reflexivity.
  - vm_compute. discriminate.
  - reflexivity.
Defined.

(* ================================================================== *)
(** * Source clients                                                   *)
(* ================================================================== *)

Section StripHtml.

Lemma replaceTags_hasChar b s :
  Js.hasChar 62 s = false → Js.hasChar 62 (Js.replaceTags b s) = false.
Proof.
  revert b. induction s as [|c s IH]; intros b; simpl; [by destruct b|].
  intros [Hc Hs]%orb_false_elim. destruct b.
  - rewrite Hc. by apply IH.
  - rewrite Hs, andb_false_r. simpl. rewrite Hc. by apply IH.
Qed.

(** No tag is left, whether the scan starts outside a tag or inside one
    that closes. *)
Lemma replaceTags_no_tag s :
  hasTag (Js.replaceTags false s) = false ∧
  (Js.hasChar 62 s = true → hasTag (Js.replaceTags true s) = false).
Proof.
  induction s as [|c s [IHout IHin]]; simpl; [done|]. split.
  - destruct (Js.isChar 60 c) eqn:Hlt; simpl.
    + destruct (Js.hasChar 62 s) eqn:Hgt; simpl.
      * by apply IHin.
      * rewrite Hlt, IHout, replaceTags_hasChar by done. done.
    + by rewrite Hlt, IHout.
  - destruct (Js.isChar 62 c) eqn:Hc; simpl; [done|]. apply IHin.
Qed.

Lemma isSpace_not_angle c :
  Js.isSpace c = true → Js.isChar 60 c = false ∧ Js.isChar 62 c = false.
Proof.
  unfold Js.isSpace, Js.isChar. intros H.
  split; apply N.eqb_neq; intros Heq; rewrite Heq in H; done.
Qed.

Lemma collapseSpaces_hasChar b s :
  Js.hasChar 62 (Js.collapseSpaces b s) = Js.hasChar 62 s.
Proof.
  revert b. induction s as [|c s IH]; intros b; simpl; [done|].
  destruct (Js.isSpace c) eqn:Hsp.
  - destruct (isSpace_not_angle c Hsp) as [_ ->]. destruct b; simpl; by rewrite IH.
  - simpl. by rewrite IH.
Qed.

Lemma collapseSpaces_hasTag b s : hasTag (Js.collapseSpaces b s) = hasTag s.
Proof.
  revert b. induction s as [|c s IH]; intros b; simpl; [done|].
  destruct (Js.isSpace c) eqn:Hsp.
  - destruct (isSpace_not_angle c Hsp) as [-> _]. destruct b; simpl; by rewrite IH.
  - simpl. by rewrite IH, collapseSpaces_hasChar.
Qed.

Lemma trimStart_hasTag s : hasTag s = false → hasTag (Js.trimStart s) = false.
Proof.
  induction s as [|c s IH]; simpl; [done|].
  intros Hs. destruct (Js.isSpace c); [|done].
  apply orb_false_elim in Hs as [_ Hs]. by apply IH.
Qed.

Lemma trimEnd_hasChar s : Js.hasChar 62 s = false → Js.hasChar 62 (Js.trimEnd s) = false.
Proof.
  induction s as [|c s IH]; simpl; [done|].
  intros [Hc Hs]%orb_false_elim.
  destruct (Js.isSpace c && negb (Js.truthy (Js.trimEnd s))); simpl; [done|].
  by rewrite Hc, IH.
Qed.

Lemma trimEnd_hasTag s : hasTag s = false → hasTag (Js.trimEnd s) = false.
Proof.
  induction s as [|c s IH]; simpl; [done|].
  intros [Hc Hs]%orb_false_elim.
  destruct (Js.isSpace c && negb (Js.truthy (Js.trimEnd s))); simpl; [done|].
  rewrite IH by done. rewrite orb_false_r.
  destruct (Js.isChar 60 c); [|done]. simpl in *. by apply trimEnd_hasChar.
Qed.

Lemma sliceTo_hasChar n s : Js.hasChar 62 s = false → Js.hasChar 62 (Js.sliceTo n s) = false.
Proof.
  unfold Js.sliceTo. revert s. induction n as [|n IH]; intros [|c s]; simpl; try done.
  intros [Hc Hs]%orb_false_elim. by rewrite Hc, IH.
Qed.

Lemma sliceTo_hasTag n s : hasTag s = false → hasTag (Js.sliceTo n s) = false.
Proof.
  unfold Js.sliceTo. revert s. induction n as [|n IH]; intros [|c s]; simpl; try done.
  intros [Hc Hs]%orb_false_elim. rewrite IH by done. rewrite orb_false_r.
  destruct (Js.isChar 60 c); [|done]. simpl in *. by apply sliceTo_hasChar.
Qed.

Lemma collapseSpaces_blanks s :
  (∀ b, blanksSingle b (Js.collapseSpaces true s) = true) ∧
  blanksSingle false (Js.collapseSpaces false s) = true.
Proof.
  induction s as [|c s [IHrun IHout]]; simpl; [done|].
  destruct (Js.isSpace c) eqn:Hsp; simpl.
  - split; [done|]. by rewrite IHrun.
  - rewrite Hsp. done.
Qed.

Lemma blanksSingle_weaken s : blanksSingle true s = true → blanksSingle false s = true.
Proof.
  destruct s as [|c s]; simpl; [done|]. destruct (Js.isSpace c); [|done].
  by rewrite andb_false_r.
Qed.

Lemma trimStart_blanks b s :
  blanksSingle b s = true → blanksSingle false (Js.trimStart s) = true.
Proof.
  revert b. induction s as [|c s IH]; intros b; simpl; [done|].
  destruct (Js.isSpace c) eqn:Hsp.
  - intros [_ Hs]%andb_prop. by eapply IH.
  - simpl. by rewrite Hsp.
Qed.

Lemma trimEnd_blanks b s :
  blanksSingle b s = true → blanksSingle b (Js.trimEnd s) = true.
Proof.
  revert b. induction s as [|c s IH]; intros b; simpl; [done|].
  destruct (Js.isSpace c) eqn:Hsp; simpl.
  - intros [Hc Hs]%andb_prop.
    destruct (Js.truthy (Js.trimEnd s)); simpl; [|done].
    by rewrite Hsp, Hc, (IH true).
  - rewrite Hsp. apply IH.
Qed.

Lemma sliceTo_blanks b n s :
  blanksSingle b s = true → blanksSingle b (Js.sliceTo n s) = true.
Proof.
  unfold Js.sliceTo. revert b s. induction n as [|n IH]; intros b [|c s]; simpl; try done.
  destruct (Js.isSpace c).
  - intros [Hc Hs]%andb_prop. by rewrite Hc, IH.
  - apply IH.
Qed.

(** [stripHtml] leaves no tag and no white space but single blanks. *)
Lemma stripHtml_clean html :
  hasTag (Scraper.stripHtml html) = false ∧
  blanksSingle false (Scraper.stripHtml html) = true.
Proof.
  unfold Scraper.stripHtml, Js.trim. split.
  - apply trimEnd_hasTag, trimStart_hasTag. rewrite collapseSpaces_hasTag.
    apply replaceTags_no_tag.
  - apply trimEnd_blanks, (trimStart_blanks false), collapseSpaces_blanks.
Qed.

End StripHtml.

Section Clients.

Import Scraper.

Variable dateMs : string → option Z.
Variable toISOString : Z → string.

(** The Greenhouse client strips, collapses and caps. *)
Lemma greenhouse_snippet company now job :
  snippet (greenhouseListing dateMs toISOString company now job) =
    match gh_content job with
    | Some content =>
        if Js.truthy content then Js.sliceTo 300 (stripHtml content) else EmptyString
    | None => EmptyString
    end.
Proof. simpl. destruct (gh_content job) as [c|]; [|done]. simpl. by destruct c. Qed.

(** The Workable client copies the description as it is. *)
Lemma workable_snippet company now job :
  snippet (workableListing dateMs toISOString company now job) =
    Js.orElse (wk_description job) EmptyString.
Proof. done. Qed.

Lemma sliceTo_length n s : (String.length (Js.sliceTo n s) ≤ n)%nat.
Proof.
  unfold Js.sliceTo. revert s. induction n as [|n IH]; intros [|c s]; simpl; try lia.
  specialize (IH s). lia.
Qed.

(** The Greenhouse snippet: no tag, single blanks only. *)
Lemma greenhouse_snippet_clean company now job :
  hasTag (snippet (greenhouseListing dateMs toISOString company now job)) = false ∧
  blanksSingle false (snippet (greenhouseListing dateMs toISOString company now job)) = true.
Proof.
  rewrite greenhouse_snippet. repeat case_match; try done.
  destruct (stripHtml_clean s) as [Htag Hblank].
  split; [by apply sliceTo_hasTag | by apply sliceTo_blanks].
Qed.

Lemma greenhouse_snippet_capped company now job :
  (String.length (snippet (greenhouseListing dateMs toISOString company now job)) ≤ 300)%nat.
Proof.
  rewrite greenhouse_snippet. repeat case_match; simpl; try lia. apply sliceTo_length.
Qed.

Lemma tryCatch_empty_fulfils {A} (body : Completion (list A)) :
  ∃ l, tryCatch body (mret []) = Fulfilled l ∧ (body = Throw → l = []).
Proof. destruct body as [l|]; simpl; eauto. exists l. done. Qed.

Lemma mapM_null_throws {Raw} (listing : Raw → JobListing) entries :
  None ∈ entries →
  mapM (λ entry, match entry with
                 | Some job => mret (listing job)
                 | None => Throw
                 end) entries = Throw.
Proof.
  induction entries as [|[job|] l IH]; simpl.
  - by intros ?%elem_of_nil.
  - intros [?|Hin]%elem_of_cons; [done|]. by rewrite IH.
  - done.
Qed.

Lemma fetchBody_failed {Raw} cap (listing : Raw → JobListing) outcome :
  requestFailed outcome →
  tryCatch (fetchBody cap listing outcome) (mret []) = Fulfilled [].
Proof.
  destruct outcome as [|status body]; simpl; [done|]. intros ->. done.
Qed.

Lemma fetchBody_malformed {Raw} cap (listing : Raw → JobListing) outcome :
  payloadMalformed cap outcome →
  tryCatch (fetchBody cap listing outcome) (mret []) = Fulfilled [].
Proof.
  destruct outcome as [|status body]; simpl; [done|].
  destruct (responseOk status); simpl; [|done].
  destruct body as [| | |entries]; try done.
  intros Hnull. by rewrite mapM_null_throws.
Qed.

(* ---------------- collecting the settled promises ---------------- *)

Lemma pushFulfilled_spec results allJobs :
  pushFulfilled results allJobs = allJobs ++ successfulResults results.
Proof.
  unfold pushFulfilled, successfulResults. revert allJobs.
  induction results as [|[value|] l IH]; intros allJobs; simpl.
  - by rewrite app_nil_r.
  - by rewrite IH, app_assoc.
  - apply IH.
Qed.

Lemma successfulResults_app l1 l2 :
  successfulResults (l1 ++ l2) = successfulResults l1 ++ successfulResults l2.
Proof. unfold successfulResults. by rewrite omap_app, concat_app. Qed.

(** Enough iterations: the loop has gone through every batch. *)
Lemma collectFrom_spec fuel promises i allJobs :
  (length promises ≤ i + fuel)%nat →
  collectFrom fuel promises i allJobs = allJobs ++ successfulResults (drop i promises).
Proof.
  revert i allJobs. induction fuel as [|fuel IH]; intros i allJobs Hfuel; simpl.
  - rewrite drop_ge by lia. by rewrite app_nil_r.
  - destruct (decide (i < length promises)%nat) as [Hlt|Hge].
    + rewrite IH by (unfold batchSize; lia).
      rewrite pushFulfilled_spec, <- app_assoc. f_equal.
      unfold Js.sliceRange. replace (i + batchSize - i)%nat with batchSize by lia.
      rewrite <- successfulResults_app.
      rewrite <- (drop_drop promises batchSize i), take_drop. done.
    + rewrite drop_ge by lia. by rewrite app_nil_r.
Qed.

Lemma collectAll_spec promises : collectAll promises = successfulResults promises.
Proof. unfold collectAll. by rewrite collectFrom_spec. Qed.

(* ---------------- the size of one pass ---------------- *)

Lemma mapM_length {A B} (f : A → Completion B) l l' :
  mapM f l = Normal l' → length l' = length l.
Proof.
  revert l'. induction l as [|x l IH]; intros l'; simpl; [by intros [= <-]|].
  destruct (f x) as [y|]; simpl; [|done].
  destruct (mapM f l) as [ys|]; simpl; [|done].
  intros [= <-]. simpl. by rewrite (IH ys).
Qed.

Lemma client_length {Raw} cap (listing : Raw → JobListing) outcome jobs :
  tryCatch (fetchBody cap listing outcome) (mret []) = Fulfilled jobs →
  (length jobs ≤ cap)%nat.
Proof.
  destruct (fetchBody cap listing outcome) as [l|] eqn:Hbody; simpl.
  - intros [= <-]. destruct outcome as [|status body]; simpl in Hbody; [done|].
    destruct (responseOk status); simpl in Hbody; [|injection Hbody as <-; simpl; lia].
    destruct body as [| | |entries]; try done; [injection Hbody as <-; simpl; lia|].
    apply mapM_length in Hbody. rewrite Hbody, length_take. lia.
  - intros [= <-]. simpl. lia.
Qed.

Lemma successfulResults_length cap promises :
  Forall (λ r, ∀ jobs, r = Fulfilled jobs → (length jobs ≤ cap)%nat) promises →
  (length (successfulResults promises) ≤ cap * length promises)%nat.
Proof.
  induction 1 as [|[jobs|] l Hr Hl IH]; simpl; [lia| |].
  - change (successfulResults (Fulfilled jobs :: l)) with (jobs ++ successfulResults l).
    rewrite length_app. specialize (Hr jobs eq_refl). lia.
  - change (successfulResults (Rejected :: l)) with (successfulResults l). lia.
Qed.

(** One pass collects at most 43 * 50 + 5 * 30 listings, and scores at most
    as many. *)
Lemma collectAll_bound now greenhouseApi workableApi :
  (length (collectAll (allPromises dateMs toISOString now greenhouseApi workableApi))
   ≤ maxListings)%nat.
Proof.
  rewrite collectAll_spec. unfold allPromises.
  rewrite !successfulResults_app, !length_app.
  pose proof (successfulResults_length 50
    (map (λ c, fetchGreenhouseJobs dateMs toISOString c now (greenhouseApi c))
         TIER_1_greenhouse)) as H1.
  pose proof (successfulResults_length 50
    (map (λ c, fetchGreenhouseJobs dateMs toISOString c now (greenhouseApi c))
         TIER_2_greenhouse)) as H2.
  pose proof (successfulResults_length 30
    (map (λ c, fetchWorkableJobs dateMs toISOString c now (workableApi c))
         TIER_3_workable)) as H3.
  rewrite length_map in H1, H2, H3.
  unfold maxListings.
  assert (∀ cap A (f : A → Settled (list JobListing)) (l : list A),
            (∀ a jobs, f a = Fulfilled jobs → (length jobs ≤ cap)%nat) →
            Forall (λ r, ∀ jobs, r = Fulfilled jobs → (length jobs ≤ cap)%nat) (map f l))
    as Hall.
  { intros cap A f l Hf. apply Forall_forall. intros r [a [-> _]]%list_elem_of_fmap.
    apply Hf. }
  specialize (H1 (Hall _ _ _ _ (λ c jobs, client_length 50 _ _ jobs))).
  specialize (H2 (Hall _ _ _ _ (λ c jobs, client_length 50 _ _ jobs))).
  specialize (H3 (Hall _ _ _ _ (λ c jobs, client_length 30 _ _ jobs))).
  lia.
Qed.

Lemma scored_bound now keywords locations greenhouseApi workableApi :
  (length (scoreAll dateMs now keywords locations
             (uniqueJobs (collectAll
                (allPromises dateMs toISOString now greenhouseApi workableApi))))
   ≤ maxListings)%nat.
Proof.
  unfold scoreAll. rewrite length_map.
  etrans; [|apply (collectAll_bound now greenhouseApi workableApi)].
  apply sublist_length, dedupFrom_sublist.
Qed.

End Clients.

(** C6.  The snippet is meant to be the stripped, collapsed, capped text of
    the posting for both clients.  The Greenhouse client does that; the
    Workable client stores the description unchanged, markup and runs of
    blanks included. *)
Theorem workable_snippet_keeps_markup
    (dateMs : string → option Z) (toISOString : Z → string) (now : Z) :
  Scraper.stripHtml markedUpPosting = "Build APIs" ∧
  snippet (Scraper.greenhouseListing dateMs toISOString stripe now stripePosting)
    = "Build APIs" ∧
  snippet (Scraper.workableListing dateMs toISOString revolut now revolutPosting)
    = markedUpPosting ∧
  snippet (Scraper.workableListing dateMs toISOString revolut now revolutPosting)
    ≠ Js.sliceTo 300 (Scraper.stripHtml markedUpPosting) ∧
  hasTag (snippet (Scraper.workableListing dateMs toISOString revolut now revolutPosting))
    = true ∧
  blanksSingle false
    (snippet (Scraper.workableListing dateMs toISOString revolut now revolutPosting))
    = false.
Proof.
  split_and!; [reflexivity | reflexivity | reflexivity | discriminate
              | reflexivity | reflexivity].
Qed.

(** C7.  Whatever a source answers, its client settles with a list and
    never rejects; the list is empty when the request fails (no response
    within the timeout, a network error, a status outside 200..299) or the
    payload cannot be mapped.  The collection loop returns the results of
    the promises that resolved, in submission order, whatever the others
    did. *)
Theorem source_failure_isolated
    (dateMs : string → option Z) (toISOString : Z → string) (now : Z) :
  (∀ company outcome,
     ∃ jobs, Scraper.fetchGreenhouseJobs dateMs toISOString company now outcome
             = Fulfilled jobs
             ∧ (requestFailed outcome ∨ payloadMalformed 50 outcome → jobs = [])) ∧
  (∀ company outcome,
     ∃ jobs, Scraper.fetchWorkableJobs dateMs toISOString company now outcome
             = Fulfilled jobs
             ∧ (requestFailed outcome ∨ payloadMalformed 30 outcome → jobs = [])) ∧
  (∀ promises, Scraper.collectAll promises = successfulResults promises).
Proof.
  split_and!.
  - intros company outcome. unfold Scraper.fetchGreenhouseJobs.
    destruct (tryCatch_empty_fulfils
                (Scraper.fetchBody 50 (Scraper.greenhouseListing dateMs toISOString company now)
                   outcome)) as (jobs & Hjobs & _).
    exists jobs. split; [done|]. intros [Hf|Hm].
    + rewrite fetchBody_failed in Hjobs by done. congruence.
    + rewrite fetchBody_malformed in Hjobs by done. congruence.
  - intros company outcome. unfold Scraper.fetchWorkableJobs.
    destruct (tryCatch_empty_fulfils
                (Scraper.fetchBody 30 (Scraper.workableListing dateMs toISOString company now)
                   outcome)) as (jobs & Hjobs & _).
    exists jobs. split; [done|]. intros [Hf|Hm].
    + rewrite fetchBody_failed in Hjobs by done. congruence.
    + rewrite fetchBody_malformed in Hjobs by done. congruence.
  - apply collectAll_spec.
Qed.

(** Five sources, two rejected and three resolved. *)
Lemma source_failure_isolated_witness :
  let dateMs := newYear2026 in
  let toISOString := isoNewYear2026 in
  requestFailed (@FetchResponse GreenhouseJob 503 BodyUnreadable) ∧
  Scraper.collectAll
    [Fulfilled [stripeListing 1]; Rejected; Fulfilled [stripeListing 2; stripeListing 3];
     Rejected; Fulfilled [stripeListing 4]]
  = [stripeListing 1; stripeListing 2; stripeListing 3; stripeListing 4] ∧
  ∃ jobs, Scraper.fetchGreenhouseJobs dateMs toISOString stripe 1767225600000
            (FetchResponse 503 BodyUnreadable) = Fulfilled jobs ∧ jobs = [].
Proof.
  intros dateMs toISOString.
  pose proof (source_failure_isolated dateMs toISOString 1767225600000)
    as (Hgh & _ & Hall).
  split_and!.
  - reflexivity.
  - rewrite Hall. reflexivity.
  - destruct (Hgh stripe (FetchResponse 503 BodyUnreadable)) as (jobs & Hjobs & Hempty).
    exists jobs. split; [exact Hjobs|]. apply Hempty. left. reflexivity.
Defined.

(* ================================================================== *)
(** * Conditional fetch                                                *)
(* ================================================================== *)

Lemma handle_token_match
    (dateMs : string → option Z) (toISOString : Z → string) (now : Z)
    (req : Feed.Request) (rows : option (list Feed.Row)) (count : option Z) :
  Feed.isOptions req = false →
  Feed.authorized req = true →
  Feed.ifNoneMatch req
    = Some (Feed.etagOf (Feed.lastModifiedOf toISOString now rows) count) →
  Feed.handle dateMs toISOString now req (Feed.QueryData rows count)
    = Feed.notModified (Feed.etagOf (Feed.lastModifiedOf toISOString now rows) count)
                       (Feed.lastModifiedOf toISOString now rows).
Proof.
  intros Hopt Hauth Hmatch. unfold Feed.handle. rewrite Hopt, Hauth. simpl.
  by rewrite decide_True.
Qed.

Lemma handle_etag_header dateMs toISOString now req rows count :
  Feed.isOptions req = false → Feed.authorized req = true →
  Feed.header_ETag (Feed.handle dateMs toISOString now req (Feed.QueryData rows count))
  = Some (Feed.etagOf (Feed.lastModifiedOf toISOString now rows) count).
Proof.
  intros Ho Ha. unfold Feed.handle. rewrite Ho, Ha. simpl. repeat case_match; done.
Qed.



(** The clock's rendering at three instants. *)
Example isoString_samples :
  isoString 0 = "1970-01-01T00:00:00.000Z"%string ∧
  isoString 951825599999 = "2000-02-29T11:59:59.999Z"%string ∧
  isoString 1767312005000 = "2026-01-02T00:00:05.000Z"%string.
Proof. by vm_compute. Qed.




(** Two queries over the same non-empty page: the token the first one
    issued is the current one at the second, whatever the clock reads. *)
Lemma consecutive_queries_not_modified
    (dateMs : string → option Z) (toISOString : Z → string) (now1 now2 : Z)
    (req1 req2 : Feed.Request) (latest : Feed.Row) (rest : list Feed.Row)
    (created : string) (count : option Z) :
  let store := Feed.QueryData (Some (latest :: rest)) count in
  Feed.row_created_at latest = Some created → Js.truthy created = true →
  Feed.isOptions req1 = false → Feed.authorized req1 = true →
  Feed.isOptions req2 = false → Feed.authorized req2 = true →
  Feed.ifNoneMatch req2 = Feed.header_ETag (Feed.handle dateMs toISOString now1 req1 store) →
  Feed.status (Feed.handle dateMs toISOString now2 req2 store) = 304 ∧
  Feed.body (Feed.handle dateMs toISOString now2 req2 store) = None.
Proof.
  intros store Hc Ht Ho1 Ha1 Ho2 Ha2 Htok.
  assert (∀ now, Feed.lastModifiedOf toISOString now (Some (latest :: rest)) = created) as Hlm.
  { intros now. unfold Feed.lastModifiedOf. simpl. rewrite Hc. simpl. by rewrite Ht. }
  assert (Feed.header_ETag (Feed.handle dateMs toISOString now1 req1 store)
          = Some (Feed.etagOf created count)) as Hfirst.
  { unfold Feed.handle, store. rewrite Ho1, Ha1. simpl. rewrite !Hlm.
    repeat case_match; done. }
  rewrite Hfirst in Htok. unfold store.
  rewrite (handle_token_match dateMs toISOString now2 req2 (Some (latest :: rest)) count)
    by (try done; by rewrite Hlm).
  done.
Qed.

(** With no row on the page the token is made from the clock, so it changes
    from one millisecond to the next. *)
Example empty_page_token_follows_clock :
  let dateMs := λ _ : string, None in
  let toISOString := Js.numberToString in
  let store := Feed.QueryData (Some []) (Some 0) in
  let first := Feed.handle dateMs toISOString 1767312000000 (feedRequest None) store in
  let second := Feed.handle dateMs toISOString 1767312000001
                  (feedRequest (Feed.header_ETag first)) store in
  Feed.status second = 200.
Proof. reflexivity. Qed.

(* ================================================================== *)
(** * Further properties: tier mixing                                  *)
(* ================================================================== *)

Section MixingMore.

Import Scraper.

Variable dateMs : string → option Z.

Lemma elem_of_take_elem {A} (x : A) n l : x ∈ take n l → x ∈ l.
Proof. intros H. eapply elem_of_sublist; [exact H|apply sublist_take]. Qed.

(** A listing of the mixed array sits in the prefix of its own tier. *)
Lemma mixed_segment jobs n1 n2 n3 x :
  x ∈ take n1 (tierJobs Tier1 jobs) ++ take n2 (tierJobs Tier2 jobs)
      ++ take n3 (tierJobs Tier3 jobs) ↔
  x ∈ take (match company_tier x with Tier1 => n1 | Tier2 => n2 | Tier3 => n3 end)
           (tierJobs (company_tier x) jobs).
Proof.
  assert (∀ t n, x ∈ take n (tierJobs t jobs) → company_tier x = t) as Htier.
  { intros t n Hx%elem_of_take_elem.
    pose proof (tierJobs_tier t jobs) as Hall. rewrite Forall_forall in Hall. by apply Hall. }
  rewrite !elem_of_app. split.
  - intros [H|[H|H]]; by rewrite (Htier _ _ H).
  - destruct (company_tier x) eqn:Ht; intros H; auto.
Qed.

Lemma elem_of_tierJobs jobs x : x ∈ jobs → x ∈ tierJobs (company_tier x) jobs.
Proof.
  intros Hx. rewrite tierJobs_perm. by apply list_elem_of_filter.
Qed.

Lemma mixJobsByTier_dated now jobs :
  mixJobsByTier dateMs now jobs ≡ₚ filter (hasDate dateMs) (mixedByTier jobs).
Proof. unfold mixJobsByTier. rewrite sort_perm. apply recent_older_hasDate. Qed.

Lemma elem_of_mixJobsByTier now jobs x :
  x ∈ mixJobsByTier dateMs now jobs → x ∈ mixedByTier jobs.
Proof. rewrite mixJobsByTier_dated. by intros [_ ?]%list_elem_of_filter. Qed.

Lemma mixedByTier_submseteq jobs : mixedByTier jobs ⊆+ jobs.
Proof.
  destruct (mixedByTier_prefixes jobs) as (n1 & n2 & n3 & ->).
  assert (filter (λ j, company_tier j = Tier1) jobs
          ++ filter (λ j, company_tier j = Tier2) jobs
          ++ filter (λ j, company_tier j = Tier3) jobs ≡ₚ jobs) as Hsplit.
  { induction jobs as [|x l IH]; [done|]. rewrite !filter_cons.
    destruct (company_tier x); simpl.
    - by rewrite IH.
    - rewrite <- Permutation_middle. by rewrite IH.
    - rewrite app_assoc, <- Permutation_middle, <- app_assoc. by rewrite IH. }
  rewrite <- Hsplit at 4.
  repeat apply submseteq_app;
    (etrans; [apply sublist_submseteq, sublist_take|]); by rewrite tierJobs_perm.
Qed.

End MixingMore.

(** X1.  Within a tier the mixer keeps the best: a listing of the input
    that is left out of the mixed array never outscores a kept listing of
    its tier. *)
Theorem mixedByTier_keeps_best (jobs : list JobListing) (kept dropped : JobListing) :
  kept ∈ Scraper.mixedByTier jobs →
  dropped ∈ jobs →
  dropped ∉ Scraper.mixedByTier jobs →
  company_tier kept = company_tier dropped →
  match_score dropped ≤ match_score kept.
Proof.
  intros Hkept Hin Hout Htier.
  destruct (mixedByTier_prefixes jobs) as (n1 & n2 & n3 & Hmix).
  rewrite Hmix in Hkept, Hout. rewrite mixed_segment in Hkept, Hout.
  rewrite Htier in Hkept.
  apply elem_of_tierJobs in Hin.
  set (n := match company_tier dropped with Tier1 => n1 | Tier2 => n2 | Tier3 => n3 end) in *.
  rewrite <- (take_drop n (Scraper.tierJobs (company_tier dropped) jobs)) in Hin.
  apply elem_of_app in Hin as [Hin|Hin]; [done|].
  eapply (take_top match_score); [apply tierJobs_sorted|exact Hkept|exact Hin].
Qed.

Lemma mixedByTier_keeps_best_witness :
  Scraper.mixedByTier [weakListing; strongListing] = [strongListing] ∧
  match_score weakListing ≤ match_score strongListing.
Proof.
  split; [reflexivity|].
  apply (mixedByTier_keeps_best [weakListing; strongListing] strongListing weakListing).
  - apply (bool_decide_unpack _). vm_compute. exact I.
  - apply (bool_decide_unpack _). vm_compute. exact I.
  - apply (bool_decide_unpack _). vm_compute. exact I.
  - reflexivity.
Defined.

(** X2.  The mixer returns exactly the listings of the mixed array whose
    date is readable, and nothing it was not given: the result is a
    sub-multiset of the input. *)
Theorem mixJobsByTier_returns_dated_of_mixed
    (dateMs : string → option Z) (now : Z) (jobs : list JobListing) :
  Scraper.mixJobsByTier dateMs now jobs
    ≡ₚ filter (hasDate dateMs) (Scraper.mixedByTier jobs) ∧
  Scraper.mixJobsByTier dateMs now jobs ⊆+ jobs.
Proof.
  split; [apply mixJobsByTier_dated|]. rewrite mixJobsByTier_dated.
  etrans; [apply sublist_submseteq, sublist_filter|]. apply mixedByTier_submseteq.
Qed.

(** X3.  Small passes lose whole tiers: a tier-1 listing comes back only
    from a pass of at least 2 listings, a tier-2 listing only from at least
    5, a tier-3 listing only from at least 10; a pass of one listing returns
    nothing. *)
Theorem small_pass_drops_tiers
    (dateMs : string → option Z) (now : Z) (jobs : list JobListing) :
  Forall (λ j, (smallestPass (company_tier j) ≤ length jobs)%nat)
         (Scraper.mixJobsByTier dateMs now jobs).
Proof.
  apply Forall_forall. intros x Hx%elem_of_mixJobsByTier.
  destruct (decide (length jobs < 10)%nat) as [Hsmall|Hbig];
    [|destruct (company_tier x); simpl; lia].
  rewrite mixedByTier_below_90 in Hx by lia. apply mixed_segment in Hx.
  assert (∀ p, 0 < p →
            x ∈ take (Z.to_nat (exactQuota p (length jobs)))
                     (Scraper.tierJobs (company_tier x) jobs) →
            100 ≤ p * Z.of_nat (length jobs)) as Hquota.
  { intros p Hp Hin. destruct (Z.to_nat (exactQuota p (length jobs))) eqn:Hq;
      [by apply elem_of_nil in Hin|].
    assert (1 ≤ exactQuota p (length jobs)) as Hone by lia.
    unfold exactQuota in Hone. apply div_ge_iff in Hone; lia. }
  destruct (company_tier x); simpl; apply Hquota in Hx; lia.
Qed.

(* ================================================================== *)
(** * Further properties: scoring                                      *)
(* ================================================================== *)

Section ScoringMore.

Import Scraper.

Lemma keywordScore_hitCount text keywords :
  keywordScore text keywords = 5 * Z.of_nat (hitCount text keywords).
Proof.
  unfold hitCount. induction keywords as [|kw l IH]; [done|].
  rewrite keywordScore_cons, filter_cons, IH. unfold hitValue.
  destruct (decide (keywordHit text kw = true)) as [->|Hn]; [simpl; lia|].
  apply not_true_is_false in Hn. rewrite Hn. lia.
Qed.

Lemma hitCount_perm text l l' : l ≡ₚ l' → hitCount text l = hitCount text l'.
Proof. unfold hitCount. by intros ->. Qed.

Lemma existsb_elem_of {A} (f : A → bool) l :
  existsb f l = true ↔ ∃ x, x ∈ l ∧ f x = true.
Proof.
  rewrite existsb_exists. split; intros (x & Hx & Hf); exists x;
    (split; [by apply list_elem_of_In|done]).
Qed.

Lemma existsb_perm {A} (f : A → bool) l l' : l ≡ₚ l' → existsb f l = existsb f l'.
Proof.
  intros Hp. apply eq_true_iff_eq. rewrite !existsb_elem_of.
  by setoid_rewrite Hp.
Qed.

Lemma locationBonus_perm jobLoc l l' :
  l ≡ₚ l' → locationBonus jobLoc l = locationBonus jobLoc l'.
Proof. intros Hp. unfold locationBonus. by rewrite (existsb_perm _ l l' Hp). Qed.

End ScoringMore.

(** X4.  The score does not depend on the order of the keyword list or of
    the location list: the keywords count through the number of entries
    that match (an entry given twice counts twice, more than six add
    nothing), the locations through whether one matches. *)
Theorem calculateScore_order_independent
    (dateMs : string → option Z) (now : Z) (job : JobListing)
    (keywords keywords' locations locations' : list string) :
  keywords ≡ₚ keywords' →
  locations ≡ₚ locations' →
  Scraper.calculateScore dateMs now job keywords locations
    = Scraper.calculateScore dateMs now job keywords' locations' ∧
  Scraper.calculateScore dateMs now job keywords locations
    = Z.min 100 (50 + Scraper.tierBonus (company_tier job)
                 + Z.min 30 (5 * Z.of_nat (hitCount (Scraper.jobText job) keywords))
                 + Scraper.locationBonus (Js.toLowerCase (location job)) locations
                 + Scraper.recencyBonus dateMs now (posted_at job)).
Proof.
  intros Hk Hl. unfold Scraper.calculateScore.
  rewrite !keywordScore_hitCount, (hitCount_perm _ _ _ Hk), (locationBonus_perm _ _ _ Hl).
  done.
Qed.

Lemma calculateScore_order_independent_witness :
  Scraper.calculateScore newYear2026 1767225660000 berlinListing
    ["Python"; "AWS"; "AWS"] ["Berlin"; "London"] = 90 ∧
  Scraper.calculateScore newYear2026 1767225660000 berlinListing
    ["AWS"; "Python"; "AWS"] ["London"; "Berlin"] = 90.
Proof.
  split; [reflexivity|].
  rewrite <- (proj1 (calculateScore_order_independent newYear2026 1767225660000
                       berlinListing ["Python"; "AWS"; "AWS"] ["AWS"; "Python"; "AWS"]
                       ["Berlin"; "London"] ["London"; "Berlin"]
                       (perm_swap _ _ _) (perm_swap _ _ _))).
  reflexivity.
Defined.

(* ================================================================== *)
(** * Further properties: strings                                      *)
(* ================================================================== *)

Section Strings.

Local Open Scope string_scope.

Lemma append_cons x (a b : string) : String x a ++ b = String x (a ++ b).
Proof. reflexivity. Qed.

Lemma append_assoc (a b c : string) : (a ++ b) ++ c = a ++ (b ++ c).
Proof. induction a as [|x a IH]; [done|]. by rewrite !append_cons, IH. Qed.

Lemma toLowerChar_idem c : Js.toLowerChar (Js.toLowerChar c) = Js.toLowerChar c.
Proof. destruct c as [[] [] [] [] [] [] [] []]; reflexivity. Qed.

Lemma toLowerCase_idem s : Js.toLowerCase (Js.toLowerCase s) = Js.toLowerCase s.
Proof. induction s as [|c s IH]; simpl; [done|]. by rewrite toLowerChar_idem, IH. Qed.

Lemma isSpace_toLowerChar c : Js.isSpace (Js.toLowerChar c) = Js.isSpace c.
Proof. destruct c as [[] [] [] [] [] [] [] []]; reflexivity. Qed.

Lemma prefix_spec t s : String.prefix t s = true ↔ ∃ b, s = t ++ b.
Proof.
  revert s. induction t as [|x t IH]; intros [|y s]; simpl.
  - split; [intros _; by exists EmptyString|done].
  - split; [intros _; by exists (String y s)|done].
  - split; [done|]. intros [b Hb]. by rewrite append_cons in Hb.
  - destruct (ascii_dec x y) as [->|Hne].
    + rewrite IH. split; intros [b Hb]; exists b.
      * by rewrite append_cons, Hb.
      * rewrite append_cons in Hb. congruence.
    + split; [done|]. intros [b Hb]. rewrite append_cons in Hb. congruence.
Qed.

Lemma includes_spec s t : Js.includes s t = true ↔ ∃ a b, s = a ++ t ++ b.
Proof.
  induction s as [|x s IH]; cbn [Js.includes].
  - rewrite orb_false_r, prefix_spec. split.
    + intros [b Hb]. by exists EmptyString, b.
    + intros ([|y a] & b & Hb); [eauto|]. by rewrite append_cons in Hb.
  - rewrite orb_true_iff, prefix_spec, IH. split.
    + intros [[b Hb]|(a & b & Hb)]; [by exists EmptyString, b|].
      exists (String x a), b. by rewrite append_cons, Hb.
    + intros ([|y a] & b & Hb); [left; eauto|].
      right. exists a, b. rewrite append_cons in Hb. congruence.
Qed.

Lemma includes_trans s t u :
  Js.includes s t = true → Js.includes t u = true → Js.includes s u = true.
Proof.
  rewrite !includes_spec. intros (a & b & ->) (a' & b' & ->).
  exists (a ++ a'), (b' ++ b). by rewrite !append_assoc.
Qed.

End Strings.

(* ================================================================== *)
(** * Further properties: requirement tags                             *)
(* ================================================================== *)

Section Requirements.

Import Scraper.

Lemma techKeywords_NoDup : NoDup techKeywords.
Proof. apply (bool_decide_unpack _). vm_compute. exact I. Qed.

(** In a filtered and truncated list, whatever comes earlier in the
    source list and passes the filter is kept before what comes later. *)
Lemma take_filter_earlier {A} (P : A → Prop) `{!∀ x, Decision (P x)}
    (l1 l2 : list A) (x y : A) n :
  P x → y ∉ l1 →
  y ∈ take n (filter P (l1 ++ x :: l2)) → x ∈ take n (filter P (l1 ++ x :: l2)).
Proof.
  intros Px Hy. rewrite filter_app, filter_cons_True by done.
  destruct (decide (n ≤ length (filter P l1))%nat) as [Hle|Hgt].
  - rewrite take_app_le by done. intros Hin%elem_of_take_elem.
    apply list_elem_of_filter in Hin as [_ Hin]. done.
  - intros _. rewrite take_app_ge by lia.
    destruct (n - length (filter P l1))%nat as [|m] eqn:Hm; [lia|].
    simpl. apply elem_of_app. right. by left.
Qed.

Lemma extractRequirements_found content kw :
  kw ∈ extractRequirements content →
  Js.includes (Js.toLowerCase content) (Js.toLowerCase kw) = true.
Proof.
  unfold extractRequirements. intros Hin%elem_of_take_elem.
  by apply list_elem_of_filter in Hin as [? _].
Qed.

End Requirements.

(** X5.  The requirement tags of any text are at most eight, are taken from
    the vocabulary in vocabulary order without repetition, and there are
    none for an empty text. *)
Theorem extractRequirements_bounded (content : string) :
  (length (Scraper.extractRequirements content) ≤ 8)%nat ∧
  sublist (Scraper.extractRequirements content) Scraper.techKeywords ∧
  NoDup (Scraper.extractRequirements content) ∧
  Scraper.extractRequirements EmptyString = [].
Proof.
  assert (sublist (Scraper.extractRequirements content) Scraper.techKeywords) as Hsub.
  { unfold Scraper.extractRequirements. etrans; [apply sublist_take|apply sublist_filter]. }
  split_and!; [|done| |reflexivity].
  - unfold Scraper.extractRequirements. rewrite length_take. lia.
  - eapply sublist_NoDup; first [exact Hsub | apply techKeywords_NoDup].
Qed.

(** X6.  The tags do not depend on the letter case of the text. *)
Theorem extractRequirements_ignores_case (content : string) :
  Scraper.extractRequirements (Js.toLowerCase content)
    = Scraper.extractRequirements content.
Proof. unfold Scraper.extractRequirements. by rewrite toLowerCase_idem. Qed.

(** X7.  Matching is by substring, so a tag drags along the earlier tags
    it contains: a text tagged JavaScript is tagged Java, and a text tagged
    NoSQL is tagged SQL. *)
Theorem extractRequirements_contained_tags (content : string) :
  ("JavaScript" ∈ Scraper.extractRequirements content →
   "Java" ∈ Scraper.extractRequirements content) ∧
  ("NoSQL" ∈ Scraper.extractRequirements content →
   "SQL" ∈ Scraper.extractRequirements content).
Proof.
  split; intros Hin; pose proof (extractRequirements_found _ _ Hin) as Hfound.
  - change Scraper.techKeywords
      with (take 1 Scraper.techKeywords ++ "Java" :: drop 2 Scraper.techKeywords)
      in Hin |- *.
    unfold Scraper.extractRequirements in *.
    change Scraper.techKeywords
      with (take 1 Scraper.techKeywords ++ "Java" :: drop 2 Scraper.techKeywords)
      in Hin |- *.
    eapply take_filter_earlier; [| |exact Hin].
    + eapply includes_trans; [exact Hfound|reflexivity].
    + apply (bool_decide_unpack _). vm_compute. exact I.
  - unfold Scraper.extractRequirements in *.
    change Scraper.techKeywords
      with (take 23 Scraper.techKeywords ++ "SQL" :: drop 24 Scraper.techKeywords)
      in Hin |- *.
    eapply take_filter_earlier; [| |exact Hin].
    + eapply includes_trans; [exact Hfound|reflexivity].
    + apply (bool_decide_unpack _). vm_compute. exact I.
Qed.

Lemma extractRequirements_contained_tags_witness :
  Scraper.extractRequirements "Senior JavaScript developer" = ["Java"; "JavaScript"] ∧
  "Java" ∈ Scraper.extractRequirements "Senior JavaScript developer".
Proof.
  split; [reflexivity|].
  apply (proj1 (extractRequirements_contained_tags "Senior JavaScript developer")).
  apply (bool_decide_unpack _). vm_compute. exact I.
Defined.

(* ================================================================== *)
(** * Further properties: stripHtml                                    *)
(* ================================================================== *)

Section StripHtmlMore.

Lemma isChar_eq k c : Js.isChar k c = true → c = ascii_of_N k.
Proof.
  unfold Js.isChar. intros Hk%N.eqb_eq. by rewrite <- Hk, ascii_N_embedding.
Qed.

Lemma trimStart_first s : firstIsSpace (Js.trimStart s) = false.
Proof.
  induction s as [|c s IH]; simpl; [done|].
  destruct (Js.isSpace c) eqn:Hc; [done|]. simpl. done.
Qed.

Lemma trimEnd_first s : firstIsSpace s = false → firstIsSpace (Js.trimEnd s) = false.
Proof.
  destruct s as [|c s]; simpl; [done|]. intros Hc.
  destruct (Js.isSpace c && negb (Js.truthy (Js.trimEnd s))); simpl; done.
Qed.

Lemma trimEnd_last s : lastIsSpace (Js.trimEnd s) = false.
Proof.
  induction s as [|c s IH]; simpl; [done|].
  destruct (Js.trimEnd s) as [|d r] eqn:Hr; simpl.
  - rewrite andb_true_r. by destruct (Js.isSpace c) eqn:Hc; simpl.
  - rewrite andb_false_r. simpl. exact IH.
Qed.

Lemma replaceTags_id s : hasTag s = false → Js.replaceTags false s = s.
Proof.
  induction s as [|c s IH]; simpl; [done|].
  intros [Hc Hs]%orb_false_elim. rewrite Hc. by rewrite IH.
Qed.

Lemma collapseSpaces_id b s : blanksSingle b s = true → Js.collapseSpaces b s = s.
Proof.
  revert b. induction s as [|c s IH]; intros b; simpl; [done|].
  destruct (Js.isSpace c).
  - intros [[Hc Hb%negb_true_iff]%andb_prop Hs]%andb_prop. subst b.
    apply isChar_eq in Hc as ->. by rewrite (IH true).
  - intros Hs. by rewrite (IH false).
Qed.

Lemma trimStart_id s : firstIsSpace s = false → Js.trimStart s = s.
Proof. destruct s as [|c s]; simpl; [done|]. by intros ->. Qed.

Lemma trimEnd_id s : lastIsSpace s = false → Js.trimEnd s = s.
Proof.
  induction s as [|c s IH]; [done|]. intros Hl.
  change (Js.trimEnd (String c s))
    with (if Js.isSpace c && negb (Js.truthy (Js.trimEnd s))
          then EmptyString else String c (Js.trimEnd s)).
  destruct s as [|d s].
  - simpl in *. by rewrite Hl.
  - rewrite IH by exact Hl. simpl. by rewrite andb_false_r.
Qed.

Lemma stripHtml_trimmed html :
  firstIsSpace (Scraper.stripHtml html) = false ∧
  lastIsSpace (Scraper.stripHtml html) = false.
Proof.
  unfold Scraper.stripHtml, Js.trim. split.
  - apply trimEnd_first, trimStart_first.
  - apply trimEnd_last.
Qed.

End StripHtmlMore.

(** X8.  What [stripHtml] returns holds no tag, no white space other than
    single blanks, and none at either end. *)
Theorem stripHtml_normalised (html : string) :
  hasTag (Scraper.stripHtml html) = false ∧
  blanksSingle false (Scraper.stripHtml html) = true ∧
  firstIsSpace (Scraper.stripHtml html) = false ∧
  lastIsSpace (Scraper.stripHtml html) = false.
Proof.
  destruct (stripHtml_clean html), (stripHtml_trimmed html). done.
Qed.

(** X9.  [stripHtml] is idempotent; more generally it leaves alone any text
    that is already in that form. *)
Theorem stripHtml_idempotent (html : string) :
  Scraper.stripHtml (Scraper.stripHtml html) = Scraper.stripHtml html.
Proof.
  destruct (stripHtml_clean html) as [Htag Hblank].
  destruct (stripHtml_trimmed html) as [Hfirst Hlast].
  unfold Scraper.stripHtml at 1, Js.trim.
  by rewrite replaceTags_id, collapseSpaces_id, trimStart_id, trimEnd_id.
Qed.

(* ================================================================== *)
(** * Further properties: source clients and the pass                  *)
(* ================================================================== *)

Section ClientsMore.

Import Scraper.

Variable dateMs : string → option Z.
Variable toISOString : Z → string.

Lemma mapM_elem {A B} (f : A → Completion B) l l' y :
  mapM f l = Normal l' → y ∈ l' → ∃ x, x ∈ l ∧ f x = Normal y.
Proof.
  revert l'. induction l as [|x l IH]; intros l'; simpl.
  - intros [= <-]. by intros ?%elem_of_nil.
  - destruct (f x) as [z|] eqn:Hz; simpl; [|done].
    destruct (mapM f l) as [zs|]; simpl; [|done].
    intros [= <-] [->|Hy]%elem_of_cons.
    + exists x. split; [by left|done].
    + destruct (IH zs eq_refl Hy) as (x' & Hx' & Hf). exists x'. split; [by right|done].
Qed.

Lemma mapM_all_some {Raw} (listing : Raw → JobListing) (raws : list Raw) :
  mapM (λ entry, match entry with
                 | Some job => mret (listing job)
                 | None => Throw
                 end) (Some <$> raws) = Normal (listing <$> raws).
Proof.
  induction raws as [|r l IH]; [done|].
  rewrite !fmap_cons. cbn [mapM]. by rewrite IH.
Qed.

(** Every listing a client delivers is the image of a posting. *)
Lemma client_listings {Raw} cap (listing : Raw → JobListing) outcome :
  Forall (λ j, ∃ raw, j = listing raw)
         (delivered (tryCatch (fetchBody cap listing outcome) (mret []))).
Proof.
  apply Forall_forall. intros j.
  destruct (fetchBody cap listing outcome) as [l|] eqn:Hbody; simpl;
    [|by intros ?%elem_of_nil].
  intros Hj. destruct outcome as [|status body]; simpl in Hbody; [done|].
  destruct (responseOk status); simpl in Hbody;
    [|injection Hbody as <-; by apply elem_of_nil in Hj].
  destruct body as [| | |entries]; try done;
    [injection Hbody as <-; by apply elem_of_nil in Hj|].
  destruct (mapM_elem _ _ _ _ Hbody Hj) as ([raw|] & _ & Hraw); [|done].
  exists raw. by injection Hraw.
Qed.

Lemma truthy_orElse x d : Js.truthy d = true → Js.truthy (Js.orElse x d) = true.
Proof. intros Hd. unfold Js.orElse. destruct x as [s|]; [|done]. by destruct (Js.truthy s) eqn:Hs. Qed.

Lemma extractRequirements_length content : (length (extractRequirements content) ≤ 8)%nat.
Proof. unfold extractRequirements. rewrite length_take. lia. Qed.

Lemma greenhouseListing_fromSource c now raw :
  fromSource (ghc_name c) (ghc_tier c) "greenhouse"
             (greenhouseListing dateMs toISOString c now raw).
Proof.
  unfold fromSource. simpl. split_and!; try done.
  - by apply truthy_orElse.
  - by apply truthy_orElse.
  - by apply truthy_orElse.
  - apply extractRequirements_length.
Qed.

Lemma workableListing_fromSource c now raw :
  fromSource (wkc_name c) (wkc_tier c) "workable"
             (workableListing dateMs toISOString c now raw).
Proof.
  unfold fromSource. simpl. split_and!; try done.
  - by apply truthy_orElse.
  - apply truthy_orElse. by apply truthy_orElse.
  - apply extractRequirements_length.
Qed.

Lemma calculateScore_range now job keywords locations :
  55 ≤ calculateScore dateMs now job keywords locations ≤ 100.
Proof.
  unfold calculateScore.
  pose proof (keywordScore_nonneg (jobText job) keywords).
  pose proof (locationBonus_range (Js.toLowerCase (location job)) locations).
  pose proof (recencyBonus_range dateMs now (posted_at job)).
  rewrite tierBonus_cases. destruct (company_tier job); lia.
Qed.

Lemma submseteq_NoDup {A} (l k : list A) : l ⊆+ k → NoDup k → NoDup l.
Proof.
  intros [k' Hk]%submseteq_Permutation. rewrite Hk. by intros [? _]%NoDup_app.
Qed.

Lemma scoreAll_urls now keywords locations jobs :
  url <$> scoreAll dateMs now keywords locations jobs = url <$> jobs.
Proof. unfold scoreAll. induction jobs as [|j l IH]; [done|]. cbn. by f_equal. Qed.

End ClientsMore.

(** X10.  When the status is in 200..299 and none of the first 50 entries
    (30 for Workable) is null, a client delivers the listings of exactly
    those entries, in order; later entries are not looked at. *)
Theorem client_maps_first_entries
    (dateMs : string → option Z) (toISOString : Z → string) (now : Z) (status : Z) :
  responseOk status = true →
  (∀ company entries postings,
     take 50 entries = Some <$> postings →
     Scraper.fetchGreenhouseJobs dateMs toISOString company now
       (FetchResponse status (BodyList entries))
     = Fulfilled (Scraper.greenhouseListing dateMs toISOString company now <$> postings)) ∧
  (∀ company entries postings,
     take 30 entries = Some <$> postings →
     Scraper.fetchWorkableJobs dateMs toISOString company now
       (FetchResponse status (BodyList entries))
     = Fulfilled (Scraper.workableListing dateMs toISOString company now <$> postings)).
Proof.
  intros Hok. split; intros company entries postings Htake.
  - unfold Scraper.fetchGreenhouseJobs, Scraper.fetchBody. rewrite Hok. simpl.
    by rewrite Htake, mapM_all_some.
  - unfold Scraper.fetchWorkableJobs, Scraper.fetchBody. rewrite Hok. simpl.
    by rewrite Htake, mapM_all_some.
Qed.

Lemma client_maps_first_entries_witness :
  Scraper.fetchGreenhouseJobs newYear2026 isoNewYear2026 stripe 1767225660000
    (FetchResponse 200 (BodyList [Some stripePosting]))
  = Fulfilled [Scraper.greenhouseListing newYear2026 isoNewYear2026 stripe 1767225660000
                 stripePosting].
Proof.
  apply (proj1 (client_maps_first_entries newYear2026 isoNewYear2026 1767225660000 200
                  eq_refl) stripe [Some stripePosting] [stripePosting]).
  reflexivity.
Defined.

(** X11.  Every listing a client delivers carries the name and tier of its
    source descriptor, the board's name, score 0, no salary, a non-empty
    title, location and url, and at most eight requirement tags. *)
Theorem delivered_listings_from_source
    (dateMs : string → option Z) (toISOString : Z → string) (now : Z) :
  (∀ company outcome,
     Forall (fromSource (ghc_name company) (ghc_tier company) "greenhouse")
            (delivered (Scraper.fetchGreenhouseJobs dateMs toISOString company now outcome))) ∧
  (∀ company outcome,
     Forall (fromSource (wkc_name company) (wkc_tier company) "workable")
            (delivered (Scraper.fetchWorkableJobs dateMs toISOString company now outcome))).
Proof.
  split; intros company outcome.
  - eapply Forall_impl; [apply client_listings|].
    intros j [raw ->]. apply greenhouseListing_fromSource.
  - eapply Forall_impl; [apply client_listings|].
    intros j [raw ->]. apply workableListing_fromSource.
Qed.

(** X12.  Every listing the Greenhouse client delivers has a snippet of at
    most 300 characters, without tags and with single blanks only. *)
Theorem greenhouse_snippets_normal
    (dateMs : string → option Z) (toISOString : Z → string) (now : Z)
    (company : GreenhouseCompany) (outcome : FetchOutcome GreenhouseJob) :
  Forall snippetNormal
         (delivered (Scraper.fetchGreenhouseJobs dateMs toISOString company now outcome)).
Proof.
  eapply Forall_impl; [apply client_listings|].
  intros j [raw ->]. unfold snippetNormal.
  destruct (greenhouse_snippet_clean dateMs toISOString company now raw).
  pose proof (greenhouse_snippet_capped dateMs toISOString company now raw). done.
Qed.

(** X13.  One pass over the 48 configured sources collects at most 2300
    listings, whatever the sources answer. *)
Theorem pass_collects_at_most_2300
    (dateMs : string → option Z) (toISOString : Z → string) (now : Z)
    (greenhouseApi : GreenhouseCompany → FetchOutcome GreenhouseJob)
    (workableApi : WorkableCompany → FetchOutcome WorkableJob) :
  length (Scraper.allPromises dateMs toISOString now greenhouseApi workableApi) = 48%nat ∧
  (length (Scraper.collectAll
             (Scraper.allPromises dateMs toISOString now greenhouseApi workableApi))
   ≤ 2300)%nat.
Proof.
  split.
  - unfold Scraper.allPromises. rewrite !length_app, !length_map. reflexivity.
  - apply (collectAll_bound dateMs toISOString now greenhouseApi workableApi).
Qed.

(** X14.  What a pass returns: listings with pairwise distinct urls, each
    one a collected listing with its freshly computed score, which lies
    between 55 and 100; never more listings than were collected. *)
Theorem pass_result_invariants
    (dateMs : string → option Z) (now : Z) (keywords locations : list string)
    (promises : list (Settled (list JobListing))) :
  let result := Scraper.mixedJobs dateMs now keywords locations promises in
  NoDup (url <$> result) ∧
  Forall (λ j, 55 ≤ match_score j ≤ 100 ∧
               ∃ j0, j0 ∈ successfulResults promises ∧
                     j = set_match_score j0
                           (Scraper.calculateScore dateMs now j0 keywords locations))
         result ∧
  (length result ≤ length (successfulResults promises))%nat.
Proof.
  intros result. unfold result, Scraper.mixedJobs.
  set (unique := Scraper.uniqueJobs (Scraper.collectAll promises)).
  set (scored := Scraper.scoreAll dateMs now keywords locations unique).
  assert (Scraper.mixJobsByTier dateMs now scored ⊆+ scored) as Hsub.
  { rewrite mixJobsByTier_dated.
    etrans; [apply sublist_submseteq, sublist_filter|]. apply mixedByTier_submseteq. }
  assert (sublist unique (successfulResults promises)) as Huniq.
  { unfold unique, Scraper.uniqueJobs. rewrite collectAll_spec. apply dedupFrom_sublist. }
  split_and!.
  - eapply submseteq_NoDup; [by apply fmap_submseteq|].
    unfold scored. rewrite scoreAll_urls. apply dedupFrom_NoDup.
  - apply Forall_forall. intros j Hj.
    eapply elem_of_submseteq in Hj; [|exact Hsub].
    unfold scored, Scraper.scoreAll in Hj.
    apply list_elem_of_fmap in Hj as (j0 & -> & Hj0). split.
    + simpl. apply calculateScore_range.
    + exists j0. split; [|done]. by eapply elem_of_sublist.
  - etrans; [apply submseteq_length, Hsub|].
    unfold scored, Scraper.scoreAll. rewrite length_map. by apply sublist_length.
Qed.

(* ================================================================== *)
(** * Further properties: request, page and persistence                *)
(* ================================================================== *)

Section ServeMore.

Import Serve.

Lemma trim_id s : firstIsSpace s = false → lastIsSpace s = false → Js.trim s = s.
Proof. intros Hf Hl. unfold Js.trim. by rewrite (trimStart_id s Hf), trimEnd_id. Qed.

Lemma trim_idem s : Js.trim (Js.trim s) = Js.trim s.
Proof.
  apply trim_id; unfold Js.trim.
  - apply trimEnd_first, trimStart_first.
  - apply trimEnd_last.
Qed.

Lemma take_min_length {A} n (l : list A) : take (n `min` length l) l = take n l.
Proof.
  destruct (decide (n ≤ length l)%nat).
  - by rewrite Nat.min_l.
  - rewrite Nat.min_r by lia. by rewrite !take_ge by lia.
Qed.

Lemma slice_nonneg {A} (offset limit : Z) (l : list A) :
  0 ≤ offset → 0 ≤ limit →
  JsExtra.slice offset (offset + limit) l
    = take (Z.to_nat limit) (drop (Z.to_nat offset) l).
Proof.
  intros Ho Hl. unfold JsExtra.slice, JsExtra.sliceIndex.
  destruct (Z.ltb_spec offset 0), (Z.ltb_spec (offset + limit) 0); try lia.
  destruct (decide (Z.to_nat offset ≤ length l)%nat) as [Hin|Hout].
  - rewrite (Nat.min_l (Z.to_nat offset)) by lia.
    rewrite <- (take_min_length (Z.to_nat limit)), length_drop. f_equal. lia.
  - rewrite (Nat.min_r (Z.to_nat offset)) by lia.
    rewrite !drop_ge by lia. by rewrite !take_nil.
Qed.

Lemma slice_length {A} (offset limit : Z) (l : list A) :
  0 ≤ limit → (length (JsExtra.slice offset (offset + limit) l) ≤ Z.to_nat limit)%nat.
Proof.
  intros Hl. unfold JsExtra.slice, JsExtra.sliceIndex. rewrite length_take, length_drop.
  destruct (Z.ltb_spec offset 0), (Z.ltb_spec (offset + limit) 0); lia.
Qed.

Lemma countTier_sum l :
  (countTier Tier1 l + countTier Tier2 l + countTier Tier3 l = length l)%nat.
Proof.
  unfold countTier. induction l as [|x l IH]; [done|]. rewrite !filter_cons.
  destruct (company_tier x); simpl; lia.
Qed.

Lemma toRow_urls uid l : row_url <$> map (toRow uid) l = url <$> l.
Proof. induction l as [|x l IH]; [done|]. cbn. by f_equal. Qed.

End ServeMore.


(** X16.  For a limit that is missing, unparsable or not negative, the
    limit used is between 1 and 500 and no page is longer, at any offset. *)
Theorem limit_caps_page (rawLimit : option Z) (offset : Z) (mixedJobs : list JobListing) :
  plainLimit rawLimit →
  1 ≤ Serve.limitOf rawLimit ≤ 500 ∧
  (length (Serve.paginate offset (Serve.limitOf rawLimit) mixedJobs) ≤ 500)%nat.
Proof.
  intros Hraw.
  assert (1 ≤ Serve.limitOf rawLimit ≤ 500) as Hlim.
  { unfold Serve.limitOf, JsExtra.orNumber. destruct rawLimit as [n|]; simpl in *; [|lia].
    destruct (Z.eqb_spec n 0); lia. }
  split; [done|]. unfold Serve.paginate.
  pose proof (slice_length offset (Serve.limitOf rawLimit) mixedJobs). lia.
Qed.

Lemma limit_caps_page_witness :
  Serve.limitOf (Some 900) = 500 ∧
  (length (Serve.paginate 3%Z (Serve.limitOf (Some 900%Z)) tenListings) ≤ 500)%nat.
Proof.
  split; [reflexivity|].
  apply (limit_caps_page (Some 900) 3 tenListings). simpl. lia.
Defined.

(** A negative limit is not a cap: the page then ends that many listings
    before the end. *)
Example negative_limit_page :
  Serve.limitOf (Some (-2)) = -2 ∧
  length (Serve.paginate 1 (Serve.limitOf (Some (-2))) tenListings) = 8%nat.
Proof. vm_compute. done. Qed.

(** X17.  For an offset that is not negative and a positive limit, the
    page is the next [limit] listings after [offset]; the page and what lies
    from [nextOffset] on make up what lies from [offset] on; [hasMore] is
    false exactly when the page reaches the end of the list, and a page with
    [hasMore] set is full; [total] counts the whole list and the three tier
    counts add up to the page. *)
Theorem pages_tile (offset limit : Z) (mixedJobs : list JobListing) :
  0 ≤ offset → 0 < limit →
  let response := Serve.respond offset limit mixedJobs in
  Serve.jobs response = take (Z.to_nat limit) (drop (Z.to_nat offset) mixedJobs) ∧
  Serve.jobs response ++ drop (Z.to_nat (Serve.nextOffset response)) mixedJobs
    = drop (Z.to_nat offset) mixedJobs ∧
  (Serve.hasMore response = false ↔
   (Z.to_nat offset + length (Serve.jobs response) = length mixedJobs
    ∨ length mixedJobs ≤ Z.to_nat offset)%nat) ∧
  (Serve.hasMore response = true → length (Serve.jobs response) = Z.to_nat limit) ∧
  Serve.total response = length mixedJobs ∧
  (Serve.tier1 (Serve.stats response) + Serve.tier2 (Serve.stats response)
   + Serve.tier3 (Serve.stats response) = length (Serve.jobs response))%nat.
Proof.
  intros Ho Hl response.
  assert (Serve.jobs response = take (Z.to_nat limit) (drop (Z.to_nat offset) mixedJobs))
    as Hpage by (apply slice_nonneg; lia).
  split_and!; [done| | | |done|apply countTier_sum].
  - rewrite Hpage. simpl. rewrite Z2Nat.inj_add by lia.
    rewrite <- drop_drop. apply take_drop.
  - rewrite Hpage, length_take, length_drop. simpl.
    destruct (Z.ltb_spec (offset + limit) (Z.of_nat (length mixedJobs))); split; try done; lia.
  - rewrite Hpage, length_take, length_drop. simpl.
    intros ?%Z.ltb_lt. lia.
Qed.

Lemma pages_tile_witness :
  let first := Serve.respond 0 4 tenListings in
  let second := Serve.respond (Serve.nextOffset first) 4 tenListings in
  let third := Serve.respond (Serve.nextOffset second) 4 tenListings in
  Serve.jobs first ++ Serve.jobs second ++ Serve.jobs third = tenListings ∧
  Serve.jobs first ++ drop (Z.to_nat (Serve.nextOffset first)) tenListings = tenListings.
Proof.
  intros first second third. split; [reflexivity|].
  apply (proj1 (proj2 (pages_tile 0 4 tenListings ltac:(lia) ltac:(lia)))).
Defined.

(** X18.  Persistence: nothing is written without a user; what is written
    is never empty, holds at most 100 rows, taken from the page in page
    order, all for that user with status pending, and none with a url the
    user already has. *)
Theorem jobsToInsert_new_only
    (user_id : option string) (paginatedJobs : list JobListing)
    (existingJobs : option (list string)) :
  Serve.jobsToInsert None paginatedJobs existingJobs = None ∧
  ∀ rows, Serve.jobsToInsert user_id paginatedJobs existingJobs = Some rows →
    rows ≠ [] ∧ (length rows ≤ 100)%nat ∧
    sublist (Serve.row_url <$> rows) (url <$> paginatedJobs) ∧
    Forall (λ r, Serve.row_url r ∉ default [] existingJobs ∧
                 Some (Serve.row_user_id r) = user_id ∧
                 Serve.row_status r = "pending"%string) rows.
Proof.
  split; [reflexivity|]. intros rows. unfold Serve.jobsToInsert.
  destruct user_id as [uid|]; [|done].
  destruct (Js.truthy uid && bool_decide (0 < length paginatedJobs)%nat); [|done].
  set (newJobs := filter (λ j, url j ∉ (list_to_set (default [] existingJobs) : gset string))
                         paginatedJobs).
  destruct (bool_decide_reflect (0 < length newJobs)%nat) as [Hnew|]; [|done].
  intros [= <-]. split_and!.
  - destruct newJobs; simpl in *; [lia|done].
  - rewrite length_map, length_take. lia.
  - rewrite toRow_urls. apply fmap_sublist.
    etrans; [apply sublist_take|apply sublist_filter].
  - apply Forall_forall. intros r (j & -> & Hj)%list_elem_of_fmap.
    apply elem_of_take_elem in Hj. apply list_elem_of_filter in Hj as [Hj _].
    rewrite elem_of_list_to_set in Hj. done.
Qed.

Lemma jobsToInsert_new_only_witness :
  ∃ rows, Serve.jobsToInsert (Some "user-1"%string) [stripeListing 1; stripeListing 2]
            (Some [url (stripeListing 1)]) = Some rows ∧
          Serve.row_url <$> rows = [url (stripeListing 2)] ∧ rows ≠ [].
Proof.
  eexists. split; [reflexivity|]. split; [reflexivity|].
  eapply (proj2 (jobsToInsert_new_only (Some "user-1"%string)
                   [stripeListing 1; stripeListing 2] (Some [url (stripeListing 1)]))).
  reflexivity.
Defined.

(* ================================================================== *)
(** * Further properties: sorting by a total preorder                  *)
(* ================================================================== *)

Section SortOrder.

Context {A : Type}.
Variable cmp : A → A → Z.
Variable R : A → A → Prop.
Variable P : A → Prop.
Hypothesis cmp_R : ∀ a b, P a → P b → (cmp a b ≤ 0 ↔ R a b).
Hypothesis R_total : ∀ a b, P a → P b → R a b ∨ R b a.
Hypothesis R_trans : ∀ a b c, R a b → R b c → R a c.

Lemma sortInsert_sorted_by x l :
  P x → Forall P l → StronglySorted R l → StronglySorted R (Js.sortInsert cmp x l).
Proof.
  intros Hx HP Hs. induction Hs as [|y l Hs IH Hy]; simpl.
  - repeat constructor.
  - apply Forall_cons in HP as [Py HP].
    destruct (Z.leb_spec (cmp x y) 0) as [Hle|Hgt].
    + apply cmp_R in Hle; [|done..].
      constructor; [by constructor|].
      constructor; [done|]. eapply Forall_impl; [exact Hy|]. intros z ?. by eapply R_trans.
    + assert (R y x) as Hyx.
      { destruct (R_total x y Hx Py) as [Hxy|]; [|done].
        apply cmp_R in Hxy; [lia|done..]. }
      constructor; [by apply IH|].
      rewrite sortInsert_perm. by constructor.
Qed.

Lemma sort_sorted_by l : Forall P l → StronglySorted R (Js.sort cmp l).
Proof.
  induction 1 as [|x l Hx HP IH]; [constructor|].
  unfold Js.sort in *. simpl. apply sortInsert_sorted_by; [done| |done].
  by apply sort_Forall.
Qed.

(** Sorting a sorted list changes nothing. *)
Lemma sort_sorted_id l : Forall P l → StronglySorted R l → Js.sort cmp l = l.
Proof.
  intros HP Hs. induction Hs as [|x l Hs IH Hx]; [done|].
  apply Forall_cons in HP as [Px HP]. unfold Js.sort in *. simpl. rewrite (IH HP).
  destruct l as [|y l]; [done|]. simpl.
  apply Forall_cons in Hx as [Hxy _]. apply Forall_cons in HP as [Py _].
  apply cmp_R in Hxy; [|done..]. by rewrite (proj2 (Z.leb_le _ _) Hxy).
Qed.

End SortOrder.

Lemma sortInsert_split {A} (cmp : A → A → Z) x l :
  ∃ l1 l2, l = l1 ++ l2 ∧ Js.sortInsert cmp x l = l1 ++ x :: l2.
Proof.
  induction l as [|y l (l1 & l2 & Hl & Hins)]; simpl.
  - by exists [], [].
  - destruct (cmp x y <=? 0).
    + by exists [], (y :: l).
    + exists (y :: l1), l2. by rewrite Hl at 1; rewrite Hins.
Qed.

(* ================================================================== *)
(** * Further properties: the feed handler                             *)
(* ================================================================== *)

Section FeedMore.

Import Feed.

Variable dateMs : string → option Z.
Variable toISOString : Z → string.

Lemma byTierThenNewest_order a b :
  datedJob dateMs a → datedJob dateMs b →
  byTierThenNewest dateMs a b ≤ 0 ↔ feedOrder dateMs a b.
Proof.
  unfold datedJob, byTierThenNewest, feedOrder. intros [ta ->] [tb ->]. simpl.
  destruct (decide (fj_company_tier a = fj_company_tier b)) as [Heq|Hne].
  - rewrite Heq. split; [intros; right; split; [done|lia]|]. intros [?|[_ ?]]; lia.
  - split; [intros; left|intros [?|[? _]]; [lia|done]].
    destruct (fj_company_tier a), (fj_company_tier b); simpl in *; done || lia.
Qed.

Lemma feedOrder_total a b : feedOrder dateMs a b ∨ feedOrder dateMs b a.
Proof.
  unfold feedOrder.
  destruct (fj_company_tier a), (fj_company_tier b); simpl; try (left; left; lia);
    try (right; left; lia);
    destruct (Z.le_ge_cases (default 0 (createdMs dateMs b)) (default 0 (createdMs dateMs a)));
    auto.
Qed.

Lemma feedOrder_trans a b c :
  feedOrder dateMs a b → feedOrder dateMs b c → feedOrder dateMs a c.
Proof.
  unfold feedOrder. intros [?|[Hab ?]] [?|[Hbc ?]].
  - left. lia.
  - left. rewrite <- Hbc. done.
  - left. rewrite Hab. done.
  - right. split; [congruence|lia].
Qed.

Lemma countTier_sum_feed (l : list FormattedJob) :
  (countTier Tier1 l + countTier Tier2 l + countTier Tier3 l = length l)%nat.
Proof.
  unfold countTier. induction l as [|x l IH]; [done|]. rewrite !filter_cons.
  destruct (fj_company_tier x); simpl; lia.
Qed.

Lemma filter_passes_none (l : list FormattedJob) : filter (passesTier None) l = l.
Proof. induction l as [|x l IH]; [done|]. rewrite filter_cons. simpl. by rewrite IH. Qed.

(** The branch taken when neither revalidation applies. *)
Lemma handle_payload now req rows count payload :
  body (handle dateMs toISOString now req (QueryData rows count))
    = Some (FeedBody payload) →
  let formatted := filter (passesTier (tierFilter req))
                          (map (formatJob dateMs now) (default [] rows)) in
  payload = mkFeed (Js.sort (byTierThenNewest dateMs) formatted) (countOrZero count)
              (offset req + limit req <? countOrZero count)
              (lastModifiedOf toISOString now rows)
              (mkStats (countTier Tier1 formatted) (countTier Tier2 formatted)
                       (countTier Tier3 formatted)).
Proof.
  unfold handle. destruct (isOptions req); [done|].
  destruct (authorized req); simpl; [|done].
  destruct (decide _); [done|].
  match goal with |- context [if ?c then notModified _ _ else _] => destruct c end;
    [done|].
  simpl. intros [= <-]. destruct (tierFilter req); [done|].
  by rewrite filter_passes_none.
Qed.

Lemma handle_listings_gate now req store payload :
  body (handle dateMs toISOString now req store) = Some (FeedBody payload) →
  isOptions req = false ∧ authorized req = true ∧
  ∃ rows count, store = QueryData rows count.
Proof.
  unfold handle. destruct (isOptions req); [done|].
  destruct (authorized req); simpl; [|done].
  destruct store as [msg|rows count]; [done|]. eauto.
Qed.

End FeedMore.

(** X19.  The body of a 200 answer: the rows of the page that pass the tier
    parameter, formatted, in some order; tier counts that add up to their
    number; [total] and [hasMore] taken from the store's count, so that they
    ignore the tier parameter; and, when every [created_at] is readable, the
    jobs sorted by tier and, within a tier, newest first. *)
Theorem feed_payload_shape
    (dateMs : string → option Z) (toISOString : Z → string) (now : Z)
    (req : Feed.Request) (rows : option (list Feed.Row)) (count : option Z)
    (payload : Feed.JobFeedResponse) :
  Feed.body (Feed.handle dateMs toISOString now req (Feed.QueryData rows count))
    = Some (Feed.FeedBody payload) →
  Feed.jobs payload
    ≡ₚ filter (passesTier (Feed.tierFilter req))
              (Feed.formatJob dateMs now <$> default [] rows) ∧
  (Feed.tier1 (Feed.stats payload) + Feed.tier2 (Feed.stats payload)
   + Feed.tier3 (Feed.stats payload) = length (Feed.jobs payload))%nat ∧
  Feed.total payload = Feed.countOrZero count ∧
  (Feed.hasMore payload = true
   ↔ Feed.offset req + Feed.limit req < Feed.countOrZero count) ∧
  (Forall (datedJob dateMs) (Feed.jobs payload) →
   StronglySorted (feedOrder dateMs) (Feed.jobs payload)).
Proof.
  intros Hbody. apply handle_payload in Hbody. simpl in Hbody. subst payload. simpl.
  split_and!.
  - apply sort_perm.
  - rewrite sort_length. apply countTier_sum_feed.
  - done.
  - apply Z.ltb_lt.
  - intros Hdated. rewrite sort_perm in Hdated.
    apply (sort_sorted_by _ (feedOrder dateMs) (datedJob dateMs)); [| | |done].
    + apply byTierThenNewest_order.
    + intros a b _ _. apply feedOrder_total.
    + apply feedOrder_trans.
Qed.

Lemma feed_payload_shape_witness :
  ∃ payload,
    Feed.body (Feed.handle newYear2026 isoNewYear2026 1767312000000 (feedRequest None)
                 (Feed.QueryData feedRows (Some 2)))
      = Some (Feed.FeedBody payload) ∧
    length (Feed.jobs payload) = 2%nat ∧ Feed.total payload = 2.
Proof.
  eexists. split; [reflexivity|]. split; [reflexivity|].
  eapply (proj1 (proj2 (proj2 (feed_payload_shape newYear2026 isoNewYear2026 1767312000000
            (feedRequest None) feedRows (Some 2) _ eq_refl)))).
Defined.

(** X20.  Listings leave the handler only in a 200 answer to a request that
    is not a preflight, is authorized and whose query succeeded, and that
    answer carries the token of the data. *)
Theorem feed_listings_gated
    (dateMs : string → option Z) (toISOString : Z → string) (now : Z)
    (req : Feed.Request) (store : Feed.QueryResult) (payload : Feed.JobFeedResponse) :
  Feed.body (Feed.handle dateMs toISOString now req store) = Some (Feed.FeedBody payload) →
  Feed.isOptions req = false ∧ Feed.authorized req = true ∧
  Feed.status (Feed.handle dateMs toISOString now req store) = 200 ∧
  ∃ rows count,
    store = Feed.QueryData rows count ∧
    Feed.header_ETag (Feed.handle dateMs toISOString now req store)
      = Some (currentToken toISOString now rows count).
Proof.
  intros Hbody. destruct (handle_listings_gate _ _ _ _ _ _ Hbody) as (Ho & Ha & rows & count & ->).
  split; [done|]. split; [done|].
  unfold Feed.handle in *. rewrite Ho, Ha in *. simpl in *.
  destruct (decide _); [done|].
  match goal with |- context [if ?c then Feed.notModified _ _ else _] => destruct c end;
    [done|].
  split; [done|]. by exists rows, count.
Qed.

Lemma feed_listings_gated_witness :
  Feed.status (Feed.handle newYear2026 isoNewYear2026 1767312000000 (feedRequest None)
                 (Feed.QueryData feedRows (Some 2))) = 200.
Proof.
  eapply (proj1 (proj2 (proj2 (feed_listings_gated newYear2026 isoNewYear2026 1767312000000
            (feedRequest None) (Feed.QueryData feedRows (Some 2)) _ eq_refl)))).
Defined.

(** X21.  A token the handler has issued for a page stays good while the
    page is the same: whatever the two clocks read, a second request that
    sends it back as [If-None-Match] is answered 304 with no body, with the
    same token and, as [Last-Modified], the latest row's timestamp. *)
Theorem issued_token_revalidates
    (dateMs : string → option Z) (toISOString : Z → string) (now1 now2 : Z)
    (req1 req2 : Feed.Request) (latest : Feed.Row) (rest : list Feed.Row)
    (created : string) (count : option Z) :
  let store := Feed.QueryData (Some (latest :: rest)) count in
  let first := Feed.handle dateMs toISOString now1 req1 store in
  let second := Feed.handle dateMs toISOString now2 req2 store in
  Feed.row_created_at latest = Some created → Js.truthy created = true →
  Feed.isOptions req1 = false → Feed.authorized req1 = true →
  Feed.isOptions req2 = false → Feed.authorized req2 = true →
  Feed.ifNoneMatch req2 = Feed.header_ETag first →
  Feed.status second = 304 ∧ Feed.body second = None ∧
  Feed.header_ETag second = Feed.header_ETag first ∧
  Feed.header_LastModified second = Some created.
Proof.
  intros store first second Hc Ht Ho1 Ha1 Ho2 Ha2 Htok.
  assert (∀ now, Feed.lastModifiedOf toISOString now (Some (latest :: rest)) = created) as Hlm.
  { intros now. unfold Feed.lastModifiedOf. simpl. rewrite Hc. simpl. by rewrite Ht. }
  assert (Feed.header_ETag first = Some (Feed.etagOf created count)) as Hfirst.
  { unfold first, store. rewrite handle_etag_header by done. by rewrite Hlm. }
  rewrite Hfirst in *. unfold second, store.
  rewrite (handle_token_match dateMs toISOString now2 req2 (Some (latest :: rest)) count)
    by (try done; by rewrite Hlm).
  rewrite Hlm. done.
Qed.

Lemma issued_token_revalidates_witness :
  let first := Feed.handle newYear2026 isoNewYear2026 1767312000000 (feedRequest None)
                 (Feed.QueryData feedRows (Some 2)) in
  Feed.status first = 200 ∧
  Feed.status (Feed.handle newYear2026 isoNewYear2026 1767312060000
                 (feedRequest (Feed.header_ETag first))
                 (Feed.QueryData feedRows (Some 2))) = 304.
Proof.
  intros first. split; [reflexivity|].
  apply (issued_token_revalidates newYear2026 isoNewYear2026
           1767312000000 1767312060000 (feedRequest None)
           (feedRequest (Feed.header_ETag first))
           (Feed.mkRow "Stripe" (Some "2026-01-01T00:00:00.000Z"%string) None)
           [Feed.mkRow "Acme" (Some "2025-12-30T08:00:00.000Z"%string) None]
           "2026-01-01T00:00:00.000Z" (Some 2));
    reflexivity.
Defined.

(** X22.  Without a [since] parameter, a request whose [If-Modified-Since]
    date is not before the latest row's date is answered 304 with no body,
    whatever token it sent. *)
Theorem if_modified_since_revalidates
    (dateMs : string → option Z) (toISOString : Z → string) (now : Z)
    (req : Feed.Request) (rows : option (list Feed.Row)) (count : option Z)
    (ims : string) (latest sent : Z) :
  Feed.isOptions req = false → Feed.authorized req = true →
  Feed.since req = None →
  Feed.ifModifiedSince req = Some ims → Js.truthy ims = true →
  dateMs (Feed.lastModifiedOf toISOString now rows) = Some latest →
  dateMs ims = Some sent →
  latest ≤ sent →
  Feed.status (Feed.handle dateMs toISOString now req (Feed.QueryData rows count)) = 304 ∧
  Feed.body (Feed.handle dateMs toISOString now req (Feed.QueryData rows count)) = None.
Proof.
  intros Ho Ha Hs Hi Ht Hl Hd Hle. unfold Feed.handle. rewrite Ho, Ha. simpl.
  destruct (decide _); [done|].
  rewrite Hi, Hs, Ht. unfold Feed.notAfter. rewrite Hl, Hd. simpl.
  by rewrite (proj2 (Z.leb_le _ _) Hle).
Qed.

Lemma if_modified_since_revalidates_witness :
  Feed.status (Feed.handle newYear2026 isoNewYear2026 1767312000000
                 (feedRequestSince "2026-01-02T00:00:00.000Z" None)
                 (Feed.QueryData feedRows (Some 2))) = 304.
Proof.
  apply (if_modified_since_revalidates newYear2026 isoNewYear2026 1767312000000
           (feedRequestSince "2026-01-02T00:00:00.000Z" None) feedRows (Some 2)
           "2026-01-02T00:00:00.000Z" 1767225600000 1767225600000);
    solve [reflexivity | vm_compute; discriminate].
Defined.

(** X23.  A polling request (one with a [since] parameter) is answered 304
    only when its token matches: [If-Modified-Since] is not consulted. *)
Theorem since_ignores_if_modified_since
    (dateMs : string → option Z) (toISOString : Z → string) (now : Z)
    (req : Feed.Request) (rows : option (list Feed.Row)) (count : option Z) (s : string) :
  Feed.since req = Some s → Js.truthy s = true →
  Feed.status (Feed.handle dateMs toISOString now req (Feed.QueryData rows count)) = 304 →
  Feed.ifNoneMatch req = Some (currentToken toISOString now rows count).
Proof.
  intros Hs Ht. unfold Feed.handle.
  destruct (Feed.isOptions req); [done|]. destruct (Feed.authorized req); simpl; [|done].
  destruct (decide _) as [Hm|Hn]; [done|].
  rewrite Hs, Ht. destruct (Feed.ifModifiedSince req) as [ims|]; simpl;
    rewrite ?andb_false_r; simpl; done.
Qed.

Lemma since_ignores_if_modified_since_witness :
  let token := Some (currentToken isoNewYear2026 1767312000000 feedRows (Some 2)) in
  let req := Feed.mkRequest false true 50 0 (Some "2026-01-01T00:00:00.000Z"%string) None
               token (Some "2026-01-02T00:00:00.000Z"%string) in
  Feed.ifNoneMatch req = token.
Proof.
  intros token req.
  apply (since_ignores_if_modified_since newYear2026 isoNewYear2026 1767312000000
           req feedRows (Some 2) "2026-01-01T00:00:00.000Z"); reflexivity.
Defined.

(* ================================================================== *)
(** * Further properties: company tiers                                *)
(* ================================================================== *)

Section Tiers.

Lemma truthy_toLowerCase s : Js.truthy (Js.toLowerCase s) = Js.truthy s.
Proof. by destruct s. Qed.

Lemma trimStart_toLowerCase s :
  Js.trimStart (Js.toLowerCase s) = Js.toLowerCase (Js.trimStart s).
Proof.
  induction s as [|c s IH]; simpl; [done|].
  rewrite isSpace_toLowerChar. by destruct (Js.isSpace c).
Qed.

Lemma trimEnd_toLowerCase s :
  Js.trimEnd (Js.toLowerCase s) = Js.toLowerCase (Js.trimEnd s).
Proof.
  induction s as [|c s IH]; simpl; [done|].
  rewrite isSpace_toLowerChar, IH, truthy_toLowerCase.
  by destruct (Js.isSpace c && negb (Js.truthy (Js.trimEnd s))).
Qed.

Lemma trim_toLowerCase s : Js.trim (Js.toLowerCase s) = Js.toLowerCase (Js.trim s).
Proof. unfold Js.trim. by rewrite trimStart_toLowerCase, trimEnd_toLowerCase. Qed.

Lemma greenhouse_names_classified :
  Forall (λ c, Feed.getCompanyTier (ghc_name c) = ghc_tier c)
         (Scraper.TIER_1_greenhouse ++ Scraper.TIER_2_greenhouse).
Proof. apply (bool_decide_unpack _). vm_compute. exact I. Qed.

Lemma workable_names_classified :
  Forall (λ c, Feed.getCompanyTier (wkc_name c) = wkc_tier c) Scraper.TIER_3_workable.
Proof. apply (bool_decide_unpack _). vm_compute. exact I. Qed.

End Tiers.

(** X24.  The feed's tier of a company does not depend on the letter case
    of its name nor on white space around it. *)
Theorem getCompanyTier_ignores_case_and_margins (companyName : string) :
  Feed.getCompanyTier (Js.toLowerCase companyName) = Feed.getCompanyTier companyName ∧
  Feed.getCompanyTier (Js.trim companyName) = Feed.getCompanyTier companyName.
Proof.
  unfold Feed.getCompanyTier. split.
  - by rewrite toLowerCase_idem.
  - by rewrite <- trim_toLowerCase, trim_idem.
Qed.

(** X25.  The two functions agree on tiers: every listing a configured
    source delivers is put by the feed, from its company name, in the tier
    the scraper gave it. *)
Theorem feed_tier_agrees_with_scraper
    (dateMs : string → option Z) (toISOString : Z → string) (now : Z) :
  (∀ descriptor outcome,
     descriptor ∈ Scraper.TIER_1_greenhouse ++ Scraper.TIER_2_greenhouse →
     Forall (λ j, Feed.getCompanyTier (company j) = company_tier j)
       (delivered (Scraper.fetchGreenhouseJobs dateMs toISOString descriptor now outcome))) ∧
  (∀ descriptor outcome,
     descriptor ∈ Scraper.TIER_3_workable →
     Forall (λ j, Feed.getCompanyTier (company j) = company_tier j)
       (delivered (Scraper.fetchWorkableJobs dateMs toISOString descriptor now outcome))).
Proof.
  split; intros c outcome Hc.
  - pose proof greenhouse_names_classified as Hall. rewrite Forall_forall in Hall.
    eapply Forall_impl; [apply client_listings|].
    intros j [raw ->]. simpl. by apply Hall.
  - pose proof workable_names_classified as Hall. rewrite Forall_forall in Hall.
    eapply Forall_impl; [apply client_listings|].
    intros j [raw ->]. simpl. by apply Hall.
Qed.

Lemma feed_tier_agrees_with_scraper_witness :
  length (delivered (Scraper.fetchGreenhouseJobs newYear2026 isoNewYear2026 stripe 0
                       (boardWith 2))) = 2%nat ∧
  Forall (λ j, Feed.getCompanyTier (company j) = company_tier j)
    (delivered (Scraper.fetchGreenhouseJobs newYear2026 isoNewYear2026 stripe 0
                  (boardWith 2))).
Proof.
  split; [reflexivity|].
  apply (proj1 (feed_tier_agrees_with_scraper newYear2026 isoNewYear2026 0)
           stripe (boardWith 2)).
  apply elem_of_app. left. apply list_elem_of_In. simpl. tauto.
Defined.

(* ================================================================== *)
(** * Further properties: the live list of the front end               *)
(* ================================================================== *)

Section LiveMore.

Import LiveJobs.

Variable dateMs : string → option Z.

Lemma byTierThenCreated_order a b :
  datedLive dateMs a → datedLive dateMs b →
  byTierThenCreated dateMs a b ≤ 0 ↔ liveOrder dateMs a b.
Proof.
  unfold datedLive, byTierThenCreated, liveOrder. intros [ta ->] [tb ->]. simpl.
  destruct (decide (company_tier a = company_tier b)) as [Heq|Hne].
  - rewrite Heq. split; [intros; right; split; [done|lia]|]. intros [?|[_ ?]]; lia.
  - split; [intros; left|intros [?|[? _]]; [lia|done]].
    destruct (company_tier a), (company_tier b); simpl in *; done || lia.
Qed.

Lemma liveOrder_total a b : liveOrder dateMs a b ∨ liveOrder dateMs b a.
Proof.
  unfold liveOrder.
  destruct (company_tier a), (company_tier b); simpl; try (left; left; lia);
    try (right; left; lia);
    destruct (Z.le_ge_cases (default 0 (createdMs dateMs b)) (default 0 (createdMs dateMs a)));
    auto.
Qed.

Lemma liveOrder_trans a b c :
  liveOrder dateMs a b → liveOrder dateMs b c → liveOrder dateMs a c.
Proof.
  unfold liveOrder. intros [?|[Hab ?]] [?|[Hbc ?]].
  - left. lia.
  - left. rewrite <- Hbc. done.
  - left. rewrite Hab. done.
  - right. split; [congruence|lia].
Qed.

Lemma countInsert_total t stats : total (countInsert t stats) = total stats + 1.
Proof. by destruct t. Qed.

Lemma countInsert_addUp t stats : countsAddUp stats → countsAddUp (countInsert t stats).
Proof. unfold countsAddUp. destruct t; simpl; lia. Qed.

Lemma insertJob_length j prev : (length (insertJob dateMs j prev) ≤ 100)%nat.
Proof. unfold insertJob. rewrite length_take. lia. Qed.

Lemma onChange_length change s :
  (length (jobs s) ≤ 100)%nat → (length (jobs (onChange dateMs change s)) ≤ 100)%nat.
Proof.
  intros Hs. destruct change; simpl; [apply insertJob_length| | |done].
  - unfold updateJob. by rewrite length_map.
  - unfold deleteJob. etrans; [apply length_filter|done].
Qed.

Lemma insertCount_cons change changes :
  insertCount (change :: changes)
  = (match change with INSERT _ => 1 | _ => 0 end) + insertCount changes.
Proof.
  unfold insertCount. rewrite filter_cons.
  destruct change; simpl; lia.
Qed.

End LiveMore.

(** X26.  After an INSERT the live list holds at most 100 jobs, all of them
    from the old list or the new job; none is lost while the old list held
    fewer than 100; and with readable dates the list is sorted by tier and,
    within a tier, newest first, however the old list was ordered. *)
Theorem insertJob_keeps_list_bounded_and_sorted
    (dateMs : string → option Z) (newJob : LiveJobs.Job) (prev : list LiveJobs.Job) :
  (length (LiveJobs.insertJob dateMs newJob prev) ≤ 100)%nat ∧
  LiveJobs.insertJob dateMs newJob prev ⊆+ newJob :: prev ∧
  ((length prev < 100)%nat → LiveJobs.insertJob dateMs newJob prev ≡ₚ newJob :: prev) ∧
  (Forall (datedLive dateMs) (newJob :: prev) →
   StronglySorted (liveOrder dateMs) (LiveJobs.insertJob dateMs newJob prev)).
Proof.
  split_and!.
  - apply insertJob_length.
  - unfold LiveJobs.insertJob. etrans; [apply sublist_submseteq, sublist_take|].
    by rewrite sort_perm.
  - intros Hlen. unfold LiveJobs.insertJob.
    rewrite take_ge by (rewrite sort_length; simpl; lia). apply sort_perm.
  - intros Hdated. unfold LiveJobs.insertJob.
    eapply StronglySorted_sublist; [apply sublist_take|].
    apply (sort_sorted_by _ (liveOrder dateMs) (datedLive dateMs)); [| | |done].
    + apply byTierThenCreated_order.
    + intros a b _ _. apply liveOrder_total.
    + apply liveOrder_trans.
Qed.

Lemma insertJob_keeps_list_bounded_and_sorted_witness :
  LiveJobs.insertJob newYear2026 (liveJob "c" Tier2) (LiveJobs.jobs liveState)
    = [liveJob "a" Tier1; liveJob "c" Tier2; liveJob "b" Tier3] ∧
  StronglySorted (liveOrder newYear2026)
    (LiveJobs.insertJob newYear2026 (liveJob "c" Tier2) (LiveJobs.jobs liveState)).
Proof.
  split; [reflexivity|].
  apply (proj2 (proj2 (proj2 (insertJob_keeps_list_bounded_and_sorted newYear2026
           (liveJob "c" Tier2) (LiveJobs.jobs liveState))))).
  repeat constructor; by eexists.
Defined.

(** X27.  The counters follow the INSERT notifications only: after any
    sequence of notifications the total is the old total plus the number of
    INSERTs, whatever was deleted or cut off; the three tier counters keep
    adding up to the total, and the list stays within 100 jobs. *)
Theorem counters_count_inserts
    (dateMs : string → option Z) (changes : list LiveJobs.Change) (s : LiveJobs.State) :
  countsAddUp (LiveJobs.stats s) →
  (length (LiveJobs.jobs s) ≤ 100)%nat →
  LiveJobs.total (LiveJobs.stats (runChanges dateMs changes s))
    = LiveJobs.total (LiveJobs.stats s) + insertCount changes ∧
  countsAddUp (LiveJobs.stats (runChanges dateMs changes s)) ∧
  (length (LiveJobs.jobs (runChanges dateMs changes s)) ≤ 100)%nat.
Proof.
  revert s. unfold runChanges.
  induction changes as [|change changes IH]; intros s Hadd Hlen; simpl.
  - split; [unfold insertCount; simpl; lia|done].
  - destruct (IH (LiveJobs.onChange dateMs change s)) as (Htot & Hadd' & Hlen').
    + destruct change; simpl; try done. by apply countInsert_addUp.
    + by apply onChange_length.
    + split; [|done]. rewrite Htot, insertCount_cons.
      destruct change; simpl; rewrite ?countInsert_total; lia.
Qed.

Lemma counters_count_inserts_witness :
  let changes := [LiveJobs.INSERT (liveJob "c" Tier2); LiveJobs.DELETE "c"] in
  LiveJobs.jobs (runChanges newYear2026 changes liveState) = LiveJobs.jobs liveState ∧
  LiveJobs.total (LiveJobs.stats (runChanges newYear2026 changes liveState)) = 3.
Proof.
  intros changes. split; [reflexivity|].
  rewrite (proj1 (counters_count_inserts newYear2026 changes liveState
                    eq_refl ltac:(simpl; lia))).
  reflexivity.
Defined.

(** X28.  A job that is inserted and then deleted leaves a sorted list of
    fewer than 100 jobs exactly as it was (while the counters, by the
    previous property, stay one higher). *)
Theorem delete_undoes_insert
    (dateMs : string → option Z) (newJob : LiveJobs.Job) (prev : list LiveJobs.Job) :
  LiveJobs.id newJob ∉ LiveJobs.id <$> prev →
  (length prev < 100)%nat →
  Forall (datedLive dateMs) (newJob :: prev) →
  StronglySorted (liveOrder dateMs) prev →
  LiveJobs.deleteJob (LiveJobs.id newJob) (LiveJobs.insertJob dateMs newJob prev) = prev.
Proof.
  intros Hfresh Hlen [_ Hdated]%Forall_cons Hsorted.
  unfold LiveJobs.insertJob, LiveJobs.deleteJob.
  rewrite take_ge by (rewrite sort_length; simpl; lia).
  unfold Js.sort. simpl. fold (Js.sort (LiveJobs.byTierThenCreated dateMs) prev).
  rewrite (sort_sorted_id _ (liveOrder dateMs) (datedLive dateMs));
    [|apply byTierThenCreated_order|done|done].
  destruct (sortInsert_split (LiveJobs.byTierThenCreated dateMs) newJob prev)
    as (l1 & l2 & Hprev & ->).
  rewrite filter_app, filter_cons_False by (intros Hne; by apply Hne).
  rewrite <- filter_app, <- Hprev.
  clear -Hfresh. induction prev as [|x l IH]; [done|].
  rewrite fmap_cons, not_elem_of_cons in Hfresh. destruct Hfresh as [Hx Hl].
  rewrite filter_cons_True by congruence. by rewrite IH.
Qed.

Lemma delete_undoes_insert_witness :
  LiveJobs.deleteJob "c"
    (LiveJobs.insertJob newYear2026 (liveJob "c" Tier2) (LiveJobs.jobs liveState))
  = LiveJobs.jobs liveState.
Proof.
  apply (delete_undoes_insert newYear2026 (liveJob "c" Tier2) (LiveJobs.jobs liveState)).
  - apply (bool_decide_unpack _). vm_compute. exact I.
  - simpl. lia.
  - repeat constructor; by eexists.
  - apply SSorted_cons; [apply SSorted_cons; constructor|].
    constructor; [|constructor]. left. simpl. lia.
Defined.

Section ViewMore.

Import LiveJobs.

Lemma matchesSearch_lower q job : matchesSearch (Js.toLowerCase q) job = matchesSearch q job.
Proof. unfold matchesSearch. by rewrite truthy_toLowerCase, toLowerCase_idem. Qed.

End ViewMore.

(** X29.  The list shown by the feed component: a sublist of the live
    list, all of it when the search box is empty and no tier is chosen,
    only jobs of the chosen tier otherwise, and the same whatever the
    letter case of the search text. *)
Theorem filteredJobs_view (searchQuery : string) (tierFilter : option Tier)
    (jobs : list LiveJobs.Job) :
  sublist (LiveJobs.filteredJobs searchQuery tierFilter jobs) jobs ∧
  LiveJobs.filteredJobs EmptyString None jobs = jobs ∧
  Forall (λ job, ∀ t, tierFilter = Some t → LiveJobs.company_tier job = t)
         (LiveJobs.filteredJobs searchQuery tierFilter jobs) ∧
  LiveJobs.filteredJobs (Js.toLowerCase searchQuery) tierFilter jobs
    = LiveJobs.filteredJobs searchQuery tierFilter jobs.
Proof.
  unfold LiveJobs.filteredJobs. split_and!.
  - apply sublist_filter.
  - induction jobs as [|x l IH]; [done|]. rewrite filter_cons_True by done. by rewrite IH.
  - apply Forall_forall. intros job [Hjob _]%list_elem_of_filter t ->.
    apply andb_prop in Hjob as [_ Ht]. simpl in Ht. by apply bool_decide_eq_true in Ht.
  - induction jobs as [|x l IH]; [done|].
    rewrite !filter_cons, IH, matchesSearch_lower. done.
Qed.

Lemma filteredJobs_view_witness :
  LiveJobs.filteredJobs "STRIPE" (Some Tier1) (LiveJobs.jobs liveState)
    = [liveJob "a" Tier1] ∧
  Forall (λ job, ∀ t, Some Tier1 = Some t → LiveJobs.company_tier job = t)
         (LiveJobs.filteredJobs "STRIPE" (Some Tier1) (LiveJobs.jobs liveState)).
Proof.
  split; [reflexivity|].
  apply (proj1 (proj2 (proj2 (filteredJobs_view "STRIPE" (Some Tier1)
                                (LiveJobs.jobs liveState))))).
Defined.

(* ================================================================== *)
(** * Further properties: the token tells pages apart                  *)
(* ================================================================== *)

Section Tokens.

Local Open Scope string_scope.
Local Open Scope Z_scope.

Lemma string_of_uint_dashFree u : dashFree (NilEmpty.string_of_uint u) = true.
Proof. induction u; simpl; done. Qed.

Lemma numberToString_dashFree z : 0 ≤ z → dashFree (Js.numberToString z) = true.
Proof.
  intros Hz. unfold Js.numberToString. destruct z as [|p|p]; [done| |lia].
  simpl. pose proof (Unsigned.to_uint_nonnil p) as Hnil.
  unfold NilZero.string_of_uint. destruct (Pos.to_uint p) eqn:E; try done;
    rewrite <- E; apply string_of_uint_dashFree.
Qed.

Lemma numberToString_inj z z' : Js.numberToString z = Js.numberToString z' → z = z'.
Proof.
  unfold Js.numberToString. intros H.
  assert (∀ z, NilZero.int_of_string (NilZero.string_of_int (Z.to_int z)) = Some (Z.to_int z))
    as Hround.
  { intros n. apply NilZero.isi; destruct n; simpl; intros [= E]; try done;
      by apply Unsigned.to_uint_nonnil in E. }
  apply to_int_inj. pose proof (Hround z) as H1. rewrite H, Hround in H1. congruence.
Qed.

Lemma dashFree_app_dash a d : dashFree (a ++ String "-" d) = false.
Proof. induction a as [|c a IH]; [done|]. rewrite append_cons. simpl. by rewrite IH, andb_false_r. Qed.

Lemma append_dash_inj a a' d d' :
  dashFree d = true → dashFree d' = true →
  a ++ String "-" d = a' ++ String "-" d' → a = a' ∧ d = d'.
Proof.
  intros Hd Hd'. revert a'. induction a as [|c a IH]; intros [|c' a']; rewrite ?append_cons.
  - by intros [= ->].
  - intros [= <- ->]. by rewrite dashFree_app_dash in Hd.
  - intros [= -> <-]. by rewrite dashFree_app_dash in Hd'.
  - intros [= -> H]. destruct (IH _ H) as [-> ->]. done.
Qed.

Lemma b64digit_facts n m :
  (n < 64)%N → (m < 64)%N →
  (Js.b64digit n = Js.b64digit m → n = m) ∧ Js.b64digit n ≠ "="%char.
Proof.
  intros Hn Hm.
  pose (p := λ i, forallb (b64distinct i) (seq 0 64)).
  assert (p (N.to_nat n) = true) as Hp.
  { apply (forallb_below p 64); [vm_compute; reflexivity | lia]. }
  unfold p in Hp.
  pose proof (forallb_below _ 64 Hp (N.to_nat m) ltac:(lia)) as H.
  unfold b64distinct in H. rewrite !N2Nat.id in H.
  apply andb_prop in H as [Himp Hne]. split.
  - intros E. rewrite E, Ascii.eqb_refl in Himp. simpl in Himp.
    apply Nat.eqb_eq in Himp. lia.
  - intros E. rewrite E in Hne. done.
Qed.

Lemma b64digit_inj n m :
  (n < 64)%N → (m < 64)%N → Js.b64digit n = Js.b64digit m → n = m.
Proof. intros Hn Hm. by apply b64digit_facts. Qed.

Lemma b64digit_not_pad n : (n < 64)%N → Js.b64digit n ≠ "="%char.
Proof. intros Hn. by apply (b64digit_facts n 0). Qed.

Lemma N_of_ascii_inj a b : N_of_ascii a = N_of_ascii b → a = b.
Proof. intros H. by rewrite <- (ascii_N_embedding a), H, ascii_N_embedding. Qed.

Lemma string_ind3 (P : string → Prop) :
  P EmptyString → (∀ a, P (String a EmptyString)) →
  (∀ a b, P (String a (String b EmptyString))) →
  (∀ a b c rest, P rest → P (String a (String b (String c rest)))) →
  ∀ s, P s.
Proof.
  intros H0 H1 H2 H3 s.
  assert (P s ∧ (∀ a, P (String a s)) ∧ (∀ a b, P (String a (String b s)))) as [Hs _];
    [|done].
  induction s as [|c s (IH0 & IH1 & IH2)]; [by split_and!|].
  split_and!; [apply IH1 | intros; apply IH2 | intros; by apply H3].
Qed.

Lemma N_divmod_spec (x d : N) :
  (d ≠ 0)%N → (x = d * (x `div` d) + x `mod` d ∧ x `mod` d < d)%N.
Proof. intros Hd. split; [apply N.div_mod, Hd | by apply N.mod_lt]. Qed.

(** Character codes become variables below 256, their quotients and
    remainders become variables too, and what is left is linear. *)
Ltac name_codes :=
  repeat match goal with
  | |- context [N_of_ascii ?a] =>
      pose proof (N_ascii_bounded a); generalize dependent (N_of_ascii a); intros
  | H : context [N_of_ascii ?a] |- _ =>
      pose proof (N_ascii_bounded a); generalize dependent (N_of_ascii a); intros
  end.

Ltac name_divmod x d :=
  pose proof (N_divmod_spec x d ltac:(done));
  generalize dependent (x `div` d)%N; generalize dependent (x `mod` d)%N; intros.

Ltac name_quotients :=
  repeat match goal with
  | |- context [(?x `div` ?d)%N] => name_divmod x d
  | |- context [(?x `mod` ?d)%N] => name_divmod x d
  | H : context [(?x `div` ?d)%N] |- _ => name_divmod x d
  | H : context [(?x `mod` ?d)%N] |- _ => name_divmod x d
  end.

Ltac sextets := name_codes; name_quotients; lia.

Lemma btoa_inj s t : Js.btoa s = Js.btoa t → s = t.
Proof.
  revert t. induction s as [|a|a b|a b c rest IH] using string_ind3;
    intros [|a' [|b' [|c' rest']]]; cbn [Js.btoa]; intros H;
    try discriminate H; try reflexivity;
    injection H; clear H; intros.
  all: try (exfalso;
            match goal with
            | H : Js.b64digit ?x = "="%char |- _ => revert H
            | H : "="%char = Js.b64digit ?x |- _ => symmetry in H; revert H
            end;
            apply b64digit_not_pad; sextets).
  all: repeat match goal with
       | H : Js.b64digit ?x = Js.b64digit ?y |- _ =>
           apply b64digit_inj in H; [|sextets..]
       | H : Js.btoa _ = Js.btoa _ |- _ => apply IH in H; subst
       end.
  - f_equal. apply N_of_ascii_inj. sextets.
  - assert (N_of_ascii a = N_of_ascii a' ∧ N_of_ascii b = N_of_ascii b') as [Ha Hb]
      by sextets.
    apply N_of_ascii_inj in Ha, Hb. by subst.
  - assert (N_of_ascii a = N_of_ascii a' ∧ N_of_ascii b = N_of_ascii b'
            ∧ N_of_ascii c = N_of_ascii c') as (Ha & Hb & Hc) by sextets.
    apply N_of_ascii_inj in Ha, Hb, Hc. by subst.
Qed.

Lemma append_nil_l s : EmptyString ++ s = s.
Proof. reflexivity. Qed.

Lemma append_inj_l a b c : a ++ b = a ++ c → b = c.
Proof. induction a as [|x a IH]; [done|]. rewrite !append_cons. intros [= H]. auto. Qed.

Lemma append_quote_inj a b : a ++ Js.quote = b ++ Js.quote → a = b.
Proof.
  revert b. induction a as [|x a IH]; intros [|y b];
    rewrite ?append_cons, ?append_nil_l; try done.
  - intros [= _ H]. destruct b; discriminate H.
  - intros [= _ H]. destruct a; discriminate H.
  - intros [= -> H]. by rewrite (IH _ H).
Qed.

Lemma etagOf_inj lm lm' c c' :
  0 ≤ Feed.countOrZero c → 0 ≤ Feed.countOrZero c' →
  Feed.etagOf lm c = Feed.etagOf lm' c' → lm = lm' ∧ Feed.countOrZero c = Feed.countOrZero c'.
Proof.
  intros Hc Hc'. unfold Feed.etagOf. intros H.
  apply append_inj_l, append_quote_inj, btoa_inj in H.
  change ("-" ++ ?x) with (String "-" x) in H.
  apply append_dash_inj in H as [-> H]; [|by apply numberToString_dashFree..].
  by apply numberToString_inj in H.
Qed.

(** X30.  The token tells pages apart: with counts that are not negative,
    two answers carry the same [ETag] only if they were made from the same
    latest timestamp and the same count (base64 and the decimal rendering
    lose nothing, and the last hyphen separates the two parts). *)
Theorem equal_tokens_same_page
    (dateMs : string → option Z) (toISOString : Z → string) (now1 now2 : Z)
    (req1 req2 : Feed.Request) (rows1 rows2 : option (list Feed.Row))
    (count1 count2 : option Z) :
  Feed.isOptions req1 = false → Feed.authorized req1 = true →
  Feed.isOptions req2 = false → Feed.authorized req2 = true →
  0 ≤ Feed.countOrZero count1 → 0 ≤ Feed.countOrZero count2 →
  Feed.header_ETag (Feed.handle dateMs toISOString now1 req1 (Feed.QueryData rows1 count1))
  = Feed.header_ETag (Feed.handle dateMs toISOString now2 req2 (Feed.QueryData rows2 count2)) →
  Feed.lastModifiedOf toISOString now1 rows1 = Feed.lastModifiedOf toISOString now2 rows2
  ∧ Feed.countOrZero count1 = Feed.countOrZero count2.
Proof.
  intros Ho1 Ha1 Ho2 Ha2 Hc1 Hc2. rewrite !handle_etag_header by done.
  intros H. apply (etagOf_inj _ _ _ _ Hc1 Hc2). congruence.
Qed.

Lemma equal_tokens_same_page_witness :
  Feed.lastModifiedOf isoNewYear2026 1767312000000 feedRows
    = Feed.lastModifiedOf isoNewYear2026 1767312060000 feedRows
  ∧ Feed.countOrZero (Some 2) = Feed.countOrZero (Some 2).
Proof.
  apply (equal_tokens_same_page newYear2026 isoNewYear2026 1767312000000 1767312060000
           (feedRequest None) (feedRequest None) feedRows feedRows (Some 2) (Some 2));
    first [reflexivity | (simpl; lia)].
Defined.

End Tokens.
